(** * Talabat token harvester: a shallow embedding and its verified properties

    The development follows the two scripts of the repository:

    - [src/index.js], the cookie-based (session-reuse) harvester, embedded
      in [Module CookieSession];
    - [src/unnamed/part_000], the credential-based harvester, embedded in
      [Module CredentialLogin].

    Code shared verbatim by the two scripts ([sleep], [retryOperation],
    [validateToken], [getGoogleAuth], [updateSheet]) is embedded once.

    JavaScript values are modelled by [JsValue]; the browser automation
    engine, the file system, the clock and the spreadsheet service are an
    [Engine] over an abstract world; effects (exceptions, [process.exit],
    console output, timers, calls to the engine) are threaded through the
    monad [M]. *)

From Stdlib Require Import String Ascii List ZArith QArith Bool Lia Arith.
From Stdlib Require Import DecimalString.
From Stdlib Require SpecFloat.
Import ListNotations.

Local Close Scope Q_scope.
Local Open Scope string_scope.
Local Open Scope list_scope.
Set Warnings "-register-all".

(* ===================================================================== *)
(** ** JavaScript values *)
(* ===================================================================== *)

(** The double quote character, for the messages and selectors of the
    source that contain one. *)
Definition dq : string := String (ascii_of_nat 34) EmptyString.

(** The line feed of the console banners. *)
Definition nl : string := String (ascii_of_nat 10) EmptyString.

Definition banner : string := "========================================".

(** A JavaScript value as [JSON.parse] can produce it, plus [undefined].
    Numbers are the finite doubles, each of which is a rational. *)
Inductive JsValue : Type :=
| JsUndefined
| JsNull
| JsBool (b : bool)
| JsNumber (q : Q)
| JsString (s : string)
| JsArray (items : list JsValue)
| JsObject (fields : list (string * JsValue)).

(** [ToBoolean]: what [if (v)], [!v] and [v && ...] test. *)
Definition truthy (v : JsValue) : bool :=
  match v with
  | JsUndefined | JsNull => false
  | JsBool b => b
  | JsNumber q => negb (Qeq_bool q 0)
  | JsString EmptyString => false
  | JsString _ => true
  | JsArray _ | JsObject _ => true
  end.

(** The [typeof] operator. *)
Definition typeof (v : JsValue) : string :=
  match v with
  | JsUndefined => "undefined"
  | JsNull => "object"
  | JsBool _ => "boolean"
  | JsNumber _ => "number"
  | JsString _ => "string"
  | JsArray _ | JsObject _ => "object"
  end.

(** The characters of a string value (empty for the other values, where
    no caller looks at them). *)
Definition stringOf (v : JsValue) : string :=
  match v with
  | JsString s => s
  | _ => EmptyString
  end.

(** Own property lookup on a parsed JSON object. *)
Fixpoint lookupField (key : string) (fields : list (string * JsValue)) : JsValue :=
  match fields with
  | [] => JsUndefined
  | (k, v) :: rest => if String.eqb k key then v else lookupField key rest
  end.

(** An [Error] object; only its [message] is ever read by the scripts
    (the stack is printed once, see [stackOf]). *)
Record JsError : Type := newError { message : string }.

(** The head line of [error.stack]. *)
Definition stackOf (e : JsError) : string := "Error: " ++ message e.

(** The result of a fallible call: a value, or a thrown error. *)
Inductive Result (A : Type) : Type :=
| Ok (a : A)
| Err (e : JsError).
Arguments Ok {A} a.
Arguments Err {A} e.

(* --------------------------------------------------------------------- *)
(** *** String methods *)

(** [s.startsWith(p)]. *)
Definition startsWith (p s : string) : bool := String.prefix p s.

(** [s.includes(needle)]. *)
Fixpoint includes (needle s : string) : bool :=
  if String.prefix needle s then true
  else match s with
       | EmptyString => false
       | String _ rest => includes needle rest
       end.

(** [s.split(sep)] for a one-character separator. *)
Fixpoint split (sep : ascii) (s : string) : list string :=
  match s with
  | EmptyString => [EmptyString]
  | String c rest =>
      if Ascii.eqb c sep then EmptyString :: split sep rest
      else match split sep rest with
           | [] => [String c EmptyString]
           | seg :: segs => String c seg :: segs
           end
  end.

(** Number of occurrences of a character. *)
Fixpoint countChar (sep : ascii) (s : string) : nat :=
  match s with
  | EmptyString => 0
  | String c rest => (if Ascii.eqb c sep then 1 else 0) + countChar sep rest
  end.

(** Decimal rendering of the integers that appear in template literals. *)
Definition showNat (n : nat) : string := NilZero.string_of_uint (Nat.to_uint n).
Definition showZ (z : Z) : string := NilZero.string_of_int (Z.to_int z).

(* ===================================================================== *)
(** ** Token Validator ([validateToken], index.js 79-94, part_000 74-89) *)
(* ===================================================================== *)

Definition msgTokenEmpty : string := "Token is empty or not a string".
Definition msgTokenPrefix : string :=
  "Invalid JWT format (must start with " ++ dq ++ "eyJ" ++ dq ++ ")".
Definition msgTokenParts : string := "Invalid JWT structure (must have 3 parts)".

Definition validateToken (token : JsValue) : Result bool :=
  if negb (truthy token) || negb (String.eqb (typeof token) "string") then
    Err (newError msgTokenEmpty)
  else if negb (startsWith "eyJ" (stringOf token)) then
    Err (newError msgTokenPrefix)
  else
    let parts := split "." (stringOf token) in
    if negb (Nat.eqb (List.length parts) 3) then
      Err (newError msgTokenParts)
    else Ok true.


(* ===================================================================== *)
(** ** The external world: browser engine, file system, clock, services *)
(* ===================================================================== *)

(** Handles returned by the engine. *)
Definition Browser : Type := nat.
Definition Page : Type := nat.
Definition Auth : Type := nat.

(** A cookie as Puppeteer's [page.cookies()] returns it and as the session
    file stores it.  [expires] is a number of seconds since the epoch
    ([-1] for a session cookie), held as the rational it stands for; a
    record read back from the file may lack the field. *)
Record Cookie : Type := mkCookie {
  name : string;
  value : string;
  domain : string;
  expires : option Q
}.

(** What [JSON.parse] makes of the session file: [null], or an array of
    cookie records. *)
Inductive CookieJson : Type :=
| CJNull
| CJArray (cookies : list Cookie).

(** The simple selectors the scripts pass to [document.querySelector],
    [page.waitForSelector], [page.click] and [page.type]. *)
Inductive Selector : Type :=
| SelLogoutTestId     (* [data-testid*="logout"] *)
| SelLogoutClass      (* [class*="logout"] *)
| SelLogoutAria       (* button[aria-label*="logout"] *)
| SelLogoutHref       (* a[href*="logout"] *)
| SelUserTestId       (* [data-testid*="user"] *)
| SelUserMenuClass    (* [class*="user-menu"] *)
| SelProfileClass     (* [class*="profile"] *)
| SelPasswordType     (* input[type="password"] *)
| SelPasswordName     (* input[name*="password"] *)
| SelPasswordId       (* input[id*="password"] *)
| SelEmailType        (* input[type="email"] *)
| SelEmailName        (* input[name*="email"] *)
| SelEmailId          (* input[id*="email"] *)
| SelSubmitType       (* button[type="submit"] *)
| SelSubmitClass      (* button[class*="submit"] *)
| SelLoginClass       (* button[class*="login"] *)
| SelLogoutTextButton (* button:has-text("Logout") *)
| SelLogOutTextButton (* button:has-text("Log out") *)
| SelLogoutTextLink   (* a:has-text("Logout") *)
| SelLogOutTextLink.  (* a:has-text("Log out") *)

(** [:has-text(...)] is not a CSS pseudo-class: the browser's
    [querySelector] rejects such a selector with a [SyntaxError]. *)
Definition validCss (sel : Selector) : bool :=
  match sel with
  | SelLogoutTextButton | SelLogOutTextButton
  | SelLogoutTextLink | SelLogOutTextLink => false
  | _ => true
  end.

(** The selector groups (comma-separated lists) of the source. *)
Definition logoutSelectors : list Selector :=
  [SelLogoutTestId; SelLogoutClass; SelLogoutAria; SelLogoutHref].
Definition userMenuSelectors : list Selector :=
  [SelUserTestId; SelUserMenuClass; SelProfileClass].
Definition emailSelectors : list Selector :=
  [SelEmailType; SelEmailName; SelEmailId].
Definition passwordSelectors : list Selector :=
  [SelPasswordType; SelPasswordName; SelPasswordId].
Definition submitSelectors : list Selector :=
  [SelSubmitType; SelSubmitClass; SelLoginClass].

(** The document as the in-page scripts see it: which simple selectors
    match an element. *)
Definition Dom : Type := Selector -> bool.

(** [document.querySelector(group)]: whether an element matches (the
    scripts only test the result against [null]). *)
Definition querySelector (d : Dom) (group : list Selector) : Result bool :=
  if forallb validCss group then Ok (existsb d group)
  else Err (newError "SyntaxError: not a valid selector").

(** The outcome of a function run inside the page by [page.evaluate]:
    its value, possibly after clicking one element, or an exception. *)
Inductive InPage (A : Type) : Type :=
| Done (a : A)
| Clicked (sel : Selector) (a : A)
| Raised (e : JsError).
Arguments Done {A} a.
Arguments Clicked {A} sel a.
Arguments Raised {A} e.

(** A network response as the ['response'] listener reads it:
    [response.url()], [response.status()], the [content-type] header and
    the outcome of [response.json()]. *)
Record Response : Type := mkResponse {
  url : string;
  status : Z;
  contentType : option string;
  json : Result JsValue
}.

(** The calls the scripts make to their collaborators, indexed by the type
    of the value a call resolves to.  [FsReadCookies] stands for
    [fs.readFile] followed by [JSON.parse], [FsWriteCookies] for
    [JSON.stringify] followed by [fs.writeFile], and [GoogleAuth] for
    [JSON.parse] of the credentials followed by [new GoogleAuth]: in each
    pair the two calls are adjacent and fail into the same handler. *)
Inductive Op : Type -> Type :=
| PuppeteerLaunch (headless : bool) : Op Browser
| BrowserNewPage (b : Browser) : Op Page
| BrowserClose (b : Browser) : Op unit
| PageSetViewport (p : Page) (width height : Z) : Op unit
| PageSetUserAgent (p : Page) (agent : string) : Op unit
| PageGoto (p : Page) (target : string) (timeout : Z) : Op unit
| PageEvaluate (p : Page) : Op Dom
| ElementClick (p : Page) (sel : Selector) : Op unit
| PageWaitForSelector (p : Page) (group : list Selector) (timeout : Z) : Op unit
| PageClick (p : Page) (group : list Selector) : Op unit
| PageType (p : Page) (group : list Selector) (text : string) (delay : Z) : Op unit
| PageWaitForNavigation (p : Page) (timeout : Z) : Op unit
| PageCookies (p : Page) : Op (list Cookie)
| PageSetCookie (p : Page) (cookies : list Cookie) : Op unit
| PageClose (p : Page) : Op unit
| FsAccess (file : string) : Op unit
| FsReadCookies (file : string) : Op CookieJson
| FsWriteCookies (file : string) (cookies : list Cookie) : Op unit
| GoogleAuth (credentials : string) : Op Auth
| SheetsUpdate (auth : Auth) (spreadsheetId : JsValue) (range : string)
               (values : list (list JsValue)) : Op JsValue.

(** The collaborators, over a world [W] of their own: the outcome of each
    call; the passing of time; the responses whose listener callback has
    run to completion since the last look; and the reads that cannot fail:
    [Date.now()] in milliseconds, the rendering [toISOString()] of such an
    instant, and [page.url()]. *)
Record Engine (W : Type) : Type := mkEngine {
  perform : forall A : Type, Op A -> W -> Result A * W;
  elapse : Z -> W -> W;
  responses : Page -> W -> list Response * W;
  clock : W -> Z;
  isoString : Z -> string;
  pageUrl : Page -> W -> string
}.
Arguments perform {W} e {A} op w.
Arguments elapse {W} e ms w.
Arguments responses {W} e p w.
Arguments clock {W} e w.
Arguments isoString {W} e ms.
Arguments pageUrl {W} e p w.

(** Process environment ([process.env]). *)
Record Env : Type := mkEnv {
  SETUP_MODE : option string;
  SHEET_ID : option string;
  GOOGLE_SERVICE_ACCOUNT : option string;
  PORTAL_EMAIL : option string;
  PORTAL_PASSWORD : option string
}.

(** An environment variable read as a string, [undefined] when unset. *)
Definition envValue (v : option string) : JsValue :=
  match v with
  | Some s => JsString s
  | None => JsUndefined
  end.

(* ===================================================================== *)
(** ** Observable events and the effect monad *)
(* ===================================================================== *)

Inductive Level : Type := LevelLog | LevelWarn | LevelError.

(** What a run leaves behind, in order: console output, timers, calls to
    the engine, and responses handed to the listener. *)
Inductive Event : Type :=
| EvConsole (level : Level) (args : list JsValue)
| EvSleep (ms : Z)
| EvExt (A : Type) (op : Op A)
| EvResponse (r : Response).
Arguments EvExt {A} op.

(** How a computation ends: with a value, with an exception, or by
    [process.exit], which no [catch] or [finally] intercepts. *)
Inductive Outcome (A : Type) : Type :=
| Return (a : A)
| Throw (e : JsError)
| Exit (code : Z).
Arguments Return {A} a.
Arguments Throw {A} e.
Arguments Exit {A} code.

Section Effects.

Context {W : Type} (E : Engine W).

(** The state a script runs in: the world, the [capturedToken] variable of
    the running attempt, the page whose ['response'] listener feeds it, and
    the [browser] variable of [main]. *)
Record HState : Type := mkHState {
  world : W;
  capturedToken : JsValue;
  listener : option Page;
  browserVar : option Browser
}.

Definition setWorld (w : W) (s : HState) : HState :=
  mkHState w (capturedToken s) (listener s) (browserVar s).

Record Run (A : Type) : Type := mkRun {
  outcome : Outcome A;
  final : HState;
  trace : list Event
}.
Arguments mkRun {A} outcome final trace.
Arguments outcome {A} r.
Arguments final {A} r.
Arguments trace {A} r.

Definition M (A : Type) : Type := HState -> Run A.

Definition ret {A} (a : A) : M A := fun s => mkRun (Return a) s [].

Definition throw {A} (e : JsError) : M A := fun s => mkRun (Throw e) s [].

(** [process.exit(code)]. *)
Definition process_exit {A} (code : Z) : M A := fun s => mkRun (Exit code) s [].

(** Prefix a run with the events that came before it. *)
Definition after {A} (t : list Event) (r : Run A) : Run A :=
  match r with
  | mkRun o s' t' => mkRun o s' (t ++ t')
  end.

Definition bind {A B} (m : M A) (k : A -> M B) : M B := fun s =>
  match m s with
  | mkRun (Return a) s' t => after t (k a s')
  | mkRun (Throw e) s' t => mkRun (Throw e) s' t
  | mkRun (Exit c) s' t => mkRun (Exit c) s' t
  end.

(** [try { body } catch (error) { handler }]. *)
Definition tryCatch {A} (body : M A) (handler : JsError -> M A) : M A := fun s =>
  match body s with
  | mkRun (Throw e) s' t => after t (handler e s')
  | mkRun o s' t => mkRun o s' t
  end.

(** [try { body } finally { cleanup }]: the cleanup runs when the body
    returns or throws, and its own exception replaces the body's outcome;
    it does not run when the body ended the process. *)
Definition tryFinally {A} (body : M A) (cleanup : M unit) : M A := fun s =>
  match body s with
  | mkRun (Exit c) s' t => mkRun (Exit c) s' t
  | mkRun o s' t =>
      match cleanup s' with
      | mkRun (Return _) s'' t' => mkRun o s'' (t ++ t')
      | mkRun (Throw e) s'' t' => mkRun (Throw e) s'' (t ++ t')
      | mkRun (Exit c) s'' t' => mkRun (Exit c) s'' (t ++ t')
      end
  end.

(** The outcome of a fallible pure function, as a computation. *)
Definition liftResult {A} (r : Result A) : M A :=
  match r with
  | Ok a => ret a
  | Err e => throw e
  end.

Definition emit (ev : Event) : M unit := fun s => mkRun (Return tt) s [ev].

Definition console_log (args : list JsValue) : M unit := emit (EvConsole LevelLog args).
Definition console_warn (args : list JsValue) : M unit := emit (EvConsole LevelWarn args).
Definition console_error (args : list JsValue) : M unit := emit (EvConsole LevelError args).

(** A call to a collaborator: it resolves or rejects as the engine says. *)
Definition ext {A} (op : Op A) : M A := fun s =>
  let '(r, w) := perform E op (world s) in
  mkRun (match r with Ok a => Return a | Err e => Throw e end)
        (setWorld w s) [EvExt op].

(** [sleep(ms)] (index.js 49, part_000 44): a timer that always fires. *)
Definition sleep (ms : Z) : M unit := fun s =>
  mkRun (Return tt) (setWorld (elapse E ms (world s)) s) [EvSleep ms].

(** [Date.now()]. *)
Definition dateNow : M Z := fun s => mkRun (Return (clock E (world s))) s [].

(** [new Date().toISOString()]. *)
Definition dateIso : M string := fun s =>
  mkRun (Return (isoString E (clock E (world s)))) s [].

(** [page.url()]. *)
Definition currentUrl (p : Page) : M string := fun s =>
  mkRun (Return (pageUrl E p (world s))) s [].

Definition getCapturedToken : M JsValue := fun s => mkRun (Return (capturedToken s)) s [].

Definition setCapturedToken (v : JsValue) : M unit := fun s =>
  mkRun (Return tt) (mkHState (world s) v (listener s) (browserVar s)) [].

(** [page.on('response', handler)]. *)
Definition pageOnResponse (p : Page) : M unit := fun s =>
  mkRun (Return tt) (mkHState (world s) (capturedToken s) (Some p) (browserVar s)) [].

Definition getListener : M (option Page) := fun s => mkRun (Return (listener s)) s [].

Definition getBrowserVar : M (option Browser) := fun s =>
  mkRun (Return (browserVar s)) s [].

Definition setBrowserVar (b : Browser) : M unit := fun s =>
  mkRun (Return tt) (mkHState (world s) (capturedToken s) (listener s) (Some b)) [].

(** The responses whose listener callback completed since the last look. *)
Definition arrivals (p : Page) : M (list Response) := fun s =>
  let '(rs, w) := responses E p (world s) in
  mkRun (Return rs) (setWorld w s) [].

End Effects.

Arguments HState W : clear implicits.
Arguments Run W A : clear implicits.
Arguments M W A : clear implicits.
Arguments mkRun {W A} outcome final trace.
Arguments outcome {W A} r.
Arguments final {W A} r.
Arguments trace {W A} r.
Arguments mkHState {W} world capturedToken listener browserVar.
Arguments browserVar {W} h.
Arguments setWorld {W} w s.
Arguments getListener {W} s.
Arguments getBrowserVar {W} s.
Arguments setBrowserVar {W} b s.
Arguments world {W} h.
Arguments capturedToken {W} h.
Arguments listener {W} h.
Arguments ret {W A} a s.
Arguments throw {W A} e s.
Arguments process_exit {W A} code s.
Arguments after {W A} t r.
Arguments bind {W A B} m k s.
Arguments tryCatch {W A} body handler s.
Arguments tryFinally {W A} body cleanup s.
Arguments liftResult {W A} r.
Arguments emit {W} ev s.
Arguments console_log {W} args.
Arguments console_warn {W} args.
Arguments console_error {W} args.
Arguments getCapturedToken {W} s.
Arguments setCapturedToken {W} v s.
Arguments pageOnResponse {W} p s.

Declare Scope js_scope.
Delimit Scope js_scope with js.
Notation "x <- m ;; k" := (bind m (fun x => k))
  (at level 61, m at next level, right associativity) : js_scope.
Notation "m ;; k" := (bind m (fun _ => k))
  (at level 61, right associativity) : js_scope.
Local Open Scope js_scope.

(* ===================================================================== *)
(** ** Code shared by the two scripts *)
(* ===================================================================== *)

(** [CONFIG.retry]. *)
Record RetryConfig : Type := mkRetryConfig {
  maxAttempts : nat;
  delayMs : Z
}.

(** [CONFIG.retry] as both scripts set it. *)
Definition CONFIG_retry : RetryConfig := mkRetryConfig 3 2000.

Definition CONFIG_portal_url : string := "https://portal.talabat.com/ae/".
Definition CONFIG_sheet_range : string := "Sheet1!A1:B1".
Definition CONFIG_timeouts_navigation : Z := 60000.
Definition userAgent : string :=
  "Mozilla/5.0 (Windows NT 10.0; Win64; x64) AppleWebKit/537.36 (KHTML, like Gecko) Chrome/120.0.0.0 Safari/537.36".

(** Property read [v.key] on a parsed JSON value: a [TypeError] on [null]
    and [undefined], [undefined] on the primitives and on arrays. *)
Definition getProp (v : JsValue) (key : string) : Result JsValue :=
  match v with
  | JsObject fields => Ok (lookupField key fields)
  | JsNull | JsUndefined =>
      Err (newError ("Cannot read properties of null (reading '" ++ key ++ "')"))
  | _ => Ok JsUndefined
  end.

Section Shared.

Context {W : Type} (E : Engine W).
Variable retry : RetryConfig.

(** The message of the error thrown on exhaustion (index.js 73). *)
Definition exhaustedMessage (context : string) (lastMessage : string) : string :=
  context ++ " failed after " ++ showNat (maxAttempts retry) ++ " attempts: " ++ lastMessage.

(** The body of [if (attempt < CONFIG.retry.maxAttempts) { ... }]
    (index.js 65-69). *)
Definition backoff (context : string) (attempt : nat) : M W unit :=
  if Nat.ltb attempt (maxAttempts retry) then
    let delay := (delayMs retry * 2 ^ Z.of_nat (attempt - 1))%Z in
    console_log [JsString ("[" ++ context ++ "] Retrying in " ++ showZ delay ++ "ms...")] ;;
    sleep E delay
  else ret tt.

(** The [for] loop of [retryOperation] with [remaining] iterations to go,
    the next one numbered [attempt]; when none is left, the [throw] that
    follows the loop. *)
Fixpoint retryLoop {A} (operation : M W A) (context : string)
         (remaining attempt : nat) (lastError : option JsError) : M W A :=
  match remaining with
  | O =>
      match lastError with
      | Some e => throw (newError (exhaustedMessage context (message e)))
      | None =>
          throw (newError "Cannot read properties of undefined (reading 'message')")
      end
  | S remaining' =>
      tryCatch
        (console_log [JsString ("[" ++ context ++ "] Attempt " ++ showNat attempt
                                ++ "/" ++ showNat (maxAttempts retry))] ;;
         operation)
        (fun error =>
           console_error [JsString ("[" ++ context ++ "] Attempt " ++ showNat attempt
                                    ++ " failed:");
                          JsString (message error)] ;;
           backoff context attempt ;;
           retryLoop operation context remaining' (S attempt) (Some error))
  end.

(** [retryOperation] (index.js 54-74, part_000 49-69). *)
Definition retryOperation {A} (operation : M W A) (context : string) : M W A :=
  retryLoop operation context (maxAttempts retry) 1 None.

Variable env : Env.

(** [getGoogleAuth] (index.js 452-464, part_000 273-285). *)
Definition getGoogleAuth : M W Auth :=
  console_log [JsString "[Google] Authenticating with service account..."] ;;
  auth <- match GOOGLE_SERVICE_ACCOUNT env with
          | Some credentials => ext E (GoogleAuth credentials)
          | None => throw (newError "SyntaxError: undefined is not valid JSON")
          end ;;
  console_log [JsString "[Google] Authentication successful"] ;;
  ret auth.

(** [updateSheet] (index.js 466-488, part_000 290-312). *)
Definition updateSheet (token : JsValue) : M W JsValue :=
  console_log [JsString "[Sheet] Updating Google Sheet..."] ;;
  auth <- getGoogleAuth ;;
  timestamp <- dateIso E ;;
  let values := [[token; JsString timestamp]] in
  data <- ext E (SheetsUpdate auth (envValue (SHEET_ID env)) CONFIG_sheet_range values) ;;
  console_log [JsString "[Sheet] ✅ Update successful"] ;;
  updatedCells <- liftResult (getProp data "updatedCells") ;;
  console_log [JsString "[Sheet] Updated cells:"; updatedCells] ;;
  console_log [JsString "[Sheet] Token saved to A1"] ;;
  console_log [JsString "[Sheet] Timestamp saved to B1:"; JsString timestamp] ;;
  ret data.

(** [page.evaluate(script)]: the script runs against the document the
    engine shows; a click it makes is reported back to the engine. *)
Definition evaluate {A} (p : Page) (script : Dom -> InPage A) : M W A :=
  d <- ext E (PageEvaluate p) ;;
  match script d with
  | Done a => ret a
  | Clicked sel a => ext E (ElementClick p sel) ;; ret a
  | Raised e => throw e
  end.

(** The in-page loop [for (const selector of selectors) { ... }] that
    clicks the first element found (index.js 341-357 and 372-388,
    part_000 189-209). *)
Fixpoint clickFirst (selectors : list Selector) (d : Dom) : InPage bool :=
  match selectors with
  | [] => Done false
  | sel :: rest =>
      match querySelector d [sel] with
      | Err e => Raised e
      | Ok true => Clicked sel true
      | Ok false => clickFirst rest d
      end
  end.

(** [Promise.all([a, b])] of two calls started together: both run, and
    the first rejection (in starting order) is the one thrown. *)
Definition promiseAll2 (a b : Op unit) : M W unit := fun s =>
  let '(ra, w1) := perform E a (world s) in
  let '(rb, w2) := perform E b w1 in
  mkRun (match ra, rb with
         | Err e, _ => Throw e
         | Ok _, Err e => Throw e
         | Ok _, Ok _ => Return tt
         end)
        (setWorld w2 s) [EvExt a; EvExt b].

End Shared.

(** [x < y] on numbers. *)
Definition Qltb (x y : Q) : bool := negb (Qle_bool y x).

(** JavaScript numbers are IEEE 754 binary64 values ([SpecFloat] with a
    mantissa of 53 bits and infinities at exponent 1024).  [toDouble z] is
    the number that holds the integer [z], which is exact below [2^53],
    and [doubleValue x] is the rational that a finite number stands for. *)
Definition toDouble (z : Z) : SpecFloat.spec_float :=
  SpecFloat.binary_normalize 53 1024 z 0 false.

Definition doubleValue (x : SpecFloat.spec_float) : Q :=
  match x with
  | SpecFloat.S754_finite s m e =>
      let n := if s then Z.neg m else Z.pos m in
      match e with
      | Z.neg p => Qmake n (2 ^ p)
      | _ => Qmake (n * 2 ^ e) 1
      end
  | _ => 0
  end.

(** [a / b] on two numbers that hold integers: the quotient rounded to
    the nearest number, ties to even, as IEEE 754 division does.  (In
    [Date.now() / 1000] the dividend is an integer of at most 8.64e15 in
    absolute value, so both operands are exact and the quotient is
    finite.) *)
Definition jsDivide (a b : Z) : Q :=
  doubleValue (SpecFloat.SFdiv 53 1024 (toDouble a) (toDouble b)).

(** [s.substring(0, 50)] on a value: a [TypeError] unless it is a string. *)
Definition substring50 (v : JsValue) : Result string :=
  match v with
  | JsString s => Ok (String.substring 0 50 s)
  | _ => Err (newError "capturedToken.substring is not a function")
  end.

(** A count or code as a JavaScript number. *)
Definition jsNat (n : nat) : JsValue := JsNumber (inject_Z (Z.of_nat n)).
Definition jsZ (z : Z) : JsValue := JsNumber (inject_Z z).

(* ===================================================================== *)
(** ** The event loop around a ['response'] listener *)
(* ===================================================================== *)

Section EventLoop.

Context {W : Type} (E : Engine W).

(** The listener installed by [page.on('response', ...)]. *)
Variable handler : Response -> M W unit.

(** The listener applied to a batch of responses, in completion order. *)
Fixpoint handleAll (rs : list Response) : M W unit :=
  match rs with
  | [] => ret tt
  | r :: rest => emit (EvResponse r) ;; handler r ;; handleAll rest
  end.

(** One turn of the event loop for the page [p]: when its listener is
    installed, the responses that completed are handed to it. *)
Definition deliver (p : Page) : M W unit :=
  l <- getListener ;;
  match l with
  | Some q => if Nat.eqb p q then rs <- arrivals E p ;; handleAll rs else ret tt
  | None => ret tt
  end.

(** [await m] in a function that holds the page [p]: while the caller is
    suspended, the listener of [p] may run. *)
Definition awaitOn {A} (p : Page) (m : M W A) : M W A :=
  tryFinally m (deliver p).

(** The polling loop [for (let i = 0; i < n; i++) { if (capturedToken)
    break; await sleep(500); }] with [remaining] iterations to go
    (index.js 427-430, part_000 249-252). *)
Fixpoint pollToken (page : Page) (remaining : nat) : M W unit :=
  match remaining with
  | O => ret tt
  | S remaining' =>
      token <- getCapturedToken ;;
      if truthy token then ret tt
      else awaitOn page (sleep E 500) ;; pollToken page remaining'
  end.

End EventLoop.

(* ===================================================================== *)
(** ** The cookie-based harvester ([src/index.js]) *)
(* ===================================================================== *)

Module CookieSession.

Definition CONFIG_cookies_filePath : string := "./session-cookies.json".

Definition msgLoadFailed : string :=
  "Failed to load cookies. Please run SETUP MODE first.".
Definition msgSessionExpired : string :=
  "Session expired. Please run SETUP MODE again to refresh cookies.".
Definition msgAutoFillFailed : string :=
  "Auto-fill login failed. Browser may not have saved credentials.".
Definition msgTokenNotCaptured : string :=
  "Token was not captured from network traffic".
Definition msgLoginNotDetected : string :=
  "Login not detected. Please ensure you logged in successfully.".
Definition msgSolution : string :=
  nl ++ "💡 SOLUTION: Run in SETUP MODE to refresh cookies".

(** The filter callback of [loadCookies] (index.js 137-143), without its
    console output: [cookie.expires && cookie.expires < now]. *)
Definition cookieExpired (now : Q) (cookie : Cookie) : bool :=
  match expires cookie with
  | Some e => truthy (JsNumber e) && Qltb e now
  | None => false
  end.

(** The in-page function of [verifyCookiesValid] (index.js 173-180). *)
Definition isLoggedInScript (d : Dom) : InPage bool :=
  match querySelector d logoutSelectors with
  | Err e => Raised e
  | Ok hasLogoutButton =>
      match querySelector d userMenuSelectors with
      | Err e => Raised e
      | Ok hasUserMenu =>
          match querySelector d [SelPasswordType] with
          | Err e => Raised e
          | Ok isLoginPage =>
              Done ((hasLogoutButton || hasUserMenu) && negb isLoginPage)
          end
      end
  end.

(** The in-page function of [setupCookies] (index.js 251-255). *)
Definition loginDetectedScript (d : Dom) : InPage bool :=
  match querySelector d logoutSelectors with
  | Err e => Raised e
  | Ok hasLogoutButton =>
      match querySelector d userMenuSelectors with
      | Err e => Raised e
      | Ok hasUserMenu => Done (hasLogoutButton || hasUserMenu)
      end
  end.

Section Program.

Context {W : Type} (E : Engine W).
Variable env : Env.

(** [SETUP_MODE] (index.js 45). *)
Definition setupMode : bool :=
  match SETUP_MODE env with
  | Some s => String.eqb s "true"
  | None => false
  end.

(** The ['response'] listener (index.js 290-313). *)
Definition onResponse (response : Response) : M W unit :=
  if includes "/v5/token" (url response) then
    console_log [JsString "[Network] Token endpoint detected!"] ;;
    console_log [JsString "[Network] URL:"; JsString (url response)] ;;
    console_log [JsString "[Network] Status:"; jsZ (status response)] ;;
    tryCatch
      (match contentType response with
       | Some ct =>
           if truthy (JsString ct) && includes "application/json" ct then
             data <- liftResult (json response) ;;
             access_token <- liftResult (getProp data "access_token") ;;
             if truthy access_token then
               setCapturedToken access_token ;;
               console_log [JsString "[Network] ✅ Token captured successfully"] ;;
               preview <- liftResult (substring50 access_token) ;;
               console_log [JsString "[Network] Token preview:";
                            JsString (preview ++ "...")]
             else ret tt
           else ret tt
       | None => ret tt
       end)
      (fun error =>
         console_error [JsString "[Network] Failed to parse token response:";
                        JsString (message error)])
  else ret tt.

Local Abbreviation awaiting := (awaitOn E onResponse).

(** [saveCookies] (index.js 101-112). *)
Definition saveCookies (page : Page) : M W bool :=
  tryCatch
    (cookies <- awaiting page (ext E (PageCookies page)) ;;
     awaiting page (ext E (FsWriteCookies CONFIG_cookies_filePath cookies)) ;;
     console_log [JsString ("[Cookies] Saved " ++ showNat (List.length cookies)
                            ++ " cookies to " ++ CONFIG_cookies_filePath)] ;;
     ret true)
    (fun error =>
       console_error [JsString "[Cookies] Failed to save:"; JsString (message error)] ;;
       ret false).

(** [cookies.filter(cookie => ...)] of [loadCookies] (index.js 137-143),
    with the console line of each record it skips. *)
Fixpoint filterCookies (now : Q) (cookies : list Cookie) : M W (list Cookie) :=
  match cookies with
  | [] => ret []
  | cookie :: rest =>
      keep <- (if cookieExpired now cookie then
                 console_log [JsString ("[Cookies] Skipping expired cookie: "
                                        ++ name cookie)] ;;
                 ret false
               else ret true) ;;
      kept <- filterCookies now rest ;;
      ret (if keep then cookie :: kept else kept)
  end.

(** [loadCookies] (index.js 117-158). *)
Definition loadCookies (page : Page) : M W bool :=
  tryCatch
    (found <- tryCatch
                (awaiting page (ext E (FsAccess CONFIG_cookies_filePath)) ;; ret true)
                (fun _ =>
                   console_warn [JsString "[Cookies] Cookie file not found, will need fresh login"] ;;
                   ret false) ;;
     if negb found then ret false
     else
       parsed <- awaiting page (ext E (FsReadCookies CONFIG_cookies_filePath)) ;;
       match parsed with
       | CJNull =>
           console_warn [JsString "[Cookies] No cookies found in file"] ;;
           ret false
       | CJArray cookies =>
           if Nat.eqb (List.length cookies) 0 then
             console_warn [JsString "[Cookies] No cookies found in file"] ;;
             ret false
           else
             nowMs <- dateNow E ;;
             let now := jsDivide nowMs 1000 in
             validCookies <- filterCookies now cookies ;;
             if Nat.eqb (List.length validCookies) 0 then
               console_warn [JsString "[Cookies] All cookies are expired"] ;;
               ret false
             else
               awaiting page (ext E (PageSetCookie page validCookies)) ;;
               console_log [JsString ("[Cookies] Loaded "
                                      ++ showNat (List.length validCookies)
                                      ++ " valid cookies")] ;;
               ret true
       end)
    (fun error =>
       console_error [JsString "[Cookies] Failed to load:"; JsString (message error)] ;;
       ret false).

(** [verifyCookiesValid] (index.js 163-189). *)
Definition verifyCookiesValid (page : Page) : M W bool :=
  tryCatch
    (awaiting page (ext E (PageGoto page CONFIG_portal_url CONFIG_timeouts_navigation)) ;;
     awaiting page (sleep E 2000) ;;
     isLoggedIn <- awaiting page (evaluate E page isLoggedInScript) ;;
     console_log [JsString "[Cookies] Verification result - logged in:"; JsBool isLoggedIn] ;;
     ret isLoggedIn)
    (fun error =>
       console_error [JsString "[Cookies] Verification failed:"; JsString (message error)] ;;
       ret false).

(** [initBrowser] (index.js 196-217); [headless] is ['new'] unless in
    setup mode. *)
Definition initBrowser : M W Browser :=
  console_log [JsString "[Browser] Launching Puppeteer..."] ;;
  browser <- ext E (PuppeteerLaunch (negb setupMode)) ;;
  console_log [JsString "[Browser] Launched successfully"] ;;
  ret browser.

(** [setupCookies] (index.js 222-275). *)
Definition setupCookies (browser : Browser) : M W unit :=
  console_log [JsString (nl ++ banner)] ;;
  console_log [JsString "SETUP MODE: MANUAL LOGIN REQUIRED"] ;;
  console_log [JsString banner] ;;
  console_log [JsString "1. Browser will open automatically"] ;;
  console_log [JsString "2. Please LOG IN manually to the portal"] ;;
  console_log [JsString "3. Wait for 10 seconds after successful login"] ;;
  console_log [JsString "4. Cookies will be saved automatically"] ;;
  console_log [JsString (banner ++ nl)] ;;
  page <- ext E (BrowserNewPage browser) ;;
  awaiting page (ext E (PageSetViewport page 1920 1080)) ;;
  tryFinally
    (console_log [JsString "[Setup] Opening portal..."] ;;
     awaiting page (ext E (PageGoto page CONFIG_portal_url CONFIG_timeouts_navigation)) ;;
     console_log [JsString "[Setup] Portal loaded"] ;;
     console_log [JsString "[Setup] Please log in manually now..."] ;;
     console_log [JsString "[Setup] Waiting for 60 seconds for you to complete login..."] ;;
     awaiting page (sleep E 60000) ;;
     isLoggedIn <- awaiting page (evaluate E page loginDetectedScript) ;;
     (if negb isLoggedIn then throw (newError msgLoginNotDetected) else ret tt) ;;
     console_log [JsString "[Setup] ✅ Login detected!"] ;;
     saveCookies page ;;
     console_log [JsString (nl ++ banner)] ;;
     console_log [JsString "✅ SETUP COMPLETE!"] ;;
     console_log [JsString "Cookies saved successfully"] ;;
     console_log [JsString "You can now run in AUTO mode"] ;;
     console_log [JsString (banner ++ nl)])
    (awaiting page (ext E (PageClose page))).

(** Step 1 of [captureTokenWithCookies] (index.js 316-322). *)
Definition stepLoadCookies (page : Page) : M W unit :=
  console_log [JsString "[Session] Loading saved cookies..."] ;;
  cookiesLoaded <- loadCookies page ;;
  if negb cookiesLoaded then throw (newError msgLoadFailed) else ret tt.

(** Step 2 (index.js 324-332). *)
Definition stepNavigate (page : Page) : M W unit :=
  console_log [JsString "[Portal] Navigating to:"; JsString CONFIG_portal_url] ;;
  awaiting page (ext E (PageGoto page CONFIG_portal_url CONFIG_timeouts_navigation)) ;;
  current <- currentUrl E page ;;
  console_log [JsString "[Portal] Page loaded, current URL:"; JsString current] ;;
  awaiting page (sleep E 3000).

(** Step 3 (index.js 334-366). *)
Definition stepVerify (page : Page) : M W unit :=
  isLoggedIn <- verifyCookiesValid page ;;
  if negb isLoggedIn then
    console_warn [JsString "[Session] Cookies appear invalid, attempting logout-login cycle..."] ;;
    logoutClicked <- awaiting page (evaluate E page (clickFirst logoutSelectors)) ;;
    if logoutClicked then
      console_log [JsString "[Session] Logout triggered, waiting..."] ;;
      awaiting page (sleep E 5000) ;;
      throw (newError msgSessionExpired)
    else ret tt
  else ret tt.

(** Step 4 (index.js 368-422). *)
Definition stepLogoutLogin (page : Page) : M W unit :=
  console_log [JsString "[Auth] Performing logout-login cycle to refresh token..."] ;;
  logoutSuccess <- awaiting page (evaluate E page (clickFirst logoutSelectors)) ;;
  if logoutSuccess then
    console_log [JsString "[Auth] Logout clicked, waiting for page..."] ;;
    awaiting page (sleep E 5000) ;;
    console_log [JsString "[Auth] Triggering auto-fill..."] ;;
    tryCatch
      (awaiting page (ext E (PageWaitForSelector page emailSelectors 10000)) ;;
       awaiting page (ext E (PageClick page emailSelectors)) ;;
       awaiting page (sleep E 1000) ;;
       console_log [JsString "[Auth] Credentials should be auto-filled by browser"] ;;
       awaiting page
         (promiseAll2 E (PageClick page submitSelectors)
                        (PageWaitForNavigation page CONFIG_timeouts_navigation)) ;;
       console_log [JsString "[Auth] ✅ Login submitted"])
      (fun error =>
         console_error [JsString "[Auth] Auto-fill login failed:"; JsString (message error)] ;;
         throw (newError msgAutoFillFailed))
  else ret tt.

(** Step 5 (index.js 424-434). *)
Definition stepAwaitToken (page : Page) : M W unit :=
  console_log [JsString "[Network] Waiting for token..."] ;;
  pollToken E onResponse page 30 ;;
  token <- getCapturedToken ;;
  if negb (truthy token) then throw (newError msgTokenNotCaptured) else ret tt.

(** Step 6 and the return (index.js 436-443). *)
Definition stepPersistAndReturn (page : Page) : M W JsValue :=
  console_log [JsString "[Session] Updating saved cookies..."] ;;
  saveCookies page ;;
  token <- getCapturedToken ;;
  liftResult (validateToken token) ;;
  ret token.

(** [captureTokenWithCookies] (index.js 280-448). *)
Definition captureTokenWithCookies (browser : Browser) : M W JsValue :=
  page <- ext E (BrowserNewPage browser) ;;
  ext E (PageSetViewport page 1920 1080) ;;
  ext E (PageSetUserAgent page userAgent) ;;
  setCapturedToken JsNull ;;
  console_log [JsString "[Network] Setting up response listener..."] ;;
  pageOnResponse page ;;
  tryFinally
    (stepLoadCookies page ;;
     stepNavigate page ;;
     stepVerify page ;;
     stepLogoutLogin page ;;
     stepAwaitToken page ;;
     stepPersistAndReturn page)
    (awaiting page (ext E (PageClose page))).

(** The unattended branch of [main] (index.js 511-543). *)
Definition autoMode (browser : Browser) (startTime : Z) : M W unit :=
  (if negb (truthy (envValue (GOOGLE_SERVICE_ACCOUNT env))) then
     throw (newError "Missing GOOGLE_SERVICE_ACCOUNT environment variable")
   else ret tt) ;;
  (if negb (truthy (envValue (SHEET_ID env))) then
     throw (newError "Missing SHEET_ID environment variable")
   else ret tt) ;;
  token <- retryOperation E CONFIG_retry (captureTokenWithCookies browser) "Token Capture" ;;
  console_log [JsString (nl ++ "[Success] Token harvested successfully!")] ;;
  console_log [JsString "[Success] Token length:";
               jsNat (String.length (stringOf token)); JsString "characters"] ;;
  retryOperation E CONFIG_retry (updateSheet E env token) "Sheet Update" ;;
  endTime <- dateNow E ;;
  console_log [JsString (nl ++ banner)] ;;
  console_log [JsString "✅ EXECUTION COMPLETED SUCCESSFULLY"] ;;
  console_log [JsString "Duration:"; JsNumber (Qmake (endTime - startTime) 1000);
               JsString "seconds"] ;;
  console_log [JsString banner].

(** The [try] block of [main] up to its [process.exit(0)]
    (index.js 502-543). *)
Definition mainBody (startTime : Z) : M W unit :=
  browser <- retryOperation E CONFIG_retry initBrowser "Browser Init" ;;
  setBrowserVar browser ;;
  if setupMode then setupCookies browser else autoMode browser startTime.

(** The [catch] block of [main] up to its [process.exit(1)]
    (index.js 547-557). *)
Definition reportFailure (error : JsError) : M W unit :=
  console_error [JsString (nl ++ banner)] ;;
  console_error [JsString "❌ EXECUTION FAILED"] ;;
  console_error [JsString "Error:"; JsString (message error)] ;;
  console_error [JsString "Stack:"; JsString (stackOf error)] ;;
  console_error [JsString banner] ;;
  if includes "cookies" (message error) || includes "Session expired" (message error) then
    console_error [JsString msgSolution] ;;
    console_error [JsString "Set environment variable: SETUP_MODE=true"]
  else ret tt.

(** The [finally] block of [main] (index.js 561-567). *)
Definition cleanup : M W unit :=
  browser <- getBrowserVar ;;
  match browser with
  | Some b =>
      console_log [JsString (nl ++ "[Cleanup] Closing browser...")] ;;
      ext E (BrowserClose b) ;;
      console_log [JsString "[Cleanup] Browser closed"]
  | None => ret tt
  end.

(** [main] (index.js 492-568). *)
Definition main : M W unit :=
  startTime <- dateNow E ;;
  console_log [JsString banner] ;;
  console_log [JsString "TALABAT TOKEN HARVESTER"] ;;
  console_log [JsString "Mode:";
               JsString (if setupMode then "SETUP (Manual Login)" else "AUTO (Cookie-based)")] ;;
  timestamp <- dateIso E ;;
  console_log [JsString "Timestamp:"; JsString timestamp] ;;
  console_log [JsString (banner ++ nl)] ;;
  tryFinally
    (tryCatch
       (mainBody startTime ;; process_exit 0)
       (fun error => reportFailure error ;; process_exit 1))
    cleanup.

End Program.

End CookieSession.

(* ===================================================================== *)
(** ** The credential-based harvester ([src/unnamed/part_000]) *)
(* ===================================================================== *)

Module CredentialLogin.

Definition msgTokenNotCaptured : string :=
  "Token was not captured from network traffic".

(** The selectors tried by the logout script (part_000 190-199). *)
Definition logoutStrategies : list Selector :=
  [SelLogoutTestId; SelLogoutClass; SelLogoutAria; SelLogoutHref;
   SelLogoutTextButton; SelLogOutTextButton; SelLogoutTextLink; SelLogOutTextLink].

(** The in-page function of step 3 (part_000 175-180). *)
Definition isLoggedInScript (d : Dom) : InPage bool :=
  match querySelector d logoutSelectors with
  | Err e => Raised e
  | Ok hasLogoutButton =>
      match querySelector d userMenuSelectors with
      | Err e => Raised e
      | Ok hasUserMenu => Done (hasLogoutButton || hasUserMenu)
      end
  end.

Section Program.

Context {W : Type} (E : Engine W).
Variable env : Env.

(** The ['response'] listener (part_000 133-159); the warning prints
    [JSON.stringify(data)], here the value itself. *)
Definition onResponse (response : Response) : M W unit :=
  if includes "/v5/token" (url response) then
    console_log [JsString "[Network] Token endpoint detected!"] ;;
    console_log [JsString "[Network] URL:"; JsString (url response)] ;;
    console_log [JsString "[Network] Status:"; jsZ (status response)] ;;
    tryCatch
      (match contentType response with
       | Some ct =>
           if truthy (JsString ct) && includes "application/json" ct then
             data <- liftResult (json response) ;;
             access_token <- liftResult (getProp data "access_token") ;;
             if truthy access_token then
               setCapturedToken access_token ;;
               console_log [JsString "[Network] ✅ Token captured successfully"] ;;
               preview <- liftResult (substring50 access_token) ;;
               console_log [JsString "[Network] Token preview:";
                            JsString (preview ++ "...")]
             else
               console_warn [JsString "[Network] Response does not contain access_token:";
                             data]
           else ret tt
       | None => ret tt
       end)
      (fun error =>
         console_error [JsString "[Network] Failed to parse token response:";
                        JsString (message error)])
  else ret tt.

Local Abbreviation awaiting := (awaitOn E onResponse).

(** [initBrowser] (part_000 96-117). *)
Definition initBrowser : M W Browser :=
  console_log [JsString "[Browser] Launching Puppeteer..."] ;;
  browser <- ext E (PuppeteerLaunch true) ;;
  console_log [JsString "[Browser] Launched successfully"] ;;
  ret browser.

(** Steps 1 and 2 of [captureToken] (part_000 162-172). *)
Definition stepNavigate (page : Page) : M W unit :=
  console_log [JsString "[Portal] Navigating to:"; JsString CONFIG_portal_url] ;;
  awaiting page (ext E (PageGoto page CONFIG_portal_url CONFIG_timeouts_navigation)) ;;
  current <- currentUrl E page ;;
  console_log [JsString "[Portal] Page loaded, current URL:"; JsString current] ;;
  awaiting page (sleep E 3000).

(** Steps 3 and 4 (part_000 174-217). *)
Definition stepLogout (page : Page) : M W unit :=
  isLoggedIn <- awaiting page (evaluate E page isLoggedInScript) ;;
  console_log [JsString "[Portal] Already logged in:"; JsBool isLoggedIn] ;;
  if isLoggedIn then
    console_log [JsString "[Auth] Attempting logout..."] ;;
    logoutSuccess <- awaiting page (evaluate E page (clickFirst logoutStrategies)) ;;
    if logoutSuccess then
      console_log [JsString "[Auth] Logout clicked, waiting for redirect..."] ;;
      awaiting page (sleep E 3000)
    else
      console_warn [JsString "[Auth] Logout button not found, proceeding with login attempt"]
  else ret tt.

(** Step 5 (part_000 219-243). *)
Definition stepLogin (page : Page) : M W unit :=
  console_log [JsString "[Auth] Attempting login..."] ;;
  awaiting page (ext E (PageWaitForSelector page emailSelectors 30000)) ;;
  console_log [JsString "[Auth] Login form detected"] ;;
  awaiting page (ext E (PageType page emailSelectors
                                 (stringOf (envValue (PORTAL_EMAIL env))) 100)) ;;
  console_log [JsString "[Auth] Email entered"] ;;
  awaiting page (ext E (PageType page passwordSelectors
                                 (stringOf (envValue (PORTAL_PASSWORD env))) 100)) ;;
  console_log [JsString "[Auth] Password entered"] ;;
  awaiting page
    (promiseAll2 E (PageClick page submitSelectors)
                   (PageWaitForNavigation page CONFIG_timeouts_navigation)) ;;
  console_log [JsString "[Auth] ✅ Login successful"] ;;
  current <- currentUrl E page ;;
  console_log [JsString "[Auth] Current URL:"; JsString current].

(** Step 6 (part_000 245-256). *)
Definition stepAwaitToken (page : Page) : M W unit :=
  console_log [JsString "[Network] Waiting for token to be captured..."] ;;
  pollToken E onResponse page 20 ;;
  token <- getCapturedToken ;;
  if negb (truthy token) then throw (newError msgTokenNotCaptured) else ret tt.

(** Validation and the return (part_000 258-261). *)
Definition stepValidateAndReturn : M W JsValue :=
  token <- getCapturedToken ;;
  liftResult (validateToken token) ;;
  ret token.

(** [captureToken] (part_000 122-266). *)
Definition captureToken (browser : Browser) : M W JsValue :=
  page <- ext E (BrowserNewPage browser) ;;
  ext E (PageSetViewport page 1920 1080) ;;
  ext E (PageSetUserAgent page userAgent) ;;
  setCapturedToken JsNull ;;
  console_log [JsString "[Network] Setting up response listener..."] ;;
  pageOnResponse page ;;
  tryFinally
    (stepNavigate page ;;
     stepLogout page ;;
     stepLogin page ;;
     stepAwaitToken page ;;
     stepValidateAndReturn)
    (awaiting page (ext E (PageClose page))).

(** The [try] block of [main] up to its [process.exit(0)]
    (part_000 325-366). *)
Definition mainBody (startTime : Z) : M W unit :=
  (if negb (truthy (envValue (PORTAL_EMAIL env)))
      || negb (truthy (envValue (PORTAL_PASSWORD env))) then
     throw (newError "Missing PORTAL_EMAIL or PORTAL_PASSWORD environment variables")
   else ret tt) ;;
  (if negb (truthy (envValue (GOOGLE_SERVICE_ACCOUNT env))) then
     throw (newError "Missing GOOGLE_SERVICE_ACCOUNT environment variable")
   else ret tt) ;;
  (if negb (truthy (envValue (SHEET_ID env))) then
     throw (newError "Missing SHEET_ID environment variable")
   else ret tt) ;;
  browser <- retryOperation E CONFIG_retry initBrowser "Browser Init" ;;
  setBrowserVar browser ;;
  token <- retryOperation E CONFIG_retry (captureToken browser) "Token Capture" ;;
  console_log [JsString (nl ++ "[Success] Token harvested successfully!")] ;;
  console_log [JsString "[Success] Token length:";
               jsNat (String.length (stringOf token)); JsString "characters"] ;;
  retryOperation E CONFIG_retry (updateSheet E env token) "Sheet Update" ;;
  endTime <- dateNow E ;;
  console_log [JsString (nl ++ banner)] ;;
  console_log [JsString "✅ EXECUTION COMPLETED SUCCESSFULLY"] ;;
  console_log [JsString "Duration:"; JsNumber (Qmake (endTime - startTime) 1000);
               JsString "seconds"] ;;
  console_log [JsString banner].

(** The [catch] block of [main] up to its [process.exit(1)]
    (part_000 370-375). *)
Definition reportFailure (error : JsError) : M W unit :=
  console_error [JsString (nl ++ banner)] ;;
  console_error [JsString "❌ EXECUTION FAILED"] ;;
  console_error [JsString "Error:"; JsString (message error)] ;;
  console_error [JsString "Stack:"; JsString (stackOf error)] ;;
  console_error [JsString banner].

(** The [finally] block of [main] (part_000 379-385). *)
Definition cleanup : M W unit :=
  browser <- getBrowserVar ;;
  match browser with
  | Some b =>
      console_log [JsString (nl ++ "[Cleanup] Closing browser...")] ;;
      ext E (BrowserClose b) ;;
      console_log [JsString "[Cleanup] Browser closed"]
  | None => ret tt
  end.

(** [main] (part_000 316-386). *)
Definition main : M W unit :=
  startTime <- dateNow E ;;
  console_log [JsString banner] ;;
  console_log [JsString "TALABAT TOKEN HARVESTER - STARTING"] ;;
  timestamp <- dateIso E ;;
  console_log [JsString "Timestamp:"; JsString timestamp] ;;
  console_log [JsString (banner ++ nl)] ;;
  tryFinally
    (tryCatch
       (mainBody startTime ;; process_exit 0)
       (fun error => reportFailure error ;; process_exit 1))
    cleanup.

End Program.

End CredentialLogin.

(* ===================================================================== *)
(** ** A simulated portal, for concrete runs *)
(* ===================================================================== *)

Module Sim.

(** The world of the simulation: the session file, the clock, the
    document, the cookies in the browsing context, the responses whose
    callbacks completed, those the portal sends when a login is submitted,
    whether the disk refuses writes, and the number of pages opened. *)
Record World : Type := mkWorld {
  file : option CookieJson;
  nowMs : Z;
  dom : Dom;
  jar : list Cookie;
  inbox : list Response;
  onLogin : list Response;
  diskFull : bool;
  pages : nat
}.

(** The portal's document when a user is logged in, and its login form. *)
Definition loggedInDom : Dom := fun sel =>
  match sel with
  | SelLogoutClass | SelUserMenuClass => true
  | _ => false
  end.

Definition loginFormDom : Dom := fun sel =>
  match sel with
  | SelEmailType | SelPasswordType | SelSubmitType => true
  | _ => false
  end.

Definition withDom (d : Dom) (w : World) : World :=
  mkWorld (file w) (nowMs w) d (jar w) (inbox w) (onLogin w) (diskFull w) (pages w).

Definition perform (A : Type) (op : Op A) (w : World) : Result A * World :=
  match op in Op T return Result T * World with
  | PuppeteerLaunch _ => (Ok 1, w)
  | BrowserNewPage _ =>
      (Ok (S (pages w)),
       mkWorld (file w) (nowMs w) (dom w) (jar w) (inbox w) (onLogin w) (diskFull w)
               (S (pages w)))
  | BrowserClose _ => (Ok tt, w)
  | PageSetViewport _ _ _ => (Ok tt, w)
  | PageSetUserAgent _ _ => (Ok tt, w)
  | PageGoto _ _ _ => (Ok tt, w)
  | PageEvaluate _ => (Ok (dom w), w)
  | ElementClick _ _ => (Ok tt, withDom loginFormDom w)
  | PageWaitForSelector _ group _ =>
      (if existsb (dom w) group then Ok tt
       else Err (newError "Waiting for selector failed: timeout exceeded"), w)
  | PageClick _ _ => (Ok tt, w)
  | PageType _ _ _ _ => (Ok tt, w)
  | PageWaitForNavigation _ _ =>
      (Ok tt,
       mkWorld (file w) (nowMs w) loggedInDom (jar w) (inbox w ++ onLogin w) []
               (diskFull w) (pages w))
  | PageCookies _ => (Ok (jar w), w)
  | PageSetCookie _ cookies =>
      (Ok tt,
       mkWorld (file w) (nowMs w) (dom w) (cookies ++ jar w) (inbox w) (onLogin w)
               (diskFull w) (pages w))
  | PageClose _ => (Ok tt, w)
  | FsAccess _ =>
      (match file w with
       | Some _ => Ok tt
       | None => Err (newError "ENOENT: no such file or directory")
       end, w)
  | FsReadCookies _ =>
      (match file w with
       | Some content => Ok content
       | None => Err (newError "ENOENT: no such file or directory")
       end, w)
  | FsWriteCookies _ cookies =>
      if diskFull w then (Err (newError "ENOSPC: no space left on device"), w)
      else (Ok tt,
            mkWorld (Some (CJArray cookies)) (nowMs w) (dom w) (jar w) (inbox w)
                    (onLogin w) (diskFull w) (pages w))
  | GoogleAuth _ => (Ok 1, w)
  | SheetsUpdate _ _ _ _ => (Ok (JsObject [("updatedCells", jsNat 2)]), w)
  end.

Definition elapse (ms : Z) (w : World) : World :=
  mkWorld (file w) (nowMs w + ms) (dom w) (jar w) (inbox w) (onLogin w) (diskFull w)
          (pages w).

Definition responses (p : Page) (w : World) : list Response * World :=
  (inbox w,
   mkWorld (file w) (nowMs w) (dom w) (jar w) [] (onLogin w) (diskFull w) (pages w)).

Definition engine : Engine World :=
  mkEngine World perform elapse responses nowMs
           (fun ms => (showZ ms ++ " ms since the epoch")%string)
           (fun _ _ => CONFIG_portal_url).

(** A response of the token endpoint that carries [token]. *)
Definition tokenResponse (token : string) : Response :=
  mkResponse "https://portal.talabat.com/v5/token" 200
             (Some "application/json; charset=utf-8")
             (Ok (JsObject [("access_token", JsString token); ("expires_in", jsNat 3600)])).

Definition sessionCookie (expiry : option Q) : Cookie :=
  mkCookie "sid" "4f2a9c" "portal.talabat.com" expiry.

(** A machine at 2023-11-14T22:13:20Z whose session file holds [cookies],
    showing the logged-in portal, and whose portal answers a login with
    [answers]. *)
Definition machine (stored : option CookieJson) (answers : list Response)
           (full : bool) : HState World :=
  mkHState (mkWorld stored 1700000000000 loggedInDom [] [] answers full 0)
           JsNull None None.

(** The environment of an unattended run. *)
Definition autoEnv : Env :=
  mkEnv None (Some "sheet-1") (Some "{}") None None.

(** The environment of a credential-mode run. *)
Definition credentialEnv : Env :=
  mkEnv None (Some "sheet-1") (Some "{}") (Some "ops@example.com") (Some "hunter2").

(** An engine over a world without state, where the session file never
    exists and every other call succeeds. *)
Definition barePerform (A : Type) (op : Op A) (w : unit) : Result A * unit :=
  match op in Op T return Result T * unit with
  | PuppeteerLaunch _ => (Ok 1, w)
  | BrowserNewPage _ => (Ok 1, w)
  | BrowserClose _ => (Ok tt, w)
  | PageSetViewport _ _ _ => (Ok tt, w)
  | PageSetUserAgent _ _ => (Ok tt, w)
  | PageGoto _ _ _ => (Ok tt, w)
  | PageEvaluate _ => (Ok loginFormDom, w)
  | ElementClick _ _ => (Ok tt, w)
  | PageWaitForSelector _ _ _ => (Ok tt, w)
  | PageClick _ _ => (Ok tt, w)
  | PageType _ _ _ _ => (Ok tt, w)
  | PageWaitForNavigation _ _ => (Ok tt, w)
  | PageCookies _ => (Ok [], w)
  | PageSetCookie _ _ => (Ok tt, w)
  | PageClose _ => (Ok tt, w)
  | FsAccess _ => (Err (newError "ENOENT: no such file or directory"), w)
  | FsReadCookies _ => (Err (newError "ENOENT: no such file or directory"), w)
  | FsWriteCookies _ _ => (Ok tt, w)
  | GoogleAuth _ => (Ok 1, w)
  | SheetsUpdate _ _ _ _ => (Ok JsNull, w)
  end.

Definition bare : Engine unit :=
  mkEngine unit barePerform (fun _ w => w) (fun _ w => ([], w)) (fun _ => 0%Z)
           (fun _ => "1970-01-01T00:00:00.000Z") (fun _ _ => CONFIG_portal_url).

(** An operation that fails on every invocation, and the state of a
    process that has not started anything yet. *)
Definition portalDown : M unit unit := throw (newError "portal down").

Definition idle : HState unit := mkHState tt JsNull None None.

End Sim.

(* ===================================================================== *)
(** ** Specification vocabulary *)
(* ===================================================================== *)

(** The access token a response offers to the listener, if any: its URL
    contains the endpoint fragment, its content type announces JSON, its
    body parses, and the body's [access_token] is truthy. *)
Definition offeredToken (r : Response) : option JsValue :=
  if includes "/v5/token" (url r) then
    match contentType r with
    | Some ct =>
        if truthy (JsString ct) && includes "application/json" ct then
          match json r with
          | Ok data =>
              match getProp data "access_token" with
              | Ok v => if truthy v then Some v else None
              | Err _ => None
              end
          | Err _ => None
          end
        else None
    | None => None
    end
  else None.

(** The spec's reading of an expired record: [expiresAt] lies in the past
    relative to the load time. *)
Definition expiresInPast (now : Q) (cookie : Cookie) : bool :=
  match expires cookie with
  | Some e => Qltb e now
  | None => false
  end.

(** A record whose [expires] is present and is not zero. *)
Definition expiresNonZero (cookie : Cookie) : bool :=
  match expires cookie with
  | Some e => negb (Qeq_bool e 0)
  | None => false
  end.

(** The rule of the expiry filter, in words: a record is kept when its
    [expires] is absent, is zero, or is not less than the load time. *)
Definition KeepRule (now : Q) (cookie : Cookie) : Prop :=
  expires cookie = None \/
  exists e, expires cookie = Some e /\ (e == 0 \/ ~ e < now)%Q.

(** The value the slot holds after a batch of responses: that of the last
    response that offered one. *)
Fixpoint latestOffer (rs : list Response) (slot : JsValue) : JsValue :=
  match rs with
  | [] => slot
  | r :: rest =>
      latestOffer rest (match offeredToken r with Some v => v | None => slot end)
  end.

(** The precedence rule of the verification heuristic: some logged-in
    indicator matches, and no password field is present. *)
Definition loginRule (d : Dom) : bool :=
  (existsb d logoutSelectors || existsb d userMenuSelectors) && negb (d SelPasswordType).

(** Classification of events. *)
Definition isSleepOf (ms : Z) (ev : Event) : bool :=
  match ev with
  | EvSleep d => Z.eqb d ms
  | _ => false
  end.

Definition isSleep (ev : Event) : bool :=
  match ev with
  | EvSleep _ => true
  | _ => false
  end.

Definition isBrowserClose (ev : Event) : bool :=
  match ev with
  | EvExt (BrowserClose _) => true
  | _ => false
  end.

Definition isSetCookie (ev : Event) : bool :=
  match ev with
  | EvExt (PageSetCookie _ _) => true
  | _ => false
  end.

(** Navigation and interaction with the page: [goto], [evaluate], clicks,
    typing, and the waits on selectors and navigations. *)
Definition isNavigation (ev : Event) : bool :=
  match ev with
  | EvExt (PageGoto _ _ _) | EvExt (PageEvaluate _) | EvExt (ElementClick _ _)
  | EvExt (PageWaitForSelector _ _ _) | EvExt (PageClick _ _)
  | EvExt (PageType _ _ _ _) | EvExt (PageWaitForNavigation _ _) => true
  | _ => false
  end.

(** Chatter: console lines and responses handed to the listener. *)
Definition isChatter (ev : Event) : bool :=
  match ev with
  | EvConsole _ _ | EvResponse _ => true
  | _ => false
  end.

(** Session-store events: console lines, responses handed to the
    listener, and the calls that read or write cookies and their file. *)
Definition isStoreEvent (ev : Event) : bool :=
  match ev with
  | EvConsole _ _ | EvResponse _ => true
  | EvExt (PageCookies _) | EvExt (PageSetCookie _ _) => true
  | EvExt (FsAccess _) | EvExt (FsReadCookies _) | EvExt (FsWriteCookies _ _) => true
  | _ => false
  end.

(** Polling sleeps only: every timer in the trace is a 500 ms one. *)
Definition onlyPollSleeps (ev : Event) : bool :=
  match ev with
  | EvSleep d => Z.eqb d 500
  | _ => true
  end.

Definition countEvents (f : Event -> bool) (t : list Event) : nat :=
  List.length (filter f t).

(** The delays of the timers in a trace. *)
Fixpoint timersOf (t : list Event) : list Z :=
  match t with
  | [] => []
  | EvSleep d :: rest => d :: timersOf rest
  | _ :: rest => timersOf rest
  end.

(** The total time a trace spends in timers. *)
Fixpoint sleptMs (t : list Event) : Z :=
  match t with
  | [] => 0
  | EvSleep d :: rest => d + sleptMs rest
  | _ :: rest => sleptMs rest
  end.

(** The error [main] ends up with when every attempt finds the session
    unusable. *)
Definition sessionFailure : JsError :=
  newError (exhaustedMessage CONFIG_retry "Token Capture" CookieSession.msgLoadFailed).

Section Behaviour.

Context {W : Type}.

(** [Returns m]: from every state, [m] ends with a value. *)
Definition Returns {A} (m : M W A) : Prop :=
  forall s, exists a, outcome (m s) = Return a.

(** [NoExit m]: [m] never ends the process. *)
Definition NoExit {A} (m : M W A) : Prop :=
  forall s c, outcome (m s) <> Exit c.

(** [Tame J P m]: [m] never ends the process, emits only events that [P]
    permits, and keeps the property [J] of the [capturedToken] slot. *)
Definition Tame (J : JsValue -> Prop) (P : Event -> bool) {A} (m : M W A) : Prop :=
  forall s, J (capturedToken s) ->
    J (capturedToken (final (m s))) /\
    forallb P (trace (m s)) = true /\
    (forall c, outcome (m s) <> Exit c).

End Behaviour.

(** Assumptions on the collaborators, for the scenarios below. *)

(** Opening, preparing and closing a page always succeed. *)
Definition PageLifecycleSucceeds {W : Type} (E : Engine W) : Prop :=
  (forall w b, exists p w', perform E (BrowserNewPage b) w = (Ok p, w')) /\
  (forall w p width height,
      exists w', perform E (PageSetViewport p width height) w = (Ok tt, w')) /\
  (forall w p agent, exists w', perform E (PageSetUserAgent p agent) w = (Ok tt, w')) /\
  (forall w p, exists w', perform E (PageClose p) w = (Ok tt, w')).

(** The browser always launches. *)
Definition BrowserLaunches {W : Type} (E : Engine W) : Prop :=
  forall w headless, exists b w', perform E (PuppeteerLaunch headless) w = (Ok b, w').

(** An unattended run with its configuration in place. *)
Definition UnattendedEnv (env : Env) : Prop :=
  CookieSession.setupMode env = false /\
  truthy (envValue (GOOGLE_SERVICE_ACCOUNT env)) = true /\
  truthy (envValue (SHEET_ID env)) = true.

Section RetryVocabulary.

Context {W : Type} (E : Engine W).
Variable retry : RetryConfig.

(** The backoff delay after the failed attempt number [attempt]. *)
Definition backoffDelay (attempt : nat) : Z :=
  (delayMs retry * 2 ^ Z.of_nat (attempt - 1))%Z.

Definition attemptLine (context : string) (attempt : nat) : Event :=
  EvConsole LevelLog [JsString ("[" ++ context ++ "] Attempt " ++ showNat attempt
                                ++ "/" ++ showNat (maxAttempts retry))].

Definition failureLine (context : string) (attempt : nat) (e : JsError) : Event :=
  EvConsole LevelError [JsString ("[" ++ context ++ "] Attempt " ++ showNat attempt
                                  ++ " failed:");
                        JsString (message e)].

Definition retryLine (context : string) (attempt : nat) : Event :=
  EvConsole LevelLog [JsString ("[" ++ context ++ "] Retrying in "
                                ++ showZ (backoffDelay attempt) ++ "ms...")].

(** The state after a timer of [ms] milliseconds. *)
Definition slept (ms : Z) (s : HState W) : HState W :=
  setWorld (elapse E ms (world s)) s.

(** [FailedAttempts op k s fails s']: from state [s], the operation is
    invoked [length fails] times in a row, as attempts [k], [k+1], ...;
    each invocation throws the listed error and leaves the listed trace,
    and each is followed by its backoff timer; [s'] is the state after the
    last timer. *)
Inductive FailedAttempts {A} (operation : M W A) :
  nat -> HState W -> list (JsError * list Event) -> HState W -> Prop :=
| FailedNone : forall k s, FailedAttempts operation k s [] s
| FailedNext : forall k s e rest s',
    outcome (operation s) = Throw e ->
    FailedAttempts operation (S k) (slept (backoffDelay k) (final (operation s))) rest s' ->
    FailedAttempts operation k s ((e, trace (operation s)) :: rest) s'.

(** What the executor prints and waits for around such failed attempts:
    per attempt, its progress line, the operation's own events, the
    failure line, the retry line and the backoff timer. *)
Fixpoint failedTrace (context : string) (k : nat)
         (fails : list (JsError * list Event)) : list Event :=
  match fails with
  | [] => []
  | (e, t) :: rest =>
      attemptLine context k :: t
        ++ [failureLine context k e; retryLine context k; EvSleep (backoffDelay k)]
        ++ failedTrace context (S k) rest
  end.

(** The timers the executor itself sets around [n] failed attempts
    numbered from [k]. *)
Fixpoint backoffDelays (k n : nat) : list Z :=
  match n with
  | O => []
  | S n' => backoffDelay k :: backoffDelays (S k) n'
  end.

End RetryVocabulary.

(* --------------------------------------------------------------------- *)
(** *** The attempts of a run on an unusable session *)

(** The opening of a page. *)
Definition isNewPage (ev : Event) : bool :=
  match ev with
  | EvExt (BrowserNewPage _) => true
  | _ => false
  end.

(** The part of an attempt of the cookie script that precedes its [try]
    (index.js 281-313): the page is opened and prepared, the slot is
    cleared and the listener installed. *)
Definition openPage {W : Type} (E : Engine W) (browser : Browser) : M W Page :=
  page <- ext E (BrowserNewPage browser) ;;
  ext E (PageSetViewport page 1920 1080) ;;
  ext E (PageSetUserAgent page userAgent) ;;
  setCapturedToken JsNull ;;
  console_log [JsString "[Network] Setting up response listener..."] ;;
  pageOnResponse page ;;
  ret page.

(** What an attempt has done once its page stands ready. *)
Definition openingEvents (browser : Browser) (page : Page) : list Event :=
  [EvExt (BrowserNewPage browser); EvExt (PageSetViewport page 1920 1080);
   EvExt (PageSetUserAgent page userAgent);
   EvConsole LevelLog [JsString "[Network] Setting up response listener..."]].

(** [LoadFails E browser s]: in the attempt that starts in state [s], the
    page opens, [SessionStore.load], called in the state the opening
    leaves, returns [false], and the page then closes. *)
Definition LoadFails {W : Type} (E : Engine W) (browser : Browser) (s : HState W) : Prop :=
  exists page,
    outcome (openPage E browser s) = Return page /\
    let loaded := CookieSession.loadCookies E page (final (openPage E browser s)) in
    outcome loaded = Return false /\
    outcome (awaitOn E CookieSession.onResponse page (ext E (PageClose page))
                     (final loaded)) = Return tt.

(** The state in which the Retry Executor starts the next attempt, after
    attempt number [k] was started in state [s] and failed: the attempt
    has run and its backoff timer has elapsed. *)
Definition afterFailedAttempt {W : Type} (E : Engine W) (browser : Browser) (k : nat)
           (s : HState W) : HState W :=
  slept E (backoffDelay CONFIG_retry k)
        (final (CookieSession.captureTokenWithCookies E browser s)).

(** [LoadFailsThrice E browser s]: [load] fails in each of the three
    attempts that the Retry Executor makes from state [s]. *)
Definition LoadFailsThrice {W : Type} (E : Engine W) (browser : Browser)
           (s : HState W) : Prop :=
  let second := afterFailedAttempt E browser 1 s in
  let third := afterFailedAttempt E browser 2 second in
  LoadFails E browser s /\ LoadFails E browser second /\ LoadFails E browser third.

(* --------------------------------------------------------------------- *)
(** *** More classes of events *)

(** Console output only. *)
Definition isConsole (ev : Event) : bool :=
  match ev with
  | EvConsole _ _ => true
  | _ => false
  end.

(** A launch of the browser. *)
Definition isLaunch (ev : Event) : bool :=
  match ev with
  | EvExt (PuppeteerLaunch _) => true
  | _ => false
  end.

(** What a run may do before it has a page: print, wait, and launch the
    browser. *)
Definition beforeAnyPage (ev : Event) : bool :=
  isConsole ev || isSleep ev || isLaunch ev.

(** A call of [page.close()]. *)
Definition isPageClose (ev : Event) : bool :=
  match ev with
  | EvExt (PageClose _) => true
  | _ => false
  end.

(** The calls that frame an attempt or follow it: launching and closing
    the browser, opening, preparing and closing a page, and the calls to
    the spreadsheet service. *)
Definition isLifecycle (ev : Event) : bool :=
  match ev with
  | EvExt (PuppeteerLaunch _) | EvExt (BrowserNewPage _) | EvExt (BrowserClose _)
  | EvExt (PageSetViewport _ _ _) | EvExt (PageSetUserAgent _ _) | EvExt (PageClose _)
  | EvExt (GoogleAuth _) | EvExt (SheetsUpdate _ _ _ _) => true
  | _ => false
  end.

(** A write of the session file. *)
Definition isSessionWrite (ev : Event) : bool :=
  match ev with
  | EvExt (FsWriteCookies _ _) => true
  | _ => false
  end.

(** A call of [page.cookies()]. *)
Definition isCookieRead (ev : Event) : bool :=
  match ev with
  | EvExt (PageCookies _) => true
  | _ => false
  end.

(** A call of [page.type(...)]. *)
Definition isTyping (ev : Event) : bool :=
  match ev with
  | EvExt (PageType _ _ _ _) => true
  | _ => false
  end.

(** An update of the spreadsheet. *)
Definition isSheetsUpdate (ev : Event) : bool :=
  match ev with
  | EvExt (SheetsUpdate _ _ _ _) => true
  | _ => false
  end.

(** A call to the spreadsheet service or to its authentication. *)
Definition isGoogleCall (ev : Event) : bool :=
  match ev with
  | EvExt (GoogleAuth _) | EvExt (SheetsUpdate _ _ _ _) => true
  | _ => false
  end.

(** What only an unattended run does: launching a headless browser,
    reading the session file and installing its cookies, driving the page
    (clicks, typing, waits on selectors and navigations, a user agent of
    its own), and calling the spreadsheet service. *)
Definition isUnattendedOnly (ev : Event) : bool :=
  match ev with
  | EvExt (PuppeteerLaunch headless) => headless
  | EvExt (FsAccess _) | EvExt (FsReadCookies _) | EvExt (PageSetCookie _ _)
  | EvExt (PageSetUserAgent _ _) | EvExt (ElementClick _ _)
  | EvExt (PageWaitForSelector _ _ _) | EvExt (PageClick _ _) | EvExt (PageType _ _ _ _)
  | EvExt (PageWaitForNavigation _ _)
  | EvExt (GoogleAuth _) | EvExt (SheetsUpdate _ _ _ _) => true
  | _ => false
  end.

(** The warning of the branch taken when no logout control was clicked
    (part_000 215). *)
Definition isLogoutFallbackWarning (ev : Event) : bool :=
  match ev with
  | EvConsole LevelWarn [JsString line] =>
      String.eqb line "[Auth] Logout button not found, proceeding with login attempt"
  | _ => false
  end.

(** The error line of [saveCookies] (index.js 109), whatever the message. *)
Definition isSaveFailure (ev : Event) : bool :=
  match ev with
  | EvConsole LevelError (JsString line :: _) => String.eqb line "[Cookies] Failed to save:"
  | _ => false
  end.

(** The first line of the advice printed by the [catch] block of [main]
    (index.js 555), as a test on events. *)
Definition isAdvice (ev : Event) : bool :=
  match ev with
  | EvConsole LevelError [JsString line] => String.eqb line CookieSession.msgSolution
  | _ => false
  end.

(* --------------------------------------------------------------------- *)
(** *** Console lines and calls the properties name *)

(** The console line of the expiry filter for a record it drops. *)
Definition skipLine (cookie : Cookie) : Event :=
  EvConsole LevelLog [JsString ("[Cookies] Skipping expired cookie: " ++ name cookie)].

(** The line the listener prints once it has stored a token
    (index.js 305, part_000 149). *)
Definition capturedLine : Event :=
  EvConsole LevelLog [JsString "[Network] ✅ Token captured successfully"].

(** The line the listener prints when the preview of a token that is not
    a string fails (index.js 310, part_000 156). *)
Definition previewFailureLine : Event :=
  EvConsole LevelError [JsString "[Network] Failed to parse token response:";
                        JsString "capturedToken.substring is not a function"].

(** The line that closes the setup flow (index.js 268). *)
Definition savedLine : Event :=
  EvConsole LevelLog [JsString "Cookies saved successfully"].

(** The first line of the advice printed by the [catch] block of
    [main] (index.js 555). *)
Definition adviceLine : Event :=
  EvConsole LevelError [JsString CookieSession.msgSolution].

(** The two calls of [page.type] of the credential script
    (part_000 230 and 233). *)
Definition typeEmail (env : Env) (page : Page) : Event :=
  EvExt (PageType page emailSelectors (stringOf (envValue (PORTAL_EMAIL env))) 100).

Definition typePassword (env : Env) (page : Page) : Event :=
  EvExt (PageType page passwordSelectors (stringOf (envValue (PORTAL_PASSWORD env))) 100).

(** The verdict of the in-page check of the setup flow. *)
Definition loginDetected (d : Dom) : bool :=
  existsb d logoutSelectors || existsb d userMenuSelectors.

(* --------------------------------------------------------------------- *)
(** *** More assumptions on the collaborators *)

(** Navigation to the portal always succeeds. *)
Definition PortalLoads {W : Type} (E : Engine W) : Prop :=
  forall w p target timeout,
    exists w', perform E (PageGoto p target timeout) w = (Ok tt, w').

(** The document always gives the setup check the same verdict. *)
Definition PortalShows {W : Type} (E : Engine W) (verdict : bool) : Prop :=
  forall w p, exists d w',
    perform E (PageEvaluate p) w = (Ok d, w') /\ loginDetected d = verdict.

(** The portal shows its plain login form: no logout control, no user
    menu. *)
Definition PortalShowsLoginForm {W : Type} (E : Engine W) : Prop :=
  forall w p, exists d w',
    perform E (PageEvaluate p) w = (Ok d, w') /\
    existsb d logoutSelectors = false /\ existsb d userMenuSelectors = false.

(** The portal shows a logout control that the verification does not
    accept as a sign of a live session (a password field is present). *)
Definition PortalShowsStaleLogout {W : Type} (E : Engine W) : Prop :=
  forall w p, exists d w',
    perform E (PageEvaluate p) w = (Ok d, w') /\
    loginRule d = false /\ existsb d logoutSelectors = true.

(** A click made by an in-page script always succeeds. *)
Definition ClicksSucceed {W : Type} (E : Engine W) : Prop :=
  forall w p sel, exists w', perform E (ElementClick p sel) w = (Ok tt, w').

(** The stored session always loads. *)
Definition SessionLoads {W : Type} (E : Engine W) : Prop :=
  forall s page, outcome (CookieSession.loadCookies E page s) = Return true.

(** [saveCookies] fails whenever it is called. *)
Definition SaveFails {W : Type} (E : Engine W) : Prop :=
  forall s page, outcome (CookieSession.saveCookies E page s) = Return false.

(** No response ever offers a token to the listener. *)
Definition NoTokenOffered {W : Type} (E : Engine W) : Prop :=
  forall p w, Forall (fun r => offeredToken r = None) (fst (responses E p w)).

(* --------------------------------------------------------------------- *)
(** *** More simulated machines *)

(** A well-formed token, and a machine of [Sim] with a live session whose
    portal answers a login with that token. *)
Definition goodToken : string := "eyJhbGciOi.eyJzdWIi.c2ln".

Definition liveSession : HState Sim.World :=
  Sim.machine (Some (CJArray [Sim.sessionCookie (Some (1800000000 # 1)%Q)]))
              [Sim.tokenResponse goodToken] false.

(** The environment of a setup run. *)
Definition setupEnv : Env := mkEnv (Some "true") None None None None.

(** A login form next to a logout control left over from the page
    before. *)
Definition staleDom : Dom := fun sel =>
  match sel with
  | SelLogoutClass | SelPasswordType | SelEmailType | SelSubmitType => true
  | _ => false
  end.

(** An engine whose disk refuses every write and whose portal shows a
    logged-in user. *)
Definition readOnlyPerform (A : Type) (op : Op A) (w : unit) : Result A * unit :=
  match op in Op T return Result T * unit with
  | PageEvaluate _ => (Ok Sim.loggedInDom, w)
  | FsWriteCookies _ _ => (Err (newError "EROFS: read-only file system"), w)
  | other => Sim.barePerform _ other w
  end.

Definition readOnly : Engine unit :=
  mkEngine unit readOnlyPerform (fun _ w => w) (fun _ w => ([], w)) (fun _ => 0%Z)
           (fun _ => "1970-01-01T00:00:00.000Z") (fun _ _ => CONFIG_portal_url).

(** An engine whose session file holds one live cookie and whose portal
    nevertheless shows its login form. *)
Definition loggedOutPerform (A : Type) (op : Op A) (w : unit) : Result A * unit :=
  match op in Op T return Result T * unit with
  | FsAccess _ => (Ok tt, w)
  | FsReadCookies _ => (Ok (CJArray [Sim.sessionCookie None]), w)
  | other => Sim.barePerform _ other w
  end.

Definition loggedOut : Engine unit :=
  mkEngine unit loggedOutPerform (fun _ w => w) (fun _ w => ([], w)) (fun _ => 0%Z)
           (fun _ => "1970-01-01T00:00:00.000Z") (fun _ _ => CONFIG_portal_url).

(** An engine whose portal never shows the login form after a logout:
    waiting for the e-mail field times out. *)
Definition stuckPerform (A : Type) (op : Op A) (w : unit) : Result A * unit :=
  match op in Op T return Result T * unit with
  | PageEvaluate _ => (Ok Sim.loggedInDom, w)
  | PageWaitForSelector _ _ _ =>
      (Err (newError "Waiting for selector failed: timeout exceeded"), w)
  | other => Sim.barePerform _ other w
  end.

Definition stuck : Engine unit :=
  mkEngine unit stuckPerform (fun _ w => w) (fun _ w => ([], w)) (fun _ => 0%Z)
           (fun _ => "1970-01-01T00:00:00.000Z") (fun _ _ => CONFIG_portal_url).

(** An engine whose session file holds one live cookie and whose portal
    shows [staleDom]. *)
Definition stalePerform (A : Type) (op : Op A) (w : unit) : Result A * unit :=
  match op in Op T return Result T * unit with
  | FsAccess _ => (Ok tt, w)
  | FsReadCookies _ => (Ok (CJArray [Sim.sessionCookie None]), w)
  | PageEvaluate _ => (Ok staleDom, w)
  | other => Sim.barePerform _ other w
  end.

Definition stale : Engine unit :=
  mkEngine unit stalePerform (fun _ w => w) (fun _ w => ([], w)) (fun _ => 0%Z)
           (fun _ => "1970-01-01T00:00:00.000Z") (fun _ _ => CONFIG_portal_url).

(* --------------------------------------------------------------------- *)
(** *** Time spent in timers *)

Section Cost.

Context {W : Type}.

(** [Costs r t m]: [m] never ends the process; when it returns it has
    spent at most [r] milliseconds in timers, and when it throws at most
    [t]. *)
Definition Costs (r t : Z) {A} (m : M W A) : Prop :=
  forall s,
    (forall a, outcome (m s) = Return a -> (sleptMs (trace (m s)) <= r)%Z) /\
    (forall e, outcome (m s) = Throw e -> (sleptMs (trace (m s)) <= t)%Z) /\
    (forall c, outcome (m s) <> Exit c).

End Cost.


(* ===================================================================== *)
(** ** Laws of the effect monad *)
(* ===================================================================== *)

Section Laws.

Context {W : Type} (E : Engine W).

Lemma after_after {A} t1 t2 (r : Run W A) :
  after t1 (after t2 r) = after (t1 ++ t2) r.
Proof. destruct r. simpl. rewrite app_assoc. reflexivity. Qed.

Lemma after_nil {A} (r : Run W A) : after [] r = r.
Proof. destruct r. reflexivity. Qed.

Lemma outcome_after {A} t (r : Run W A) : outcome (after t r) = outcome r.
Proof. destruct r. reflexivity. Qed.

Lemma final_after {A} t (r : Run W A) : final (after t r) = final r.
Proof. destruct r. reflexivity. Qed.

Lemma trace_after {A} t (r : Run W A) : trace (after t r) = t ++ trace r.
Proof. destruct r. reflexivity. Qed.

Lemma bind_Return {A B} (m : M W A) (k : A -> M W B) s a :
  outcome (m s) = Return a ->
  bind m k s = after (trace (m s)) (k a (final (m s))).
Proof. unfold bind. destruct (m s) as [o s' t]. simpl. intros ->. reflexivity. Qed.

Lemma bind_Throw {A B} (m : M W A) (k : A -> M W B) s e :
  outcome (m s) = Throw e ->
  bind m k s = mkRun (Throw e) (final (m s)) (trace (m s)).
Proof. unfold bind. destruct (m s) as [o s' t]. simpl. intros ->. reflexivity. Qed.

Lemma bind_Exit {A B} (m : M W A) (k : A -> M W B) s c :
  outcome (m s) = Exit c ->
  bind m k s = mkRun (Exit c) (final (m s)) (trace (m s)).
Proof. unfold bind. destruct (m s) as [o s' t]. simpl. intros ->. reflexivity. Qed.

Lemma tryCatch_Return {A} (m : M W A) h s a :
  outcome (m s) = Return a -> tryCatch m h s = m s.
Proof. unfold tryCatch. destruct (m s) as [o s' t]. simpl. intros ->. reflexivity. Qed.

Lemma tryCatch_Throw {A} (m : M W A) h s e :
  outcome (m s) = Throw e ->
  tryCatch m h s = after (trace (m s)) (h e (final (m s))).
Proof. unfold tryCatch. destruct (m s) as [o s' t]. simpl. intros ->. reflexivity. Qed.

Lemma tryCatch_Exit {A} (m : M W A) h s c :
  outcome (m s) = Exit c -> tryCatch m h s = m s.
Proof. unfold tryCatch. destruct (m s) as [o s' t]. simpl. intros ->. reflexivity. Qed.

Lemma tryFinally_Exit {A} (m : M W A) f s c :
  outcome (m s) = Exit c -> tryFinally m f s = m s.
Proof. unfold tryFinally. destruct (m s) as [o s' t]. simpl. intros ->. reflexivity. Qed.

(* --------------------------------------------------------------------- *)
(** *** Computations that always return *)

Lemma Returns_NoExit {A} (m : M W A) : Returns m -> NoExit m.
Proof. intros H s c. destruct (H s) as [a Ha]. rewrite Ha. discriminate. Qed.

Lemma Returns_ret {A} (a : A) : Returns (@ret W A a).
Proof. intros s. exists a. reflexivity. Qed.

Lemma Returns_emit ev : Returns (@emit W ev).
Proof. intros s. exists tt. reflexivity. Qed.

Lemma Returns_bind {A B} (m : M W A) (k : A -> M W B) :
  Returns m -> (forall a, Returns (k a)) -> Returns (bind m k).
Proof.
  intros Hm Hk s. destruct (Hm s) as [a Ha].
  rewrite (bind_Return m k s a Ha), outcome_after. apply Hk.
Qed.

Lemma Returns_tryCatch {A} (m : M W A) h :
  NoExit m -> (forall e, Returns (h e)) -> Returns (tryCatch m h).
Proof.
  intros Hm Hh s. specialize (Hm s). unfold tryCatch.
  destruct (m s) as [[a | e | c] s' t]; simpl in *.
  - exists a. reflexivity.
  - rewrite outcome_after. apply Hh.
  - exfalso. exact (Hm c eq_refl).
Qed.

Lemma Returns_tryFinally {A} (m : M W A) f :
  Returns m -> Returns f -> Returns (tryFinally m f).
Proof.
  intros Hm Hf s. unfold tryFinally. destruct (Hm s) as [a Ha].
  destruct (m s) as [o s' t]. simpl in Ha. subst o.
  destruct (Hf s') as [u Hu]. destruct (f s') as [o' s'' t']. simpl in Hu. subst o'.
  exists a. reflexivity.
Qed.

(* --------------------------------------------------------------------- *)
(** *** Invariants of the token slot, permitted events, no exit *)

Variable J : JsValue -> Prop.
Variable P : Event -> bool.

Lemma Tame_ret {A} (a : A) : Tame J P (@ret W A a).
Proof. intros s H. repeat split; auto. discriminate. Qed.

Lemma Tame_throw {A} e : Tame J P (@throw W A e).
Proof. intros s H. repeat split; auto. discriminate. Qed.

Lemma Tame_liftResult {A} (r : Result A) : Tame J P (@liftResult W A r).
Proof. destruct r; [apply Tame_ret | apply Tame_throw]. Qed.

Lemma Tame_emit ev : P ev = true -> Tame J P (@emit W ev).
Proof. intros HP s H. repeat split; auto; simpl; [rewrite HP; reflexivity | discriminate]. Qed.

Lemma Tame_ext {A} (op : Op A) : P (EvExt op) = true -> Tame J P (ext E op).
Proof.
  intros HP s H. unfold ext. destruct (perform E op (world s)) as [r w].
  simpl. rewrite HP. repeat split; auto. destruct r; discriminate.
Qed.

Lemma Tame_sleep ms : P (EvSleep ms) = true -> Tame J P (sleep E ms).
Proof. intros HP s H. simpl. rewrite HP. repeat split; auto. discriminate. Qed.

Lemma Tame_dateNow : Tame J P (dateNow E).
Proof. intros s H. repeat split; auto. discriminate. Qed.

Lemma Tame_dateIso : Tame J P (dateIso E).
Proof. intros s H. repeat split; auto. discriminate. Qed.

Lemma Tame_currentUrl p : Tame J P (currentUrl E p).
Proof. intros s H. repeat split; auto. discriminate. Qed.

Lemma Tame_getCapturedToken : Tame J P (@getCapturedToken W).
Proof. intros s H. repeat split; auto. discriminate. Qed.

Lemma Tame_setCapturedToken v : J v -> Tame J P (@setCapturedToken W v).
Proof. intros Hv s H. repeat split; auto. discriminate. Qed.

Lemma Tame_pageOnResponse p : Tame J P (@pageOnResponse W p).
Proof. intros s H. repeat split; auto. discriminate. Qed.

Lemma Tame_getListener : Tame J P (@getListener W).
Proof. intros s H. repeat split; auto. discriminate. Qed.

Lemma Tame_getBrowserVar : Tame J P (@getBrowserVar W).
Proof. intros s H. repeat split; auto. discriminate. Qed.

Lemma Tame_setBrowserVar b : Tame J P (@setBrowserVar W b).
Proof. intros s H. repeat split; auto. discriminate. Qed.

Lemma Tame_arrivals p : Tame J P (arrivals E p).
Proof.
  intros s H. unfold arrivals. destruct (responses E p (world s)) as [rs w].
  repeat split; auto. discriminate.
Qed.

Lemma Tame_bind {A B} (m : M W A) (k : A -> M W B) :
  Tame J P m -> (forall a, Tame J P (k a)) -> Tame J P (bind m k).
Proof.
  intros Hm Hk s H. destruct (Hm s H) as (HJ & HP & HX). unfold bind.
  destruct (m s) as [[a | e | c] s' t]; simpl in *.
  - destruct (Hk a s' HJ) as (HJ' & HP' & HX').
    rewrite final_after, trace_after, outcome_after, forallb_app, HP, HP'. auto.
  - repeat split; auto. discriminate.
  - exfalso. exact (HX c eq_refl).
Qed.

Lemma Tame_tryCatch {A} (m : M W A) h :
  Tame J P m -> (forall e, Tame J P (h e)) -> Tame J P (tryCatch m h).
Proof.
  intros Hm Hh s H. destruct (Hm s H) as (HJ & HP & HX). unfold tryCatch.
  destruct (m s) as [[a | e | c] s' t]; simpl in *.
  - repeat split; auto.
  - destruct (Hh e s' HJ) as (HJ' & HP' & HX').
    rewrite final_after, trace_after, outcome_after, forallb_app, HP, HP'. auto.
  - exfalso. exact (HX c eq_refl).
Qed.

Lemma Tame_tryFinally {A} (m : M W A) f :
  Tame J P m -> Tame J P f -> Tame J P (tryFinally m f).
Proof.
  intros Hm Hf s H. destruct (Hm s H) as (HJ & HP & HX). unfold tryFinally.
  destruct (m s) as [[a | e | c] s' t]; simpl in *;
    try (exfalso; exact (HX c eq_refl));
    destruct (Hf s' HJ) as (HJ' & HP' & HX');
    destruct (f s') as [[u | e' | c'] s'' t']; simpl in *;
    try (exfalso; exact (HX' c' eq_refl));
    rewrite forallb_app, HP, HP'; repeat split; auto; discriminate.
Qed.

Lemma Tame_promiseAll2 (a b : Op unit) :
  P (EvExt a) = true -> P (EvExt b) = true -> Tame J P (promiseAll2 E a b).
Proof.
  intros Ha Hb s H. unfold promiseAll2.
  destruct (perform E a (world s)) as [ra w1].
  destruct (perform E b w1) as [rb w2]. simpl. rewrite Ha, Hb.
  repeat split; auto. destruct ra, rb; discriminate.
Qed.

Lemma Tame_evaluate {A} p (script : Dom -> InPage A) :
  P (EvExt (PageEvaluate p)) = true ->
  (forall sel, P (EvExt (ElementClick p sel)) = true) ->
  Tame J P (evaluate E p script).
Proof.
  intros He Hc. unfold evaluate. apply Tame_bind.
  - apply Tame_ext. exact He.
  - intros d. destruct (script d).
    + apply Tame_ret.
    + apply Tame_bind; [apply Tame_ext; apply Hc | intros; apply Tame_ret].
    + apply Tame_throw.
Qed.

(** The events every script may emit freely: console lines and
    responses handed to the listener. *)
Hypothesis console_permitted : forall level args, P (EvConsole level args) = true.
Hypothesis response_permitted : forall r, P (EvResponse r) = true.

Lemma Tame_console_log args : Tame J P (@console_log W args).
Proof. apply Tame_emit. apply console_permitted. Qed.

Lemma Tame_console_warn args : Tame J P (@console_warn W args).
Proof. apply Tame_emit. apply console_permitted. Qed.

Lemma Tame_console_error args : Tame J P (@console_error W args).
Proof. apply Tame_emit. apply console_permitted. Qed.

Section WithHandler.

Variable handler : Response -> M W unit.
Hypothesis handler_tame : forall r, Tame J P (handler r).

Lemma Tame_handleAll rs : Tame J P (handleAll handler rs).
Proof.
  induction rs as [| r rest IH]; simpl.
  - apply Tame_ret.
  - apply Tame_bind; [apply Tame_emit; apply response_permitted | intros _].
    apply Tame_bind; [apply handler_tame | intros _; exact IH].
Qed.

Lemma Tame_deliver p : Tame J P (deliver E handler p).
Proof.
  unfold deliver. apply Tame_bind; [apply Tame_getListener | intros l].
  destruct l as [q |]; [| apply Tame_ret].
  destruct (Nat.eqb p q); [| apply Tame_ret].
  apply Tame_bind; [apply Tame_arrivals | intros rs; apply Tame_handleAll].
Qed.

Lemma Tame_awaitOn {A} p (m : M W A) :
  Tame J P m -> Tame J P (awaitOn E handler p m).
Proof. intros Hm. apply Tame_tryFinally; [exact Hm | apply Tame_deliver]. Qed.

Lemma Tame_pollToken p n :
  P (EvSleep 500) = true -> Tame J P (pollToken E handler p n).
Proof.
  intros Hs. induction n as [| n IH]; simpl.
  - apply Tame_ret.
  - apply Tame_bind; [apply Tame_getCapturedToken | intros token].
    destruct (truthy token); [apply Tame_ret |].
    apply Tame_bind; [| intros _; exact IH].
    apply Tame_awaitOn. apply Tame_sleep. exact Hs.
Qed.

Hypothesis handler_returns : forall r, Returns (handler r).

Lemma Returns_handleAll rs : Returns (handleAll handler rs).
Proof.
  induction rs as [| r rest IH]; simpl.
  - apply Returns_ret.
  - apply Returns_bind; [apply Returns_emit | intros _].
    apply Returns_bind; [apply handler_returns | intros _; exact IH].
Qed.

Lemma Returns_deliver p : Returns (deliver E handler p).
Proof.
  unfold deliver. apply Returns_bind.
  - intros s. exists (listener s). reflexivity.
  - intros l. destruct l as [q |]; [| apply Returns_ret].
    destruct (Nat.eqb p q); [| apply Returns_ret].
    apply Returns_bind; [| intros rs; apply Returns_handleAll].
    intros s. unfold arrivals. destruct (responses E p (world s)) as [rs w].
    exists rs. reflexivity.
Qed.

(** An awaited computation ends as the computation itself does; the
    listener runs in the state it leaves. *)
Lemma awaitOn_run {A} p (m : M W A) s :
  (forall c, outcome (m s) <> Exit c) ->
  awaitOn E handler p m s =
    mkRun (outcome (m s)) (final (deliver E handler p (final (m s))))
          (trace (m s) ++ trace (deliver E handler p (final (m s)))).
Proof.
  intros HX. unfold awaitOn, tryFinally.
  destruct (m s) as [o s' t]. simpl in *.
  destruct (Returns_deliver p s') as [u Hu].
  destruct (deliver E handler p s') as [o' s'' t']. simpl in *. subst o'.
  destruct o as [a | e | c]; try reflexivity.
  exfalso. exact (HX c eq_refl).
Qed.

Lemma outcome_awaitOn {A} p (m : M W A) s :
  (forall c, outcome (m s) <> Exit c) ->
  outcome (awaitOn E handler p m s) = outcome (m s).
Proof. intros HX. rewrite (awaitOn_run p m s HX). reflexivity. Qed.

End WithHandler.

Section WithRetry.

Variable retry : RetryConfig.
Hypothesis sleep_permitted : forall ms, P (EvSleep ms) = true.

Lemma Tame_backoff context attempt : Tame J P (backoff E retry context attempt).
Proof.
  unfold backoff. destruct (Nat.ltb attempt (maxAttempts retry)); [| apply Tame_ret].
  apply Tame_bind; [apply Tame_console_log | intros _; apply Tame_sleep; apply sleep_permitted].
Qed.

Lemma Tame_retryLoop {A} (operation : M W A) context remaining :
  Tame J P operation ->
  forall attempt lastError,
    Tame J P (retryLoop E retry operation context remaining attempt lastError).
Proof.
  intros Hop. induction remaining as [| n IH]; intros attempt lastError; simpl.
  - destruct lastError; apply Tame_throw.
  - apply Tame_tryCatch.
    + apply Tame_bind; [apply Tame_console_log | intros _; exact Hop].
    + intros e. apply Tame_bind; [apply Tame_console_error | intros _].
      apply Tame_bind; [apply Tame_backoff | intros _; apply IH].
Qed.

Lemma Tame_retryOperation {A} (operation : M W A) context :
  Tame J P operation -> Tame J P (retryOperation E retry operation context).
Proof. intros Hop. apply Tame_retryLoop. exact Hop. Qed.

End WithRetry.

End Laws.

(* ===================================================================== *)
(** ** The Token Interceptor *)
(* ===================================================================== *)

(** Case analysis along the branches of a listener: each test it makes is
    decided in turn, and the run is evaluated between the tests. *)
Ltac listener_cases :=
  repeat (cbv beta iota delta [bind tryCatch after liftResult ret throw console_log
                               console_warn console_error emit setCapturedToken];
          match goal with
          | |- context [includes ?a (url ?r)] => destruct (includes a (url r))
          | |- context [contentType ?r] => destruct (contentType r)
          | |- context [truthy (JsString ?ct) && includes ?a ?ct] =>
              destruct (truthy (JsString ct) && includes a ct)
          | |- context [json ?r] => destruct (json r)
          | |- context [getProp ?d ?k] => destruct (getProp d k)
          | |- context [truthy ?v] => destruct (truthy v) eqn:?
          | |- context [substring50 ?v] => is_var v; destruct v
          end);
  cbv beta iota delta [substring50]; cbn [final outcome world capturedToken listener browserVar];
  auto; try discriminate; try congruence.

Section Interceptor.

Context {W : Type}.

(** What one run of the listener does to the state: the slot takes the
    offered token, if there is one; nothing else changes. *)
Lemma cookie_onResponse_final (r : Response) (s : HState W) :
  final (CookieSession.onResponse r s) =
    mkHState (world s)
             (match offeredToken r with Some v => v | None => capturedToken s end)
             (listener s) (browserVar s).
Proof.
  unfold CookieSession.onResponse, offeredToken. destruct s as [w tok l b].
  listener_cases.
Qed.

Lemma credential_onResponse_final (r : Response) (s : HState W) :
  final (CredentialLogin.onResponse r s) =
    mkHState (world s)
             (match offeredToken r with Some v => v | None => capturedToken s end)
             (listener s) (browserVar s).
Proof.
  unfold CredentialLogin.onResponse, offeredToken. destruct s as [w tok l b].
  listener_cases.
Qed.

(** The listener swallows every failure. *)
Lemma cookie_onResponse_returns (r : Response) :
  Returns (@CookieSession.onResponse W r).
Proof.
  intros s. unfold CookieSession.onResponse. exists tt.
  listener_cases.
Qed.

Lemma credential_onResponse_returns (r : Response) :
  Returns (@CredentialLogin.onResponse W r).
Proof.
  intros s. unfold CredentialLogin.onResponse. exists tt.
  listener_cases.
Qed.

(** An offered token is truthy. *)
Lemma offeredToken_truthy r v : offeredToken r = Some v -> truthy v = true.
Proof.
  unfold offeredToken.
  destruct (includes "/v5/token" (url r)); [| discriminate].
  destruct (contentType r) as [ct |]; [| discriminate].
  destruct (truthy (JsString ct) && includes "application/json" ct); [| discriminate].
  destruct (json r) as [data | e]; [| discriminate].
  destruct (getProp data "access_token") as [x | e]; [| discriminate].
  destruct (truthy x) eqn:Hx; [| discriminate].
  intros H. inversion H. subst. exact Hx.
Qed.

Lemma latestOffer_last rs r v later slot :
  offeredToken r = Some v ->
  Forall (fun r' => offeredToken r' = None) later ->
  latestOffer (rs ++ r :: later) slot = v.
Proof.
  intros Hr Hlater. revert slot. induction rs as [| r0 rs IH]; intros slot; simpl.
  - rewrite Hr. clear Hr. induction Hlater as [| r' later' Hn _ IH']; simpl; auto.
    rewrite Hn. exact IH'.
  - apply IH.
Qed.

Section Batch.

Variable handler : Response -> M W unit.
Hypothesis handler_final : forall r s,
  final (handler r s) =
    mkHState (world s)
             (match offeredToken r with Some v => v | None => capturedToken s end)
             (listener s) (browserVar s).
Hypothesis handler_returns : forall r, Returns (handler r).

Lemma handleAll_final rs (s : HState W) :
  final (handleAll handler rs s) =
    mkHState (world s) (latestOffer rs (capturedToken s)) (listener s) (browserVar s).
Proof.
  revert s. induction rs as [| r rest IH]; intros s; cbn [handleAll latestOffer].
  - destruct s; reflexivity.
  - rewrite (bind_Return (emit (EvResponse r)) _ s tt eq_refl), final_after.
    cbn [emit final].
    destruct (handler_returns r s) as [u Hu].
    rewrite (bind_Return (handler r) _ s u Hu), final_after, IH, handler_final.
    reflexivity.
Qed.

End Batch.

End Interceptor.

(* ===================================================================== *)
(** ** Token Validator: properties *)
(* ===================================================================== *)

(** [split] yields one segment more than there are separators. *)
Lemma split_length (sep : ascii) (s : string) :
  List.length (split sep s) = S (countChar sep s).
Proof.
  induction s as [| c rest IH]; simpl; [reflexivity |].
  destruct (Ascii.eqb c sep); simpl.
  - rewrite IH. reflexivity.
  - destruct (split sep rest) as [| seg segs]; simpl in *; [discriminate | exact IH].
Qed.

(** On a string, the validator applies its three tests in order. *)
Lemma validateToken_string (t : string) :
  validateToken (JsString t) =
    match t with
    | EmptyString => Err (newError msgTokenEmpty)
    | _ =>
        if negb (startsWith "eyJ" t) then Err (newError msgTokenPrefix)
        else if negb (Nat.eqb (List.length (split "." t)) 3)
             then Err (newError msgTokenParts)
             else Ok true
    end.
Proof. destruct t; reflexivity. Qed.

(** Every other value is rejected by the first test. *)
Lemma validateToken_not_string (v : JsValue) :
  (forall t, v <> JsString t) -> validateToken v = Err (newError msgTokenEmpty).
Proof.
  intros Hv. unfold validateToken.
  replace (String.eqb (typeof v) "string") with false.
  - rewrite orb_true_r. reflexivity.
  - destruct v; try reflexivity. exfalso. exact (Hv s eq_refl).
Qed.

(** C4. [validateToken] throws exactly when the candidate is not a string,
    is the empty string, does not start with [eyJ], or does not split on
    dots into exactly three segments (that is, does not hold exactly two
    dots); on every other candidate it returns [true].  It is a function
    of the candidate alone. *)
Theorem validateToken_contract (candidate : JsValue) :
  ((exists e, validateToken candidate = Err e) <->
     ((forall t, candidate <> JsString t) \/
      candidate = JsString EmptyString \/
      (exists t, candidate = JsString t /\ startsWith "eyJ" t = false) \/
      (exists t, candidate = JsString t /\ List.length (split "." t) <> 3%nat)))
  /\ (validateToken candidate = Ok true \/ exists e, validateToken candidate = Err e)
  /\ (forall t, candidate = JsString t ->
        List.length (split "." t) = S (countChar "." t)).
Proof.
  split; [| split].
  - split.
    + intros [e He].
      destruct candidate as [| | b | q | t | items | fields];
        try (left; intros t'; discriminate).
      rewrite validateToken_string in He.
      destruct t as [| c t']; [right; left; reflexivity |].
      destruct (startsWith "eyJ" (String c t')) eqn:Hp.
      * right; right; right. exists (String c t'). split; [reflexivity |].
        cbn [negb] in He.
        destruct (Nat.eqb (List.length (split "." (String c t'))) 3) eqn:Hn;
          [discriminate |].
        apply Nat.eqb_neq. exact Hn.
      * right; right; left. exists (String c t'). auto.
    + intros [Hns | [He | [[t [Ht Hp]] | [t [Ht Hn]]]]].
      * rewrite (validateToken_not_string candidate Hns). eexists. reflexivity.
      * subst. eexists. reflexivity.
      * subst. rewrite validateToken_string.
        destruct t as [| c t']; [eexists; reflexivity |].
        rewrite Hp. eexists. reflexivity.
      * subst. rewrite validateToken_string.
        destruct t as [| c t']; [eexists; reflexivity |].
        destruct (startsWith "eyJ" (String c t')); cbn [negb]; [| eexists; reflexivity].
        apply Nat.eqb_neq in Hn. rewrite Hn. eexists. reflexivity.
  - unfold validateToken.
    destruct (negb (truthy candidate) || negb (String.eqb (typeof candidate) "string"));
      [right; eexists; reflexivity |].
    destruct (negb (startsWith "eyJ" (stringOf candidate)));
      [right; eexists; reflexivity |].
    destruct (negb (Nat.eqb (List.length (split "." (stringOf candidate))) 3));
      [right; eexists; reflexivity | left; reflexivity].
  - intros t _. apply split_length.
Qed.

Example validateToken_ok : validateToken (JsString "eyJhbGci.eyJzdWIi.c2ln") = Ok true.
Proof. reflexivity. Qed.

Example validateToken_two_parts :
  validateToken (JsString "eyJhbGci.eyJzdWIi") = Err (newError msgTokenParts).
Proof. reflexivity. Qed.

Example validateToken_number :
  validateToken (JsNumber 7) = Err (newError msgTokenEmpty).
Proof. reflexivity. Qed.

Example showZ_4000 : showZ 4000 = "4000".
Proof. reflexivity. Qed.

(* ===================================================================== *)
(** ** Token Interceptor: properties *)
(* ===================================================================== *)

(** C1, refuted as stated.  Two responses of the token endpoint with
    different tokens: after both are handled the slot holds the second
    token, not the first, in either script. *)
Lemma latch_overwritten_by_second_response :
  let first := Sim.tokenResponse "eyJhbGciOi.Zmlyc3Q.c2ln" in
  let second := Sim.tokenResponse "eyJhbGciOi.c2Vjb25k.c2ln" in
  let start := mkHState tt JsNull (Some 1%nat) None in
  offeredToken first = Some (JsString "eyJhbGciOi.Zmlyc3Q.c2ln") /\
  offeredToken second = Some (JsString "eyJhbGciOi.c2Vjb25k.c2ln") /\
  capturedToken (final (handleAll CookieSession.onResponse [first; second] start))
    = JsString "eyJhbGciOi.c2Vjb25k.c2ln" /\
  capturedToken (final (handleAll CredentialLogin.onResponse [first; second] start))
    = JsString "eyJhbGciOi.c2Vjb25k.c2ln" /\
  JsString "eyJhbGciOi.c2Vjb25k.c2ln" <> JsString "eyJhbGciOi.Zmlyc3Q.c2ln".
Proof.
  cbv zeta. repeat split; try reflexivity. discriminate.
Qed.

(** C1, amended.  After the listener has handled a batch of responses, the
    slot holds the token of the last response that offered one: a later
    matching response overwrites an earlier one.  The listener never
    throws and touches nothing but the slot. *)
Theorem latch_last_match_wins {W : Type} (s : HState W)
        (before later : list Response) (r : Response) (v : JsValue) :
  offeredToken r = Some v ->
  Forall (fun r' => offeredToken r' = None) later ->
  (capturedToken (final (handleAll CookieSession.onResponse (before ++ r :: later) s)) = v /\
   capturedToken (final (handleAll CredentialLogin.onResponse (before ++ r :: later) s)) = v) /\
  (world (final (handleAll CookieSession.onResponse (before ++ r :: later) s)) = world s /\
   world (final (handleAll CredentialLogin.onResponse (before ++ r :: later) s)) = world s) /\
  (exists u, outcome (handleAll CookieSession.onResponse (before ++ r :: later) s) = Return u) /\
  (exists u, outcome (handleAll CredentialLogin.onResponse (before ++ r :: later) s) = Return u).
Proof.
  intros Hr Hlater.
  rewrite (handleAll_final _ cookie_onResponse_final cookie_onResponse_returns).
  rewrite (handleAll_final _ credential_onResponse_final credential_onResponse_returns).
  simpl. rewrite (latestOffer_last before r v later _ Hr Hlater).
  repeat split; auto.
  - apply (Returns_handleAll _ cookie_onResponse_returns).
  - apply (Returns_handleAll _ credential_onResponse_returns).
Qed.

(** A batch where the second of two matching responses is the last. *)
Lemma latch_last_match_wins_witness :
  capturedToken
    (final (handleAll CookieSession.onResponse
              ([Sim.tokenResponse "eyJhbGciOi.Zmlyc3Q.c2ln"]
                 ++ Sim.tokenResponse "eyJhbGciOi.c2Vjb25k.c2ln" :: [])
              (mkHState tt JsNull (Some 1%nat) None)))
  = JsString "eyJhbGciOi.c2Vjb25k.c2ln".
Proof.
  apply (latch_last_match_wins (mkHState tt JsNull (Some 1%nat) None)
           [Sim.tokenResponse "eyJhbGciOi.Zmlyc3Q.c2ln"] []
           (Sim.tokenResponse "eyJhbGciOi.c2Vjb25k.c2ln")
           (JsString "eyJhbGciOi.c2Vjb25k.c2ln")).
  - reflexivity.
  - constructor.
Defined.

(* ===================================================================== *)
(** ** Retry Executor: properties *)
(* ===================================================================== *)

Lemma prefix_refl (s : string) : String.prefix s s = true.
Proof.
  induction s as [| c s IH]; simpl; [reflexivity |].
  destruct (ascii_dec c c) as [_ | n]; [exact IH | exfalso; apply n; reflexivity].
Qed.

Lemma includes_refl (s : string) : includes s s = true.
Proof.
  destruct s as [| c s]; [reflexivity |].
  cbn [includes]. rewrite prefix_refl. reflexivity.
Qed.

Lemma string_app_assoc (a b c : string) :
  ((a ++ b) ++ c = a ++ (b ++ c))%string.
Proof. induction a as [| x a IH]; simpl; [reflexivity | rewrite IH; reflexivity]. Qed.

(** A string includes each of its suffixes. *)
Lemma includes_suffix (p s : string) : includes s (p ++ s) = true.
Proof.
  induction p as [| c p IH].
  - apply includes_refl.
  - change ((String c p ++ s)%string) with (String c (p ++ s)%string).
    cbn [includes]. rewrite IH. destruct (String.prefix s (String c (p ++ s))); reflexivity.
Qed.

Lemma timersOf_app t1 t2 : timersOf (t1 ++ t2) = timersOf t1 ++ timersOf t2.
Proof.
  induction t1 as [| ev t1 IH]; simpl; [reflexivity |].
  destruct ev; simpl; rewrite IH; reflexivity.
Qed.

Section RetryExecutor.

Context {W : Type} (E : Engine W).
Variable retry : RetryConfig.

(** When the operation sets no timer of its own, the timers around [n]
    failed attempts are the backoff delays, one per failed attempt. *)
Lemma failedTrace_timers context fails : forall k,
  Forall (fun f => timersOf (snd f) = []) fails ->
  timersOf (failedTrace retry context k fails) = backoffDelays retry k (List.length fails).
Proof.
  induction fails as [| [e t] rest IH]; intros k Hq; simpl; [reflexivity |].
  inversion Hq as [| f fs Ht Hrest]; subst. simpl in Ht.
  rewrite timersOf_app, Ht. simpl. rewrite (IH (S k) Hrest). reflexivity.
Qed.

Section Operation.

Context {A : Type}.
Variable operation : M W A.
Variable context : string.

Lemma bind_console_log {B} args (k : unit -> M W B) s :
  bind (console_log args) k s = after [EvConsole LevelLog args] (k tt s).
Proof. reflexivity. Qed.

Lemma bind_console_error {B} args (k : unit -> M W B) s :
  bind (console_error args) k s = after [EvConsole LevelError args] (k tt s).
Proof. reflexivity. Qed.

(** The backoff after a failed attempt that is not the last. *)
Lemma bind_backoff_retry {B} attempt (k : unit -> M W B) s :
  (attempt < maxAttempts retry)%nat ->
  bind (backoff E retry context attempt) k s =
    after [retryLine retry context attempt; EvSleep (backoffDelay retry attempt)]
          (k tt (slept E (backoffDelay retry attempt) s)).
Proof.
  intros Hlt. apply Nat.ltb_lt in Hlt. unfold bind, backoff. rewrite Hlt. reflexivity.
Qed.

(** No backoff after the last attempt. *)
Lemma bind_backoff_last {B} (k : unit -> M W B) s :
  bind (backoff E retry context (maxAttempts retry)) k s = k tt s.
Proof.
  unfold bind, backoff. rewrite Nat.ltb_irrefl. cbn [ret]. apply after_nil.
Qed.

(** The guarded body of one iteration. *)
Lemma attempt_body attempt s :
  (console_log [JsString ("[" ++ context ++ "] Attempt " ++ showNat attempt
                          ++ "/" ++ showNat (maxAttempts retry))] ;;
   operation) s = after [attemptLine retry context attempt] (operation s).
Proof. reflexivity. Qed.

(** One failed attempt that is not the last: the loop prints, waits and
    goes round again. *)
Lemma retryLoop_step_retry remaining attempt lastError s e :
  outcome (operation s) = Throw e ->
  (attempt < maxAttempts retry)%nat ->
  retryLoop E retry operation context (S remaining) attempt lastError s =
    after (attemptLine retry context attempt :: trace (operation s)
             ++ [failureLine context attempt e; retryLine retry context attempt;
                 EvSleep (backoffDelay retry attempt)])
          (retryLoop E retry operation context remaining (S attempt) (Some e)
                     (slept E (backoffDelay retry attempt) (final (operation s)))).
Proof.
  intros Ho Hlt. cbn [retryLoop].
  rewrite (tryCatch_Throw _ _ s e) by (rewrite attempt_body, outcome_after; exact Ho).
  rewrite attempt_body, trace_after, final_after.
  rewrite bind_console_error, (bind_backoff_retry _ _ _ Hlt), !after_after.
  f_equal. cbn [app]. rewrite <- app_assoc. reflexivity.
Qed.

(** The last attempt fails: the loop ends and the executor throws. *)
Lemma retryLoop_step_exhausted lastError s e :
  outcome (operation s) = Throw e ->
  retryLoop E retry operation context 1 (maxAttempts retry) lastError s =
    mkRun (Throw (newError (exhaustedMessage retry context (message e))))
          (final (operation s))
          (attemptLine retry context (maxAttempts retry) :: trace (operation s)
             ++ [failureLine context (maxAttempts retry) e]).
Proof.
  intros Ho. cbn [retryLoop].
  rewrite (tryCatch_Throw _ _ s e) by (rewrite attempt_body, outcome_after; exact Ho).
  rewrite attempt_body, trace_after, final_after.
  rewrite bind_console_error, bind_backoff_last, after_after.
  cbn [throw after app]. rewrite <- app_assoc, app_nil_r. reflexivity.
Qed.

(** An attempt succeeds: its value is returned at once. *)
Lemma retryLoop_step_success remaining attempt lastError s v :
  outcome (operation s) = Return v ->
  retryLoop E retry operation context (S remaining) attempt lastError s =
    mkRun (Return v) (final (operation s))
          (attemptLine retry context attempt :: trace (operation s)).
Proof.
  intros Ho. cbn [retryLoop].
  rewrite (tryCatch_Return _ _ s v) by (rewrite attempt_body, outcome_after; exact Ho).
  rewrite attempt_body. destruct (operation s) as [o s' t]. simpl in *. subst o.
  reflexivity.
Qed.

(** A run of failed attempts, each followed by its backoff. *)
Lemma retryLoop_failed_prefix fails : forall k remaining lastError s sK,
  FailedAttempts E retry operation k s fails sK ->
  (k + List.length fails <= maxAttempts retry)%nat ->
  exists lastError',
    retryLoop E retry operation context (List.length fails + remaining) k lastError s =
      after (failedTrace retry context k fails)
            (retryLoop E retry operation context remaining (k + List.length fails)
                       lastError' sK).
Proof.
  induction fails as [| [e t] rest IH]; intros k remaining lastError s sK Hf Hle.
  - inversion Hf; subst. exists lastError. cbn [List.length failedTrace plus].
    rewrite Nat.add_0_r, after_nil. reflexivity.
  - inversion Hf as [| k' s' e' rest' sK' Ho Hrest]; subst.
    cbn [List.length] in Hle.
    destruct (IH (S k) remaining (Some e) _ sK Hrest) as [le Hle']; [lia |].
    exists le. cbn [List.length plus].
    rewrite (retryLoop_step_retry _ k lastError s e Ho); [| lia].
    rewrite Hle', after_after. cbn [failedTrace].
    replace (k + S (List.length rest))%nat with (S k + List.length rest)%nat by lia.
    f_equal. cbn [app]. rewrite <- !app_assoc. reflexivity.
Qed.

(** An operation that always fails can be driven through any number of
    failed attempts. *)
Lemma FailedAttempts_exist :
  (forall s, exists e, outcome (operation s) = Throw e) ->
  forall n k s, exists fails sK,
    FailedAttempts E retry operation k s fails sK /\ List.length fails = n.
Proof.
  intros Hfail. induction n as [| n IH]; intros k s.
  - exists [], s. split; [constructor | reflexivity].
  - destruct (Hfail s) as [e He].
    destruct (IH (S k) (slept E (backoffDelay retry k) (final (operation s))))
      as (rest & sK & Hrest & Hlen).
    exists ((e, trace (operation s)) :: rest), sK. split.
    + constructor; assumption.
    + simpl. rewrite Hlen. reflexivity.
Qed.

Lemma retryOperation_exhausted fails s sLast eLast :
  FailedAttempts E retry operation 1 s fails sLast ->
  S (List.length fails) = maxAttempts retry ->
  outcome (operation sLast) = Throw eLast ->
  retryOperation E retry operation context s =
    mkRun (Throw (newError (exhaustedMessage retry context (message eLast))))
          (final (operation sLast))
          (failedTrace retry context 1 fails
             ++ attemptLine retry context (maxAttempts retry)
             :: trace (operation sLast)
             ++ [failureLine context (maxAttempts retry) eLast]).
Proof.
  intros Hf Hlen Ho. unfold retryOperation.
  destruct (retryLoop_failed_prefix fails 1 1 None s sLast Hf) as [le Hle]; [lia |].
  replace (maxAttempts retry) with (List.length fails + 1)%nat at 1 by lia.
  rewrite Hle.
  replace (1 + List.length fails)%nat with (maxAttempts retry) by lia.
  rewrite (retryLoop_step_exhausted le sLast eLast Ho). reflexivity.
Qed.

Lemma retryOperation_succeeds fails s sK v :
  FailedAttempts E retry operation 1 s fails sK ->
  (List.length fails < maxAttempts retry)%nat ->
  outcome (operation sK) = Return v ->
  retryOperation E retry operation context s =
    mkRun (Return v) (final (operation sK))
          (failedTrace retry context 1 fails
             ++ attemptLine retry context (S (List.length fails))
             :: trace (operation sK)).
Proof.
  intros Hf Hlt Ho. unfold retryOperation.
  destruct (retryLoop_failed_prefix fails 1
              (maxAttempts retry - List.length fails) None s sK Hf) as [le Hle]; [lia |].
  replace (maxAttempts retry)
    with (List.length fails + (maxAttempts retry - List.length fails))%nat at 1 by lia.
  rewrite Hle.
  destruct (maxAttempts retry - List.length fails)%nat as [| r] eqn:Hr; [lia |].
  rewrite (retryLoop_step_success r _ le sK v Ho). reflexivity.
Qed.

End Operation.

(** C2. Under a policy of at least one attempt: an operation that fails
    on every invocation is invoked exactly [maxAttempts] times (the
    [maxAttempts - 1] failed attempts of [fails], each followed by the
    timer [delayMs * 2^(attempt-1)], then the last one, followed by none),
    after which the executor throws an error whose message ends with the
    last failure's message; and when attempt [k] is the first to succeed,
    the operation is invoked exactly [k] times (the [k - 1] of [fails],
    then the successful one) and its value is returned. *)
Theorem retryOperation_contract {A} (operation : M W A) (context : string)
        (s : HState W) :
  (1 <= maxAttempts retry)%nat ->
  ((forall s', exists e, outcome (operation s') = Throw e) ->
   exists fails sLast eLast,
     FailedAttempts E retry operation 1 s fails sLast /\
     S (List.length fails) = maxAttempts retry /\
     outcome (operation sLast) = Throw eLast /\
     retryOperation E retry operation context s =
       mkRun (Throw (newError (exhaustedMessage retry context (message eLast))))
             (final (operation sLast))
             (failedTrace retry context 1 fails
                ++ attemptLine retry context (maxAttempts retry)
                :: trace (operation sLast)
                ++ [failureLine context (maxAttempts retry) eLast]) /\
     includes (message eLast) (exhaustedMessage retry context (message eLast)) = true)
  /\
  (forall fails sK v,
     FailedAttempts E retry operation 1 s fails sK ->
     (List.length fails < maxAttempts retry)%nat ->
     outcome (operation sK) = Return v ->
     retryOperation E retry operation context s =
       mkRun (Return v) (final (operation sK))
             (failedTrace retry context 1 fails
                ++ attemptLine retry context (S (List.length fails))
                :: trace (operation sK)))
  /\
  (forall k, backoffDelay retry k = (delayMs retry * 2 ^ Z.of_nat (k - 1))%Z).
Proof.
  intros Hmax. split; [| split].
  - intros Hfail.
    destruct (FailedAttempts_exist operation Hfail (maxAttempts retry - 1) 1 s)
      as (fails & sLast & Hf & Hlen).
    destruct (Hfail sLast) as [eLast He].
    exists fails, sLast, eLast. repeat split; auto.
    + lia.
    + apply retryOperation_exhausted; auto. lia.
    + unfold exhaustedMessage.
      rewrite <- !string_app_assoc. apply includes_suffix.
  - intros fails sK v Hf Hlt Ho. apply retryOperation_succeeds; assumption.
  - intros k. reflexivity.
Qed.

End RetryExecutor.

Example retry_backoff_run :
  let r := retryOperation Sim.bare CONFIG_retry Sim.portalDown
                          "Token Capture" Sim.idle in
  outcome r = Throw (newError "Token Capture failed after 3 attempts: portal down") /\
  timersOf (trace r) = [2000; 4000]%Z /\
  countEvents (fun ev => match ev with
                         | EvConsole LevelLog _ => true
                         | _ => false
                         end) (trace r) = 5%nat.
Proof. cbv zeta. repeat split; reflexivity. Qed.

(** The policy of the scripts, and an operation that always fails. *)
Lemma retryOperation_contract_witness :
  outcome (retryOperation Sim.bare CONFIG_retry Sim.portalDown
                          "Token Capture" Sim.idle)
  = Throw (newError "Token Capture failed after 3 attempts: portal down").
Proof.
  destruct (retryOperation_contract Sim.bare CONFIG_retry
              Sim.portalDown "Token Capture"
              Sim.idle) as (Hex & _ & _).
  - simpl. lia.
  - destruct Hex as (fails & sLast & eLast & _ & _ & Ho & Hrun & _).
    + intros s'. exists (newError "portal down"). reflexivity.
    + rewrite Hrun. simpl in Ho. inversion Ho. reflexivity.
Defined.

(* ===================================================================== *)
(** ** Which events a function may emit *)
(* ===================================================================== *)

Lemma chatter_is_store_event ev : isChatter ev = true -> isStoreEvent ev = true.
Proof. destruct ev; simpl; intros H; try reflexivity; discriminate. Qed.

(** Side conditions of the [Tame] rules: the event at hand is permitted. *)
Ltac permitted :=
  intros;
  first [ reflexivity
        | assumption
        | match goal with
          | H : forall ev, _ = _ -> ?P ev = true |- ?P _ = true => apply H; reflexivity
          | H : forall v, truthy v = true -> ?J v |- ?J _ => apply H; assumption
          end
        | exact I ].

(** Syntax-directed proof of [Tame] for a script. *)
Ltac tame :=
  repeat
    match goal with
    | |- Tame _ _ (bind _ _) => apply Tame_bind; [| intros ?]
    | |- Tame _ _ (tryCatch _ _) => apply Tame_tryCatch; [| intros ?]
    | |- Tame _ _ (tryFinally _ _) => apply Tame_tryFinally
    | |- Tame _ _ (ret _) => apply Tame_ret
    | |- Tame _ _ (throw _) => apply Tame_throw
    | |- Tame _ _ (liftResult _) => apply Tame_liftResult
    | |- Tame _ _ (console_log _) => apply Tame_emit; permitted
    | |- Tame _ _ (console_warn _) => apply Tame_emit; permitted
    | |- Tame _ _ (console_error _) => apply Tame_emit; permitted
    | |- Tame _ _ (emit _) => apply Tame_emit; permitted
    | |- Tame _ _ (ext _ _) => apply Tame_ext; permitted
    | |- Tame _ _ (sleep _ _) => apply Tame_sleep; permitted
    | |- Tame _ _ (dateNow _) => apply Tame_dateNow
    | |- Tame _ _ (dateIso _) => apply Tame_dateIso
    | |- Tame _ _ (currentUrl _ _) => apply Tame_currentUrl
    | |- Tame _ _ getCapturedToken => apply Tame_getCapturedToken
    | |- Tame _ _ (setCapturedToken _) => apply Tame_setCapturedToken; permitted
    | |- Tame _ _ (pageOnResponse _) => apply Tame_pageOnResponse
    | |- Tame _ _ getBrowserVar => apply Tame_getBrowserVar
    | |- Tame _ _ (setBrowserVar _) => apply Tame_setBrowserVar
    | |- Tame _ _ (evaluate _ _ _) => apply Tame_evaluate; permitted
    | |- Tame _ _ (promiseAll2 _ _ _) => apply Tame_promiseAll2; permitted
    | |- Tame _ _ (awaitOn _ _ _ _) => apply Tame_awaitOn; [permitted | auto |]
    | |- Tame _ _ (pollToken _ _ _ _) => apply Tame_pollToken; [permitted | auto | permitted]
    | |- Tame _ _ (retryOperation _ _ _ _) =>
        apply Tame_retryOperation; [permitted | permitted |]
    | |- Tame _ _ (if ?b then _ else _) => destruct b eqn:?
    | |- Tame _ _ (match ?x with _ => _ end) => destruct x eqn:?
    | |- Tame _ _ _ => solve [auto]
    end.

Section EmittedEvents.

Context {W : Type} (E : Engine W).
Variable env : Env.
Variable J : JsValue -> Prop.
Variable P : Event -> bool.

Section Chatter.

Hypothesis truthy_J : forall v, truthy v = true -> J v.
Hypothesis chatter_permitted : forall ev, isChatter ev = true -> P ev = true.

Lemma cookie_onResponse_tame r : Tame J P (@CookieSession.onResponse W r).
Proof. unfold CookieSession.onResponse. tame. Qed.

Lemma credential_onResponse_tame r : Tame J P (@CredentialLogin.onResponse W r).
Proof. unfold CredentialLogin.onResponse. tame. Qed.

Lemma filterCookies_tame now cookies : Tame J P (@CookieSession.filterCookies W now cookies).
Proof. induction cookies as [| c rest IH]; simpl; tame. Qed.

End Chatter.

Section Store.

Hypothesis truthy_J : forall v, truthy v = true -> J v.
Hypothesis store_permitted : forall ev, isStoreEvent ev = true -> P ev = true.

Lemma chatter_permitted_store : forall ev, isChatter ev = true -> P ev = true.
Proof. intros ev H. apply store_permitted. apply chatter_is_store_event. exact H. Qed.

Lemma cookie_onResponse_store r : Tame J P (@CookieSession.onResponse W r).
Proof.
  apply cookie_onResponse_tame; first [exact truthy_J | exact chatter_permitted_store].
Qed.

Lemma filterCookies_store now cookies :
  Tame J P (@CookieSession.filterCookies W now cookies).
Proof.
  apply filterCookies_tame; first [exact truthy_J | exact chatter_permitted_store].
Qed.

Hint Resolve cookie_onResponse_store filterCookies_store : core.

Lemma saveCookies_tame page : Tame J P (CookieSession.saveCookies E page).
Proof. unfold CookieSession.saveCookies. tame. Qed.

Lemma loadCookies_tame page : Tame J P (CookieSession.loadCookies E page).
Proof. unfold CookieSession.loadCookies. tame. Qed.

End Store.

End EmittedEvents.

(* ===================================================================== *)
(** ** Awaiting the token: properties *)
(* ===================================================================== *)

Lemma countEvents_app f t1 t2 :
  countEvents f (t1 ++ t2) = (countEvents f t1 + countEvents f t2)%nat.
Proof. unfold countEvents. rewrite filter_app, length_app. reflexivity. Qed.

Lemma countEvents_none f t :
  forallb (fun ev => negb (f ev)) t = true -> countEvents f t = 0%nat.
Proof.
  unfold countEvents. induction t as [| ev t IH]; simpl; [reflexivity |].
  intros H. apply andb_true_iff in H. destruct H as [H1 H2].
  destruct (f ev); [discriminate | auto].
Qed.

Lemma sleptMs_app t1 t2 : sleptMs (t1 ++ t2) = (sleptMs t1 + sleptMs t2)%Z.
Proof.
  induction t1 as [| ev t1 IH]; simpl; [reflexivity |].
  destruct ev; simpl; rewrite ?IH; lia.
Qed.

(** When every timer is a 500 ms one, the time slept is 500 ms per timer. *)
Lemma sleptMs_poll t :
  forallb onlyPollSleeps t = true ->
  sleptMs t = (500 * Z.of_nat (countEvents isSleep t))%Z.
Proof.
  unfold countEvents. induction t as [| ev t IH]; [reflexivity |].
  intros H. simpl in H. apply andb_true_iff in H. destruct H as [H1 H2].
  specialize (IH H2).
  destruct ev; cbn [sleptMs filter isSleep List.length onlyPollSleeps] in *;
    try exact IH.
  apply Z.eqb_eq in H1. subst ms. rewrite IH, Nat2Z.inj_succ. lia.
Qed.

Section Polling.

Context {W : Type} (E : Engine W).
Variable handler : Response -> M W unit.
Hypothesis handler_returns : forall r, Returns (handler r).
Hypothesis handler_sets_no_timer :
  forall r, Tame (fun _ => True) (fun ev => negb (isSleep ev)) (handler r).

Lemma deliver_sets_no_timer p s :
  countEvents isSleep (trace (deliver E handler p s)) = 0%nat.
Proof.
  apply countEvents_none.
  apply (Tame_deliver E (fun _ => True) (fun ev => negb (isSleep ev))
           (fun _ => eq_refl) handler handler_sets_no_timer p s I).
Qed.

(** One polling wait: a 500 ms timer, during which the listener may run. *)
Lemma poll_wait p s :
  exists s1 td,
    awaitOn E handler p (sleep E 500) s = mkRun (Return tt) s1 (EvSleep 500 :: td) /\
    countEvents isSleep td = 0%nat.
Proof.
  rewrite (awaitOn_run E handler handler_returns p (sleep E 500) s);
    [| intros c; discriminate].
  eexists. eexists. split; [reflexivity |]. apply deliver_sets_no_timer.
Qed.

Lemma bind_getCapturedToken {B} (k : JsValue -> M W B) s :
  bind getCapturedToken k s = k (capturedToken s) s.
Proof. unfold bind. cbn [getCapturedToken]. apply after_nil. Qed.

(** The polling loop always completes; it sets at most [n] timers, and
    exactly [n] when the slot is still empty at its end. *)
Lemma pollToken_bounded p n : forall s,
  let r := pollToken E handler p n s in
  outcome r = Return tt /\
  (countEvents isSleep (trace r) <= n)%nat /\
  (truthy (capturedToken (final r)) = false -> countEvents isSleep (trace r) = n).
Proof.
  induction n as [| n IH]; intros s; cbv zeta.
  - cbn. repeat split; auto.
  - cbn [pollToken]. rewrite bind_getCapturedToken.
    destruct (truthy (capturedToken s)) eqn:Ht.
    + cbn. repeat split; auto; [lia | congruence].
    + destruct (poll_wait p s) as (s1 & td & Hrun & Htd).
      rewrite (bind_Return _ _ s tt) by (rewrite Hrun; reflexivity).
      rewrite Hrun. cbn [final trace].
      destruct (IH s1) as (Ho & Hle & Heq).
      rewrite outcome_after, trace_after, final_after.
      change (EvSleep 500 :: td) with ([EvSleep 500] ++ td).
      rewrite !countEvents_app, Htd.
      change (countEvents isSleep [EvSleep 500]) with 1%nat.
      repeat split; [exact Ho | lia |].
      intros Hempty. rewrite (Heq Hempty). lia.
Qed.

Hypothesis handler_polite : forall r, Tame (fun _ => True) onlyPollSleeps (handler r).

Lemma pollToken_only_poll_sleeps p n s :
  forallb onlyPollSleeps (trace (pollToken E handler p n s)) = true.
Proof.
  apply (Tame_pollToken E (fun _ => True) onlyPollSleeps (fun _ => eq_refl)
           handler handler_polite p n eq_refl s I).
Qed.

(** The step that awaits the token, for a budget of [n] polls and the
    error message [msg] (index.js 424-434 with [n = 30], part_000 245-256
    with [n = 20]). *)
Lemma awaitToken_bounded p n (line : list JsValue) (msg : string) s :
  let r := (console_log line ;;
            pollToken E handler p n ;;
            token <- getCapturedToken ;;
            if negb (truthy token) then throw (newError msg) else ret tt) s in
  (countEvents isSleep (trace r) <= n)%nat /\
  forallb onlyPollSleeps (trace r) = true /\
  sleptMs (trace r) = (500 * Z.of_nat (countEvents isSleep (trace r)))%Z /\
  (truthy (capturedToken (final r)) = false ->
     outcome r = Throw (newError msg) /\ countEvents isSleep (trace r) = n) /\
  (truthy (capturedToken (final r)) = true -> outcome r = Return tt).
Proof.
  cbv zeta. destruct (pollToken_bounded p n s) as (Ho & Hle & Heq).
  pose proof (pollToken_only_poll_sleeps p n s) as Hp.
  change ((console_log line ;;
           pollToken E handler p n ;;
           token <- getCapturedToken ;;
           if negb (truthy token) then throw (newError msg) else ret tt) s)
    with (after [EvConsole LevelLog line]
                ((pollToken E handler p n ;;
                  token <- getCapturedToken ;;
                  if negb (truthy token) then throw (newError msg) else ret tt) s)).
  rewrite (bind_Return _ _ s tt Ho), bind_getCapturedToken, after_after.
  set (r := pollToken E handler p n s) in *.
  assert (Hall : forallb onlyPollSleeps ([EvConsole LevelLog line] ++ trace r) = true)
    by (cbn; exact Hp).
  assert (Hcount : countEvents isSleep ([EvConsole LevelLog line] ++ trace r)
                   = countEvents isSleep (trace r))
    by (rewrite countEvents_app; reflexivity).
  destruct (truthy (capturedToken (final r))) eqn:Hs;
    cbn [negb throw ret after outcome final trace]; rewrite app_nil_r, Hcount, Hs.
  - split; [exact Hle |]. split; [exact Hall |].
    split; [rewrite <- Hcount; exact (sleptMs_poll _ Hall) |].
    split; [discriminate | reflexivity].
  - split; [exact Hle |]. split; [exact Hall |].
    split; [rewrite <- Hcount; exact (sleptMs_poll _ Hall) |].
    split; [| discriminate].
    intros _. split; [reflexivity | exact (Heq eq_refl)].
Qed.

End Polling.

Lemma chatter_sets_no_timer ev : isChatter ev = true -> negb (isSleep ev) = true.
Proof. destruct ev; simpl; auto; discriminate. Qed.

Lemma chatter_is_polite ev : isChatter ev = true -> onlyPollSleeps ev = true.
Proof. destruct ev; simpl; auto; discriminate. Qed.

(** C5, refuted as stated.  When no token arrives, the session-reuse
    script polls 30 times (15 s) and the credential script 20 times (10 s)
    before giving up: more than 15 polls in both. *)
Lemma poll_budget_exceeds_fifteen :
  let quiet := Sim.machine None [] false in
  let r := CookieSession.stepAwaitToken Sim.engine 1 quiet in
  let r' := CredentialLogin.stepAwaitToken Sim.engine 1 quiet in
  (countEvents isSleep (trace r) = 30%nat /\
   sleptMs (trace r) = 15000%Z /\
   outcome r = Throw (newError CookieSession.msgTokenNotCaptured)) /\
  (countEvents isSleep (trace r') = 20%nat /\
   sleptMs (trace r') = 10000%Z /\
   outcome r' = Throw (newError CredentialLogin.msgTokenNotCaptured)) /\
  (15 < 20)%nat.
Proof. cbv zeta. repeat split; try reflexivity. lia. Qed.

(** C5, amended.  Awaiting the token, the controller sets only 500 ms
    timers: at most 30 of them (15 s) in the session-reuse script and at
    most 20 (10 s) in the credential script.  If the slot is still empty
    afterwards, all of them were set and the step throws "Token was not
    captured from network traffic"; otherwise the step completes. *)
Theorem await_token_budget {W : Type} (E : Engine W) (page : Page) (s : HState W) :
  (let r := CookieSession.stepAwaitToken E page s in
   (countEvents isSleep (trace r) <= 30)%nat /\
   forallb onlyPollSleeps (trace r) = true /\
   (sleptMs (trace r) <= 15000)%Z /\
   (truthy (capturedToken (final r)) = false ->
      outcome r = Throw (newError CookieSession.msgTokenNotCaptured) /\
      countEvents isSleep (trace r) = 30%nat) /\
   (truthy (capturedToken (final r)) = true -> outcome r = Return tt))
  /\
  (let r := CredentialLogin.stepAwaitToken E page s in
   (countEvents isSleep (trace r) <= 20)%nat /\
   forallb onlyPollSleeps (trace r) = true /\
   (sleptMs (trace r) <= 10000)%Z /\
   (truthy (capturedToken (final r)) = false ->
      outcome r = Throw (newError CredentialLogin.msgTokenNotCaptured) /\
      countEvents isSleep (trace r) = 20%nat) /\
   (truthy (capturedToken (final r)) = true -> outcome r = Return tt)).
Proof.
  split; cbv zeta.
  - destruct (awaitToken_bounded E CookieSession.onResponse
                cookie_onResponse_returns
                (cookie_onResponse_tame _ _ (fun _ _ => I) chatter_sets_no_timer)
                (cookie_onResponse_tame _ _ (fun _ _ => I) chatter_is_polite)
                page 30 [JsString "[Network] Waiting for token..."]
                CookieSession.msgTokenNotCaptured s)
      as (Hle & Hp & Hms & Hempty & Hfull).
    unfold CookieSession.stepAwaitToken.
    repeat split; auto; try (apply Hempty; assumption).
    rewrite Hms. lia.
  - destruct (awaitToken_bounded E CredentialLogin.onResponse
                credential_onResponse_returns
                (credential_onResponse_tame _ _ (fun _ _ => I) chatter_sets_no_timer)
                (credential_onResponse_tame _ _ (fun _ _ => I) chatter_is_polite)
                page 20 [JsString "[Network] Waiting for token to be captured..."]
                CredentialLogin.msgTokenNotCaptured s)
      as (Hle & Hp & Hms & Hempty & Hfull).
    unfold CredentialLogin.stepAwaitToken.
    repeat split; auto; try (apply Hempty; assumption).
    rewrite Hms. lia.
Qed.

(* ===================================================================== *)
(** ** The process exit contract *)
(* ===================================================================== *)

Lemma store_event_keeps_browser ev :
  isStoreEvent ev = true -> isBrowserClose ev = false.
Proof.
  destruct ev as [level args | ms | A op | r]; simpl; auto; try discriminate.
  destruct op; simpl; auto; discriminate.
Qed.

(** Syntax-directed proof that a script always returns. *)
Ltac returns :=
  repeat
    match goal with
    | |- Returns (bind _ _) => apply Returns_bind; [| intros ?]
    | |- Returns (ret _) => apply Returns_ret
    | |- Returns (console_log _) => apply Returns_emit
    | |- Returns (console_warn _) => apply Returns_emit
    | |- Returns (console_error _) => apply Returns_emit
    | |- Returns (if ?b then _ else _) => destruct b
    end.

Section BrowserStaysOpen.

Context {W : Type} (E : Engine W).
Variable env : Env.
Variable P : Event -> bool.

(** [P] permits every event but a call to [browser.close()]. *)
Hypothesis open_permitted : forall ev, isBrowserClose ev = false -> P ev = true.

Let J : JsValue -> Prop := fun _ => True.

Lemma store_permitted_open : forall ev, isStoreEvent ev = true -> P ev = true.
Proof. intros ev H. apply open_permitted. apply store_event_keeps_browser. exact H. Qed.

Lemma chatter_permitted_open : forall ev, isChatter ev = true -> P ev = true.
Proof. intros ev H. apply store_permitted_open. apply chatter_is_store_event. exact H. Qed.

Lemma cookie_onResponse_open r : Tame J P (@CookieSession.onResponse W r).
Proof.
  apply cookie_onResponse_tame; first [intros; exact I | apply chatter_permitted_open].
Qed.

Lemma credential_onResponse_open r : Tame J P (@CredentialLogin.onResponse W r).
Proof.
  apply credential_onResponse_tame; first [intros; exact I | apply chatter_permitted_open].
Qed.

Lemma saveCookies_open page : Tame J P (CookieSession.saveCookies E page).
Proof. apply saveCookies_tame; [intros; exact I | apply store_permitted_open]. Qed.

Lemma loadCookies_open page : Tame J P (CookieSession.loadCookies E page).
Proof. apply loadCookies_tame; [intros; exact I | apply store_permitted_open]. Qed.

Hint Resolve cookie_onResponse_open credential_onResponse_open
     saveCookies_open loadCookies_open : core.

Lemma getGoogleAuth_open : Tame J P (getGoogleAuth E env).
Proof. unfold getGoogleAuth. tame. Qed.

Hint Resolve getGoogleAuth_open : core.

Lemma updateSheet_open token : Tame J P (updateSheet E env token).
Proof. unfold updateSheet. tame. Qed.

Lemma verifyCookiesValid_open page : Tame J P (CookieSession.verifyCookiesValid E page).
Proof. unfold CookieSession.verifyCookiesValid. tame. Qed.

Lemma cookie_initBrowser_open : Tame J P (CookieSession.initBrowser E env).
Proof. unfold CookieSession.initBrowser. tame. Qed.

Lemma setupCookies_open browser : Tame J P (CookieSession.setupCookies E browser).
Proof. unfold CookieSession.setupCookies. tame. Qed.

Hint Resolve updateSheet_open verifyCookiesValid_open cookie_initBrowser_open
     setupCookies_open : core.

Lemma stepLoadCookies_open page : Tame J P (CookieSession.stepLoadCookies E page).
Proof. unfold CookieSession.stepLoadCookies. tame. Qed.

Lemma cookie_stepNavigate_open page : Tame J P (CookieSession.stepNavigate E page).
Proof. unfold CookieSession.stepNavigate. tame. Qed.

Lemma stepVerify_open page : Tame J P (CookieSession.stepVerify E page).
Proof. unfold CookieSession.stepVerify. tame. Qed.

Lemma stepLogoutLogin_open page : Tame J P (CookieSession.stepLogoutLogin E page).
Proof. unfold CookieSession.stepLogoutLogin. tame. Qed.

Lemma cookie_stepAwaitToken_open page : Tame J P (CookieSession.stepAwaitToken E page).
Proof. unfold CookieSession.stepAwaitToken. tame. Qed.

Lemma stepPersistAndReturn_open page : Tame J P (CookieSession.stepPersistAndReturn E page).
Proof. unfold CookieSession.stepPersistAndReturn. tame. Qed.

Hint Resolve stepLoadCookies_open cookie_stepNavigate_open stepVerify_open
     stepLogoutLogin_open cookie_stepAwaitToken_open stepPersistAndReturn_open : core.

Lemma captureTokenWithCookies_open browser :
  Tame J P (CookieSession.captureTokenWithCookies E browser).
Proof. unfold CookieSession.captureTokenWithCookies. tame. Qed.

Hint Resolve captureTokenWithCookies_open : core.

Lemma autoMode_open browser startTime :
  Tame J P (CookieSession.autoMode E env browser startTime).
Proof. unfold CookieSession.autoMode. tame. Qed.

Hint Resolve autoMode_open : core.

Lemma cookie_mainBody_open startTime : Tame J P (CookieSession.mainBody E env startTime).
Proof. unfold CookieSession.mainBody. tame. Qed.

Lemma credential_initBrowser_open : Tame J P (CredentialLogin.initBrowser E).
Proof. unfold CredentialLogin.initBrowser. tame. Qed.

Lemma credential_stepNavigate_open page : Tame J P (CredentialLogin.stepNavigate E page).
Proof. unfold CredentialLogin.stepNavigate. tame. Qed.

Lemma stepLogout_open page : Tame J P (CredentialLogin.stepLogout E page).
Proof. unfold CredentialLogin.stepLogout. tame. Qed.

Lemma stepLogin_open page : Tame J P (CredentialLogin.stepLogin E env page).
Proof. unfold CredentialLogin.stepLogin. tame. Qed.

Lemma credential_stepAwaitToken_open page : Tame J P (CredentialLogin.stepAwaitToken E page).
Proof. unfold CredentialLogin.stepAwaitToken. tame. Qed.

Lemma stepValidateAndReturn_open : Tame J P (@CredentialLogin.stepValidateAndReturn W).
Proof. unfold CredentialLogin.stepValidateAndReturn. tame. Qed.

Hint Resolve credential_initBrowser_open credential_stepNavigate_open stepLogout_open
     stepLogin_open credential_stepAwaitToken_open stepValidateAndReturn_open : core.

Lemma captureToken_open browser : Tame J P (CredentialLogin.captureToken E env browser).
Proof. unfold CredentialLogin.captureToken. tame. Qed.

Hint Resolve captureToken_open : core.

Lemma credential_mainBody_open startTime :
  Tame J P (CredentialLogin.mainBody E env startTime).
Proof. unfold CredentialLogin.mainBody. tame. Qed.

Lemma cookie_reportFailure_open e : Tame J P (@CookieSession.reportFailure W e).
Proof. unfold CookieSession.reportFailure. tame. Qed.

Lemma credential_reportFailure_open e : Tame J P (@CredentialLogin.reportFailure W e).
Proof. unfold CredentialLogin.reportFailure. tame. Qed.

End BrowserStaysOpen.

Lemma cookie_reportFailure_returns {W : Type} e :
  Returns (@CookieSession.reportFailure W e).
Proof. unfold CookieSession.reportFailure. returns. Qed.

Lemma credential_reportFailure_returns {W : Type} e :
  Returns (@CredentialLogin.reportFailure W e).
Proof. unfold CredentialLogin.reportFailure. returns. Qed.

Section ExitHarness.

Context {W : Type}.
Variable P : Event -> bool.
Variable body : M W unit.
Variable report : JsError -> M W unit.
Variable cleanup : M W unit.
Hypothesis body_tame : Tame (fun _ => True) P body.
Hypothesis report_tame : forall e, Tame (fun _ => True) P (report e).
Hypothesis report_returns : forall e, Returns (report e).

(** [try { body; process.exit(0) } catch (e) { report(e); process.exit(1) }
    finally { cleanup }]: the process ends in the [try] or in the [catch]
    block, so the [finally] block never runs. *)
Lemma exit_harness s :
  let r := tryFinally
             (tryCatch (body ;; process_exit 0)
                       (fun e => report e ;; process_exit 1))
             cleanup s in
  ((exists u, outcome (body s) = Return u) -> outcome r = Exit (A := unit) 0) /\
  ((exists e, outcome (body s) = Throw e) -> outcome r = Exit 1) /\
  (exists c, outcome r = Exit c /\ (c = 0 \/ c = 1)%Z) /\
  forallb P (trace r) = true /\
  (forall e, outcome (body s) = Throw e ->
     trace r = trace (body s) ++ trace (report e (final (body s)))).
Proof.
  cbv zeta. destruct (body_tame s I) as (_ & HP & HX).
  unfold tryFinally, tryCatch, bind.
  destruct (body s) as [[u | e | c] s1 t]; cbn [outcome final trace] in *.
  - cbn [process_exit after]. cbn [outcome trace]. rewrite app_nil_r.
    repeat split; auto.
    + intros [e He]. discriminate.
    + exists 0%Z. auto.
    + intros e He. discriminate.
  - destruct (report_returns e s1) as [u Hu].
    destruct (report_tame e s1 I) as (_ & HP' & _).
    destruct (report e s1) as [o s2 t2] eqn:Hrep. cbn [outcome final trace] in *. subst o.
    cbn [process_exit after]. cbn [outcome trace].
    rewrite app_nil_r, forallb_app, HP, HP'.
    repeat split; auto.
    + intros [u' Hu']. discriminate.
    + exists 1%Z. auto.
    + intros e' He'. injection He' as <-. rewrite Hrep. reflexivity.
  - exfalso. exact (HX c eq_refl).
Qed.

End ExitHarness.

Lemma countEvents_forbidden f t :
  forallb (fun ev => negb (f ev)) t = true -> countEvents f t = 0%nat.
Proof. apply countEvents_none. Qed.

Lemma bind_dateNow {W : Type} (E : Engine W) {B} (k : Z -> M W B) s :
  bind (dateNow E) k s = k (clock E (world s)) s.
Proof. unfold bind. cbn [dateNow]. apply after_nil. Qed.

Lemma bind_dateIso {W : Type} (E : Engine W) {B} (k : string -> M W B) s :
  bind (dateIso E) k s = k (isoString E (clock E (world s))) s.
Proof. unfold bind. cbn [dateIso]. apply after_nil. Qed.

(** Chatter satisfies every predicate that permits chatter. *)
Lemma forallb_chatter (P : Event -> bool) (t : list Event) :
  (forall ev, isChatter ev = true -> P ev = true) ->
  forallb isChatter t = true -> forallb P t = true.
Proof.
  intros HP. induction t as [| ev t IH]; [reflexivity |].
  cbn [forallb]. intros H. apply andb_true_iff in H. destruct H as [H1 H2].
  rewrite (HP ev H1), (IH H2). reflexivity.
Qed.

Lemma chatter_keeps_browser ev : isChatter ev = true -> negb (isBrowserClose ev) = true.
Proof. destruct ev; simpl; intros H; try reflexivity; discriminate. Qed.

(** [main] is its banner followed by the [try]/[catch]/[finally]
    statement. *)
Lemma cookie_main_run {W : Type} (E : Engine W) (env : Env) (s : HState W) :
  exists banner,
    forallb isChatter banner = true /\
    CookieSession.main E env s =
      after banner
            (tryFinally
               (tryCatch (CookieSession.mainBody E env (clock E (world s)) ;;
                          process_exit 0)
                         (fun e => CookieSession.reportFailure e ;; process_exit 1))
               (CookieSession.cleanup E) s).
Proof.
  eexists. split.
  2:{ unfold CookieSession.main.
      rewrite bind_dateNow, !bind_console_log, bind_dateIso, !bind_console_log.
      rewrite !after_after. reflexivity. }
  reflexivity.
Qed.

Lemma credential_main_run {W : Type} (E : Engine W) (env : Env) (s : HState W) :
  exists banner,
    forallb isChatter banner = true /\
    CredentialLogin.main E env s =
      after banner
            (tryFinally
               (tryCatch (CredentialLogin.mainBody E env (clock E (world s)) ;;
                          process_exit 0)
                         (fun e => CredentialLogin.reportFailure e ;; process_exit 1))
               (CredentialLogin.cleanup E) s).
Proof.
  eexists. split.
  2:{ unfold CredentialLogin.main.
      rewrite bind_dateNow, !bind_console_log, bind_dateIso, !bind_console_log.
      rewrite !after_after. reflexivity. }
  reflexivity.
Qed.

(** C6, as the code has it.  Every run of [main] ends the process with
    exit code 0 (when the [try] block completed) or 1 (when it threw) --
    and in both scripts it does so without ever calling
    [browser.close()]: [process.exit] runs inside [try] and [catch], so
    the [finally] block that would close the browser is never reached. *)
Theorem main_exits_without_closing_browser {W : Type} (E : Engine W) (env : Env)
        (s : HState W) :
  (let r := CookieSession.main E env s in
   (exists c, outcome r = Exit c /\ (c = 0 \/ c = 1)%Z) /\
   ((exists u, outcome (CookieSession.mainBody E env (clock E (world s)) s) = Return u)
      -> outcome r = Exit 0) /\
   ((exists e, outcome (CookieSession.mainBody E env (clock E (world s)) s) = Throw e)
      -> outcome r = Exit 1) /\
   countEvents isBrowserClose (trace r) = 0%nat)
  /\
  (let r := CredentialLogin.main E env s in
   (exists c, outcome r = Exit c /\ (c = 0 \/ c = 1)%Z) /\
   ((exists u, outcome (CredentialLogin.mainBody E env (clock E (world s)) s) = Return u)
      -> outcome r = Exit 0) /\
   ((exists e, outcome (CredentialLogin.mainBody E env (clock E (world s)) s) = Throw e)
      -> outcome r = Exit 1) /\
   countEvents isBrowserClose (trace r) = 0%nat).
Proof.
  set (P := fun ev => negb (isBrowserClose ev)).
  assert (HP : forall ev, isBrowserClose ev = false -> P ev = true)
    by (intros ev H; unfold P; rewrite H; reflexivity).
  split; cbv zeta.
  - destruct (exit_harness P (CookieSession.mainBody E env (clock E (world s)))
                (@CookieSession.reportFailure W) (CookieSession.cleanup E)
                (cookie_mainBody_open E env P HP _)
                (cookie_reportFailure_open P HP)
                cookie_reportFailure_returns s) as (H0 & H1 & Hc & Ht & _).
    destruct (cookie_main_run E env s) as (banner & Hb & Hrun).
    rewrite Hrun, outcome_after, trace_after.
    repeat split; auto.
    apply countEvents_none. rewrite forallb_app. unfold P in Ht.
    rewrite (forallb_chatter _ banner chatter_keeps_browser Hb), Ht. reflexivity.
  - destruct (exit_harness P (CredentialLogin.mainBody E env (clock E (world s)))
                (@CredentialLogin.reportFailure W) (CredentialLogin.cleanup E)
                (credential_mainBody_open E env P HP _)
                (credential_reportFailure_open P HP)
                credential_reportFailure_returns s) as (H0 & H1 & Hc & Ht & _).
    destruct (credential_main_run E env s) as (banner & Hb & Hrun).
    rewrite Hrun, outcome_after, trace_after.
    repeat split; auto.
    apply countEvents_none. rewrite forallb_app. unfold P in Ht.
    rewrite (forallb_chatter _ banner chatter_keeps_browser Hb), Ht. reflexivity.
Qed.

(** C6 at a concrete run: an unattended run in which every step
    succeeds.  The browser was launched and is still referenced by
    [main]'s variable when the process exits with code 0; it was never
    closed. *)
Example successful_run_leaves_browser_open :
  let r := CookieSession.main Sim.engine Sim.autoEnv
             (Sim.machine (Some (CJArray [Sim.sessionCookie (Some (1800000000 # 1)%Q)]))
                          [Sim.tokenResponse "eyJhbGciOi.eyJzdWIi.c2ln"] false) in
  outcome r = Exit 0 /\
  browserVar (final r) = Some 1%nat /\
  countEvents isBrowserClose (trace r) = 0%nat /\
  countEvents (fun ev => match ev with EvExt (PuppeteerLaunch _) => true | _ => false end)
              (trace r) = 1%nat.
Proof. cbv zeta. repeat split; reflexivity. Qed.

(* ===================================================================== *)
(** ** Session Store: the expiry filter *)
(* ===================================================================== *)

Lemma Qltb_lt (x y : Q) : Qltb x y = true <-> (x < y)%Q.
Proof.
  unfold Qltb. rewrite negb_true_iff. split.
  - intros H. apply Qnot_le_lt. intros Hle. apply Qle_bool_iff in Hle. congruence.
  - intros H. destruct (Qle_bool y x) eqn:Hb; [| reflexivity].
    apply Qle_bool_iff in Hb. exfalso. exact (Qlt_not_le _ _ H Hb).
Qed.

(** The filter callback follows the rule of [KeepRule]. *)
Lemma cookieExpired_rule (now : Q) (cookie : Cookie) :
  CookieSession.cookieExpired now cookie = false <-> KeepRule now cookie.
Proof.
  unfold CookieSession.cookieExpired, KeepRule.
  destruct (expires cookie) as [e |].
  - cbn [truthy]. split.
    + intros H. right. exists e. split; [reflexivity |].
      apply andb_false_iff in H. destruct H as [H | H].
      * left. apply negb_false_iff in H. apply Qeq_bool_iff. exact H.
      * right. intros Hlt. apply Qltb_lt in Hlt. congruence.
    + intros [H | (e' & He & H)]; [discriminate |].
      inversion He; subst e'. apply andb_false_iff. destruct H as [H | H].
      * left. apply negb_false_iff. apply Qeq_bool_iff. exact H.
      * right. destruct (Qltb e now) eqn:Hb; [| reflexivity].
        exfalso. apply H. apply Qltb_lt. exact Hb.
  - split; [intros _; left; reflexivity | reflexivity].
Qed.

(** The callback is the spec's "expired" test restricted to records whose
    [expires] is not zero. *)
Lemma cookieExpired_split (now : Q) (cookie : Cookie) :
  CookieSession.cookieExpired now cookie =
    expiresInPast now cookie && expiresNonZero cookie.
Proof.
  unfold CookieSession.cookieExpired, expiresInPast, expiresNonZero.
  destruct (expires cookie) as [e |]; [| reflexivity].
  cbn [truthy]. apply andb_comm.
Qed.

(** [filterCookies] is [filter] with console lines: it returns the records
    the callback does not reject, in order, and changes nothing. *)
Lemma filterCookies_run {W : Type} (now : Q) (cookies : list Cookie) (s : HState W) :
  exists t,
    CookieSession.filterCookies now cookies s =
      mkRun (Return (filter (fun c => negb (CookieSession.cookieExpired now c)) cookies))
            s t /\
    forallb isChatter t = true.
Proof.
  induction cookies as [| c rest IH]; cbn [CookieSession.filterCookies filter].
  - exists []. split; reflexivity.
  - destruct IH as (t & Hrun & Ht).
    destruct (CookieSession.cookieExpired now c); cbn [negb].
    + eexists. split.
      * unfold bind. cbn [console_log emit ret after]. rewrite Hrun.
        cbn [after ret]. reflexivity.
      * cbn. rewrite app_nil_r. exact Ht.
    + eexists. split.
      * unfold bind. cbn [ret after]. rewrite Hrun. cbn [after ret]. reflexivity.
      * cbn. rewrite app_nil_r. exact Ht.
Qed.

(** C10. The expiry filter keeps a record exactly when its [expires] is
    absent, is zero, or is not less than the load time; with a load time
    that is not before the epoch, it drops every record whose [expires] is
    negative (the session-cookie sentinel [-1] among them) and keeps every
    record whose [expires] is zero. *)
Theorem expiry_filter_rule {W : Type} (now : Q) (cookies : list Cookie)
        (s : HState W) :
  (0 <= now)%Q ->
  exists kept,
    outcome (CookieSession.filterCookies now cookies s) = Return kept /\
    (forall c, In c kept <-> In c cookies /\ KeepRule now c) /\
    (forall c e, In c cookies -> expires c = Some e -> (e < 0)%Q -> ~ In c kept) /\
    (forall c e, In c cookies -> expires c = Some e -> (e == 0)%Q -> In c kept).
Proof.
  intros Hnow. destruct (filterCookies_run now cookies s) as (t & Hrun & _).
  exists (filter (fun c => negb (CookieSession.cookieExpired now c)) cookies).
  rewrite Hrun. split; [reflexivity |].
  assert (Hkept : forall c,
             In c (filter (fun c => negb (CookieSession.cookieExpired now c)) cookies)
             <-> In c cookies /\ KeepRule now c).
  { intros c. rewrite filter_In, negb_true_iff, cookieExpired_rule. reflexivity. }
  split; [exact Hkept | split].
  - intros c e Hin He Hneg Hk. apply Hkept in Hk. destruct Hk as [_ [Hnone | (e' & He' & Hr)]].
    + congruence.
    + rewrite He in He'. inversion He'; subst e'. destruct Hr as [Hz | Hge].
      * rewrite Hz in Hneg. exact (Qlt_irrefl _ Hneg).
      * apply Hge. exact (Qlt_le_trans _ _ _ Hneg Hnow).
  - intros c e Hin He Hz. apply Hkept. split; [exact Hin |].
    right. exists e. split; [exact He | left; exact Hz].
Qed.

(** A load at 2023-11-14T22:13:20Z of a session cookie ([-1]), a record
    with [expires] 0, an expired record and a live one. *)
Lemma expiry_filter_rule_witness :
  exists kept,
    outcome (CookieSession.filterCookies (1700000000 # 1)
               [Sim.sessionCookie (Some (-1 # 1)%Q); Sim.sessionCookie (Some (0 # 1)%Q);
                Sim.sessionCookie (Some (1600000000 # 1)%Q);
                Sim.sessionCookie (Some (1800000000 # 1)%Q)]
               Sim.idle) = Return kept /\
    kept = [Sim.sessionCookie (Some (0 # 1)%Q); Sim.sessionCookie (Some (1800000000 # 1)%Q)].
Proof.
  destruct (expiry_filter_rule (1700000000 # 1)
              [Sim.sessionCookie (Some (-1 # 1)%Q); Sim.sessionCookie (Some (0 # 1)%Q);
               Sim.sessionCookie (Some (1600000000 # 1)%Q);
               Sim.sessionCookie (Some (1800000000 # 1)%Q)]
              Sim.idle) as (kept & Hrun & _).
  - unfold Qle. simpl. lia.
  - exists kept. split; [exact Hrun |].
    cbn in Hrun. inversion Hrun. reflexivity.
Defined.

(* ===================================================================== *)
(** ** Session Store: [load] *)
(* ===================================================================== *)

Lemma chatter_sets_no_cookie t :
  forallb isChatter t = true -> filter isSetCookie t = [].
Proof.
  induction t as [| ev t IH]; [reflexivity |].
  cbn [forallb filter]. intros H. apply andb_true_iff in H. destruct H as [H1 H2].
  destruct ev; try discriminate; cbn [isSetCookie]; exact (IH H2).
Qed.

Lemma filter_partition_length {X} (f : X -> bool) (l : list X) :
  (List.length (filter (fun x => negb (f x)) l) =
   List.length l - List.length (filter f l))%nat.
Proof.
  induction l as [| x l IH]; [reflexivity |].
  cbn [filter List.length]. pose proof (filter_length_le f l) as Hle.
  destruct (f x); cbn [negb List.length]; lia.
Qed.

Section Load.

Context {W : Type} (E : Engine W).

Lemma cookie_deliver_chatter p (s : HState W) :
  forallb isChatter (trace (deliver E CookieSession.onResponse p s)) = true.
Proof.
  apply (Tame_deliver E (fun _ => True) isChatter (fun _ => eq_refl)
           CookieSession.onResponse
           (cookie_onResponse_tame _ isChatter (fun _ _ => I) (fun _ H => H)) p s I).
Qed.

(** An awaited call to a collaborator: the call, then the listener's
    chatter. *)
Lemma await_ext_run {A} (op : Op A) p (s : HState W) :
  exists s' td,
    awaitOn E CookieSession.onResponse p (ext E op) s =
      mkRun (outcome (ext E op s)) s' (EvExt op :: td) /\
    forallb isChatter td = true.
Proof.
  rewrite (awaitOn_run E CookieSession.onResponse cookie_onResponse_returns p
             (ext E op) s).
  - exists (final (deliver E CookieSession.onResponse p (final (ext E op s)))),
           (trace (deliver E CookieSession.onResponse p (final (ext E op s)))).
    split; [| apply cookie_deliver_chatter].
    f_equal. unfold ext. destruct (perform E op (world s)). reflexivity.
  - intros c. unfold ext. destruct (perform E op (world s)) as [[a | e] w]; discriminate.
Qed.

End Load.

(** C3, refuted as stated.  A session file with one record whose
    [expires] is 0, the epoch, which is in the past at load time: N = 1
    and K = 1, yet [load] returns [true] and installs the record. *)
Lemma load_installs_record_expired_at_epoch :
  let stored := [Sim.sessionCookie (Some (0 # 1)%Q)] in
  let s := Sim.machine (Some (CJArray stored)) [] false in
  let now := jsDivide (clock Sim.engine (world s)) 1000 in
  let r := CookieSession.loadCookies Sim.engine 1 s in
  List.length stored = 1%nat /\
  List.length (filter (expiresInPast now) stored) = 1%nat /\
  outcome r = Return true /\
  filter isSetCookie (trace r) = [EvExt (PageSetCookie 1 stored)] /\
  Sim.jar (world (final r)) = stored.
Proof. cbv zeta. repeat split; reflexivity. Qed.

(** A call to a collaborator resolves or rejects; it never ends the
    process. *)
Lemma ext_no_exit {W : Type} (E : Engine W) {A} (op : Op A) (s : HState W) :
  forall c, outcome (ext E op s) <> Exit c.
Proof.
  intros c. unfold ext. destruct (perform E op (world s)) as [[a | e] w]; discriminate.
Qed.

(** Evaluation of the straight-line parts of [loadCookies]. *)
Ltac load_steps :=
  cbn [after ret throw console_warn console_log console_error emit negb dateNow
       outcome final trace].

(** A trace made of file-system calls and chatter installs no cookie. *)
Ltac no_cookie :=
  repeat rewrite filter_app;
  cbn [filter isSetCookie app];
  repeat (rewrite chatter_sets_no_cookie by assumption);
  reflexivity.

Ltac load_done := first [solve [eauto] | solve [no_cookie]].

(** C3, amended.  [load] never throws.  It returns [false] and installs
    nothing when the file cannot be accessed, when it holds [null] or an
    empty list, or when every record is dropped.  Of the N records of a
    stored list it drops the K whose [expires] is in the past at load time
    and is not zero, and hands the N-K survivors, in order, to the
    browsing context in one call; when that call succeeds, it returns
    [true].  The load time is the number [Date.now() / 1000] that the
    script computes: the quotient rounded as a division of numbers is. *)
Theorem loadCookies_contract {W : Type} (E : Engine W) (page : Page) (s : HState W) :
  let file := CookieSession.CONFIG_cookies_filePath in
  let access := awaitOn E CookieSession.onResponse page (ext E (FsAccess file)) s in
  let read := awaitOn E CookieSession.onResponse page (ext E (FsReadCookies file))
                      (final access) in
  let now := jsDivide (clock E (world (final read))) 1000 in
  let r := CookieSession.loadCookies E page s in
  (exists b, outcome r = Return b) /\
  ((exists e, outcome access = Throw e) ->
     outcome r = Return false /\ filter isSetCookie (trace r) = []) /\
  (outcome access = Return tt -> outcome read = Return CJNull ->
     outcome r = Return false /\ filter isSetCookie (trace r) = []) /\
  (forall cookies,
     outcome access = Return tt -> outcome read = Return (CJArray cookies) ->
     let expired := filter (fun c => expiresInPast now c && expiresNonZero c) cookies in
     let survivors :=
       filter (fun c => negb (expiresInPast now c && expiresNonZero c)) cookies in
     let install := awaitOn E CookieSession.onResponse page
                            (ext E (PageSetCookie page survivors)) (final read) in
     (List.length survivors = List.length cookies - List.length expired)%nat /\
     (List.length survivors = 0%nat ->
        outcome r = Return false /\ filter isSetCookie (trace r) = []) /\
     ((List.length survivors > 0)%nat ->
        filter isSetCookie (trace r) = [EvExt (PageSetCookie page survivors)] /\
        (outcome install = Return tt -> outcome r = Return true))).
Proof.
  cbv zeta.
  destruct (await_ext_run E (FsAccess CookieSession.CONFIG_cookies_filePath) page s)
    as (s1 & t1 & Hacc & Ht1).
  rewrite Hacc. cbn [final outcome].
  destruct (await_ext_run E (FsReadCookies CookieSession.CONFIG_cookies_filePath) page s1)
    as (s2 & t2 & Hread & Ht2).
  rewrite Hread. cbn [final outcome].
  unfold CookieSession.loadCookies.
  cbv beta delta [tryCatch bind]. rewrite Hacc.
  pose proof (ext_no_exit E (FsAccess CookieSession.CONFIG_cookies_filePath) s) as Hx1.
  destruct (outcome (ext E (FsAccess CookieSession.CONFIG_cookies_filePath) s))
    as [[] | e1 | c1]; [| | exfalso; exact (Hx1 c1 eq_refl)].
  2:{ load_steps. repeat split; intros; try discriminate; load_done. }
  load_steps. rewrite Hread.
  pose proof (ext_no_exit E (FsReadCookies CookieSession.CONFIG_cookies_filePath) s1)
    as Hx2.
  destruct (outcome (ext E (FsReadCookies CookieSession.CONFIG_cookies_filePath) s1))
    as [[| cookies] | e2 | c2]; [| | | exfalso; exact (Hx2 c2 eq_refl)].
  - load_steps. repeat split; intros; try discriminate; load_done.
  - load_steps. set (now := jsDivide (clock E (world s2)) 1000).
    assert (Hsurv : filter (fun c => negb (expiresInPast now c && expiresNonZero c)) cookies
                    = filter (fun c => negb (CookieSession.cookieExpired now c)) cookies).
    { apply filter_ext. intros c. rewrite cookieExpired_split. reflexivity. }
    destruct (Nat.eqb (List.length cookies) 0) eqn:Hlen.
    + apply Nat.eqb_eq in Hlen. destruct cookies as [| c0 cookies]; [| discriminate].
      load_steps.
      split; [eauto |]. split; [intros [e He]; discriminate |].
      split; [intros _ Hn; discriminate |].
      intros cookies0 _ Heq. inversion Heq; subst cookies0. cbn [filter List.length].
      repeat split; intros; try lia; load_done.
    + destruct (filterCookies_run now cookies s2) as (tf & Hf & Htf).
      load_steps. fold now. rewrite Hf.
      destruct (Nat.eqb (List.length
                  (filter (fun c => negb (CookieSession.cookieExpired now c)) cookies)) 0)
        eqn:Hv.
      * apply Nat.eqb_eq in Hv. load_steps.
        split; [eauto |]. split; [intros [e He]; discriminate |].
        split; [intros _ Hn; discriminate |].
        intros cookies0 _ Heq. inversion Heq; subst cookies0. rewrite Hsurv.
        split; [rewrite <- Hsurv; apply filter_partition_length |].
        split; [intros _; split; [reflexivity | no_cookie] | intros Hpos; lia].
      * apply Nat.eqb_neq in Hv.
        destruct (await_ext_run E
                    (PageSetCookie page
                       (filter (fun c => negb (CookieSession.cookieExpired now c)) cookies))
                    page s2) as (s3 & t3 & Hset & Ht3).
        load_steps. rewrite Hset.
        pose proof (ext_no_exit E
                      (PageSetCookie page
                         (filter (fun c => negb (CookieSession.cookieExpired now c))
                                 cookies)) s2) as Hx3.
        destruct (outcome
                    (ext E
                       (PageSetCookie page
                          (filter (fun c => negb (CookieSession.cookieExpired now c))
                                  cookies)) s2))
          as [[] | e3 | c3] eqn:Ho3; [| | exfalso; exact (Hx3 c3 eq_refl)]; load_steps.
        -- split; [eauto |]. split; [intros [e He]; discriminate |].
           split; [intros _ Hn; discriminate |].
           intros cookies0 _ Heq. inversion Heq; subst cookies0. rewrite Hsurv.
           split; [rewrite <- Hsurv; apply filter_partition_length |].
           split; [intros Hz; exfalso; exact (Hv Hz) |].
           intros _. split; [no_cookie | reflexivity].
        -- split; [eauto |]. split; [intros [e He]; discriminate |].
           split; [intros _ Hn; discriminate |].
           intros cookies0 _ Heq. inversion Heq; subst cookies0. rewrite Hsurv.
           split; [rewrite <- Hsurv; apply filter_partition_length |].
           split; [intros Hz; exfalso; exact (Hv Hz) |].
           intros _. split; [no_cookie |].
           intros Hn. rewrite Hset in Hn. cbn [outcome] in Hn. discriminate.
  - load_steps. repeat split; intros; try discriminate; load_done.
Qed.

(* ===================================================================== *)
(** ** Login-state verification *)
(* ===================================================================== *)

Lemma isLoggedInScript_rule (d : Dom) :
  CookieSession.isLoggedInScript d = Done (loginRule d).
Proof.
  unfold CookieSession.isLoggedInScript, loginRule, querySelector.
  cbn [forallb validCss logoutSelectors userMenuSelectors andb existsb].
  rewrite !orb_false_r. reflexivity.
Qed.

Section Verification.

Context {W : Type} (E : Engine W).

(** An awaited timer. *)
Lemma await_sleep_run ms p (s : HState W) :
  exists s' td,
    awaitOn E CookieSession.onResponse p (sleep E ms) s =
      mkRun (Return tt) s' (EvSleep ms :: td) /\
    world s' = world (final (deliver E CookieSession.onResponse p (slept E ms s))) /\
    forallb isChatter td = true.
Proof.
  rewrite (awaitOn_run E CookieSession.onResponse cookie_onResponse_returns p
             (sleep E ms) s); [| intros c; discriminate].
  eexists. eexists. split; [reflexivity |]. split; [reflexivity |].
  apply cookie_deliver_chatter.
Qed.

(** The in-page check of [verifyCookiesValid], run by [page.evaluate]. *)
Lemma evaluate_isLoggedIn_run page (s : HState W) :
  evaluate E page CookieSession.isLoggedInScript s =
    mkRun (match fst (perform E (PageEvaluate page) (world s)) with
           | Ok d => Return (loginRule d)
           | Err e => Throw e
           end)
          (setWorld (snd (perform E (PageEvaluate page) (world s))) s)
          [EvExt (PageEvaluate page)].
Proof.
  unfold evaluate, bind, ext.
  destruct (perform E (PageEvaluate page) (world s)) as [[d | e] w]; cbn [fst snd].
  - rewrite isLoggedInScript_rule. reflexivity.
  - reflexivity.
Qed.

Lemma verifyCookiesValid_cases (page : Page) (s : HState W) :
  let nav := awaitOn E CookieSession.onResponse page
                     (ext E (PageGoto page CONFIG_portal_url CONFIG_timeouts_navigation)) s in
  let settle := awaitOn E CookieSession.onResponse page (sleep E 2000) (final nav) in
  let r := CookieSession.verifyCookiesValid E page s in
  (exists b, outcome r = Return b) /\
  ((exists e, outcome nav = Throw e) -> outcome r = Return false) /\
  (forall d w', outcome nav = Return tt ->
     perform E (PageEvaluate page) (world (final settle)) = (Ok d, w') ->
     outcome r = Return (loginRule d)) /\
  (forall e w', outcome nav = Return tt ->
     perform E (PageEvaluate page) (world (final settle)) = (Err e, w') ->
     outcome r = Return false).
Proof.
  cbv zeta.
  destruct (await_ext_run E (PageGoto page CONFIG_portal_url CONFIG_timeouts_navigation)
              page s) as (s1 & t1 & Hnav & Ht1).
  rewrite Hnav. cbn [final outcome].
  destruct (await_sleep_run 2000 page s1) as (s2 & t2 & Hsettle & _ & Ht2).
  rewrite Hsettle. cbn [final outcome].
  unfold CookieSession.verifyCookiesValid.
  cbv beta delta [tryCatch bind]. rewrite Hnav.
  pose proof (ext_no_exit E (PageGoto page CONFIG_portal_url CONFIG_timeouts_navigation) s)
    as Hx1.
  destruct (outcome (ext E (PageGoto page CONFIG_portal_url CONFIG_timeouts_navigation) s))
    as [[] | e1 | c1]; [| | exfalso; exact (Hx1 c1 eq_refl)].
  2:{ load_steps. repeat split; intros; try discriminate; eauto. }
  load_steps. rewrite Hsettle. load_steps.
  rewrite (awaitOn_run E CookieSession.onResponse cookie_onResponse_returns page
             (evaluate E page CookieSession.isLoggedInScript) s2).
  2:{ intros c. rewrite evaluate_isLoggedIn_run.
      destruct (fst (perform E (PageEvaluate page) (world s2))); discriminate. }
  rewrite evaluate_isLoggedIn_run. cbn [outcome final trace].
  destruct (perform E (PageEvaluate page) (world s2)) as [[d | e] w] eqn:Hp;
    cbn [fst snd]; load_steps.
  - split; [eauto |]. split; [intros [e He]; discriminate |].
    split.
    + intros d0 w0 _ Heq. inversion Heq. reflexivity.
    + intros e0 w0 _ Heq. discriminate.
  - split; [eauto |]. split; [intros [e0 He]; discriminate |].
    split.
    + intros d0 w0 _ Heq. discriminate.
    + intros e0 w0 _ Heq. reflexivity.
Qed.

End Verification.

(** C8. The in-page check reports logged-in exactly when a logout control
    or a user-menu element matches and no password field does; a password
    field makes it report not-logged-in whatever else matches.
    [verifyCookiesValid] never throws: it returns the verdict of the check
    on the document the page shows once the navigation has settled, and
    [false] when the navigation or the evaluation fails. *)
Theorem login_verification_precedence {W : Type} (E : Engine W) (page : Page)
        (s : HState W) :
  (forall d, CookieSession.isLoggedInScript d = Done true <->
             (existsb d logoutSelectors = true \/ existsb d userMenuSelectors = true)
             /\ d SelPasswordType = false) /\
  (forall d, d SelPasswordType = true -> CookieSession.isLoggedInScript d = Done false) /\
  (let nav := awaitOn E CookieSession.onResponse page
                      (ext E (PageGoto page CONFIG_portal_url CONFIG_timeouts_navigation)) s in
   let settle := awaitOn E CookieSession.onResponse page (sleep E 2000) (final nav) in
   let r := CookieSession.verifyCookiesValid E page s in
   (exists b, outcome r = Return b) /\
   ((exists e, outcome nav = Throw e) -> outcome r = Return false) /\
   (forall d w', outcome nav = Return tt ->
      perform E (PageEvaluate page) (world (final settle)) = (Ok d, w') ->
      outcome r = Return (loginRule d)) /\
   (forall e w', outcome nav = Return tt ->
      perform E (PageEvaluate page) (world (final settle)) = (Err e, w') ->
      outcome r = Return false)).
Proof.
  split; [| split].
  - intros d. rewrite isLoggedInScript_rule. unfold loginRule. split.
    + intros H. injection H as Hb. apply andb_true_iff in Hb. destruct Hb as [H1 H2].
      apply orb_true_iff in H1. apply negb_true_iff in H2. split; assumption.
    + intros [H1 H2]. apply orb_true_iff in H1. rewrite H1, H2. reflexivity.
  - intros d Hd. rewrite isLoggedInScript_rule. unfold loginRule.
    rewrite Hd, andb_false_r. reflexivity.
  - apply verifyCookiesValid_cases.
Qed.

(** A stale logout control next to a login form: not logged in. *)
Example stale_logout_indicator_is_overridden :
  let d : Dom := fun sel =>
    match sel with
    | SelLogoutClass | SelPasswordType | SelEmailType => true
    | _ => false
    end in
  existsb d logoutSelectors = true /\
  CookieSession.isLoggedInScript d = Done false /\
  CredentialLogin.isLoggedInScript d = Done true.
Proof. cbv zeta. repeat split; reflexivity. Qed.

(* ===================================================================== *)
(** ** Re-persisting the session after capture *)
(* ===================================================================== *)

Section Persist.

Context {W : Type} (E : Engine W).

(** [saveCookies] reports failure by its result, never by an exception. *)
Lemma saveCookies_returns page : Returns (CookieSession.saveCookies E page).
Proof.
  unfold CookieSession.saveCookies. apply Returns_tryCatch.
  - intros s c.
    pose proof (saveCookies_tame E (fun _ => True) (fun _ => true)
                  (fun _ _ => I) (fun _ _ => eq_refl) page s I) as (_ & _ & HX).
    unfold CookieSession.saveCookies in HX. intros Hc.
    apply (HX c). rewrite (tryCatch_Exit _ _ s c Hc). exact Hc.
  - intros e. returns.
Qed.

(** A captured token stays captured while the session is saved: the
    listener may replace it, but only with another token. *)
Lemma saveCookies_keeps_token page (s : HState W) :
  truthy (capturedToken s) = true ->
  truthy (capturedToken (final (CookieSession.saveCookies E page s))) = true.
Proof.
  intros H.
  exact (proj1 (saveCookies_tame E (fun v => truthy v = true) (fun _ => true)
                  (fun _ Hv => Hv) (fun _ _ => eq_refl) page s H)).
Qed.

Lemma stepPersistAndReturn_run page (s : HState W) :
  let saved := CookieSession.saveCookies E page s in
  let r := CookieSession.stepPersistAndReturn E page s in
  final r = final saved /\
  outcome r = match validateToken (capturedToken (final saved)) with
              | Ok _ => Return (capturedToken (final saved))
              | Err e => Throw e
              end.
Proof.
  cbv zeta. unfold CookieSession.stepPersistAndReturn.
  rewrite bind_console_log.
  destruct (saveCookies_returns page s) as [b Hb].
  rewrite (bind_Return _ _ s b Hb), bind_getCapturedToken, after_after.
  rewrite final_after, outcome_after.
  unfold bind, liftResult.
  destruct (validateToken (capturedToken (final (CookieSession.saveCookies E page s))));
    cbn; split; reflexivity.
Qed.

End Persist.

(** C9. In the session-reuse flow the result of [saveCookies] is dropped:
    the call always returns (with [false] when the save failed), a token
    captured before it is still captured after it, and the attempt's last
    step then ends as the validation of the captured token decides --
    with that token when it is well-formed -- whatever the save returned.
    In the simulated run the disk is full: the save fails, and the attempt
    still returns the token. *)
Theorem persistence_failure_is_ignored {W : Type} (E : Engine W) (page : Page)
        (s : HState W) :
  (let saved := CookieSession.saveCookies E page s in
   let r := CookieSession.stepPersistAndReturn E page s in
   (exists b, outcome saved = Return b) /\
   (truthy (capturedToken s) = true -> truthy (capturedToken (final saved)) = true) /\
   final r = final saved /\
   outcome r = match validateToken (capturedToken (final saved)) with
               | Ok _ => Return (capturedToken (final saved))
               | Err e => Throw e
               end)
  /\
  (let run := CookieSession.captureTokenWithCookies Sim.engine 1
                (Sim.machine (Some (CJArray [Sim.sessionCookie (Some (1800000000 # 1)%Q)]))
                             [Sim.tokenResponse "eyJhbGciOi.eyJzdWIi.c2ln"] true) in
   outcome run = Return (JsString "eyJhbGciOi.eyJzdWIi.c2ln") /\
   In (EvConsole LevelError [JsString "[Cookies] Failed to save:";
                             JsString "ENOSPC: no space left on device"])
      (trace run) /\
   Sim.file (world (final run))
     = Some (CJArray [Sim.sessionCookie (Some (1800000000 # 1)%Q)])).
Proof.
  split; cbv zeta.
  - split; [apply saveCookies_returns |].
    split; [apply saveCookies_keeps_token |].
    apply stepPersistAndReturn_run.
  - split; [vm_compute; reflexivity |].
    split; [| vm_compute; reflexivity].
    vm_compute. repeat (first [left; reflexivity | right]).
Qed.

(* ===================================================================== *)
(** ** The unusable-session scenario *)
(* ===================================================================== *)

Lemma store_event_is_no_navigation ev :
  isStoreEvent ev = true -> negb (isNavigation ev) = true.
Proof.
  destruct ev as [level args | ms | A op | r]; simpl; intros H; try reflexivity;
    try discriminate.
  destruct op; simpl in *; try reflexivity; discriminate.
Qed.

Lemma chatter_is_no_navigation ev :
  isChatter ev = true -> negb (isNavigation ev) = true.
Proof. destruct ev; simpl; intros H; try reflexivity; discriminate. Qed.

Section Unusable.

Context {W : Type} (E : Engine W).

Lemma bind_ext_Ok {A B} (op : Op A) (k : A -> M W B) s a w' :
  perform E op (world s) = (Ok a, w') ->
  bind (ext E op) k s = after [EvExt op] (k a (setWorld w' s)).
Proof. intros H. unfold bind, ext. rewrite H. reflexivity. Qed.

Lemma ext_Ok_outcome {A} (op : Op A) s a w' :
  perform E op (world s) = (Ok a, w') -> outcome (ext E op s) = Return a.
Proof. intros H. unfold ext. rewrite H. reflexivity. Qed.

Lemma ext_Err_outcome {A} (op : Op A) s e w' :
  perform E op (world s) = (Err e, w') -> outcome (ext E op s) = Throw e.
Proof. intros H. unfold ext. rewrite H. reflexivity. Qed.

(** A step that returns at once and prints nothing. *)
Lemma bind_quiet {A B} (m : M W A) (k : A -> M W B) s a s' :
  m s = mkRun (Return a) s' [] -> bind m k s = k a s'.
Proof. intros H. unfold bind. rewrite H. apply after_nil. Qed.

(** When the session file cannot be accessed, [load] returns [false]. *)
Lemma loadCookies_absent page (s : HState W) :
  (exists e, outcome (ext E (FsAccess CookieSession.CONFIG_cookies_filePath) s) = Throw e) ->
  outcome (CookieSession.loadCookies E page s) = Return false.
Proof.
  intros [e He].
  destruct (await_ext_run E (FsAccess CookieSession.CONFIG_cookies_filePath) page s)
    as (s1 & t1 & Hacc & Ht1).
  unfold CookieSession.loadCookies. cbv beta delta [tryCatch bind].
  rewrite Hacc, He. load_steps. reflexivity.
Qed.

(** Step 1 when [load] returns [false]. *)
Lemma stepLoadCookies_unusable page (s : HState W) :
  outcome (CookieSession.loadCookies E page s) = Return false ->
  CookieSession.stepLoadCookies E page s =
    mkRun (Throw (newError CookieSession.msgLoadFailed))
          (final (CookieSession.loadCookies E page s))
          (EvConsole LevelLog [JsString "[Session] Loading saved cookies..."]
             :: trace (CookieSession.loadCookies E page s)).
Proof.
  intros H. unfold CookieSession.stepLoadCookies.
  rewrite bind_console_log, (bind_Return _ _ s false H).
  cbn [negb throw after]. rewrite app_nil_r. reflexivity.
Qed.

Lemma bind_ext_Err {A B} (op : Op A) (k : A -> M W B) s e w' :
  perform E op (world s) = (Err e, w') ->
  bind (ext E op) k s = mkRun (Throw e) (setWorld w' s) [EvExt op].
Proof. intros H. unfold bind, ext. rewrite H. reflexivity. Qed.

(** The part of an attempt before its [try], when it returns: the three
    calls succeeded, and the page is the one that was opened. *)
Lemma openPage_run browser (s : HState W) page :
  outcome (openPage E browser s) = Return page ->
  exists w1 w2 w3,
    perform E (BrowserNewPage browser) (world s) = (Ok page, w1) /\
    perform E (PageSetViewport page 1920 1080) w1 = (Ok tt, w2) /\
    perform E (PageSetUserAgent page userAgent) w2 = (Ok tt, w3) /\
    openPage E browser s =
      mkRun (Return page) (mkHState w3 JsNull (Some page) (browserVar s))
            (openingEvents browser page).
Proof.
  intros H. unfold openPage in *.
  destruct (perform E (BrowserNewPage browser) (world s)) as [[p | e] w1] eqn:Hp.
  2:{ rewrite (bind_ext_Err _ _ _ _ _ Hp) in H. discriminate. }
  rewrite (bind_ext_Ok _ _ _ _ _ Hp) in H |- *. rewrite outcome_after in H.
  destruct (perform E (PageSetViewport p 1920 1080) w1) as [[[] | e] w2] eqn:Hv.
  2:{ rewrite (bind_ext_Err _ _ (setWorld w1 s) _ _ Hv) in H. discriminate. }
  rewrite (bind_ext_Ok _ _ (setWorld w1 s) _ _ Hv) in H |- *. rewrite outcome_after in H.
  destruct (perform E (PageSetUserAgent p userAgent) w2) as [[[] | e] w3] eqn:Ha.
  2:{ rewrite (bind_ext_Err _ _ (setWorld w2 (setWorld w1 s)) _ _ Ha) in H.
      discriminate. }
  rewrite (bind_ext_Ok _ _ (setWorld w2 (setWorld w1 s)) _ _ Ha) in H |- *.
  rewrite outcome_after in H.
  rewrite (bind_quiet (setCapturedToken JsNull) _ _ tt _ eq_refl) in H |- *.
  rewrite bind_console_log in H |- *. rewrite outcome_after in H.
  rewrite (bind_quiet (pageOnResponse p) _ _ tt _ eq_refl) in H |- *.
  cbn in H. injection H as ->.
  exists w1, w2, w3. repeat split; try assumption.
Qed.

(** Store events and chatter are neither navigation, nor the opening of
    a page, nor timers. *)
Lemma forallb_weaken (P Q : Event -> bool) (t : list Event) :
  (forall ev, P ev = true -> Q ev = true) ->
  forallb P t = true -> forallb Q t = true.
Proof.
  intros HPQ H. apply forallb_forall. intros ev Hin.
  apply HPQ. exact (proj1 (forallb_forall P t) H ev Hin).
Qed.

Lemma store_event_opens_no_page ev :
  isStoreEvent ev = true -> negb (isNewPage ev) = true.
Proof.
  destruct ev as [level args | ms | A op | r]; simpl; intros H; try reflexivity.
  destruct op; simpl in *; try reflexivity; discriminate.
Qed.

Lemma store_event_is_no_timer ev : isStoreEvent ev = true -> negb (isSleep ev) = true.
Proof. destruct ev; simpl; intros H; try reflexivity; discriminate. Qed.

Lemma timersOf_none (t : list Event) :
  forallb (fun ev => negb (isSleep ev)) t = true -> timersOf t = [].
Proof.
  induction t as [| ev t IH]; [reflexivity |].
  cbn [forallb]. intros H. apply andb_true_iff in H. destruct H as [H1 H2].
  destruct ev; simpl in *; try discriminate; auto.
Qed.

Lemma countEvents_cons f (ev : Event) t :
  countEvents f (ev :: t) = ((if f ev then 1 else 0) + countEvents f t)%nat.
Proof. unfold countEvents. cbn [filter]. destruct (f ev); reflexivity. Qed.

(** An attempt in which [load] returns [false]: what it throws, and all
    it does. *)
Lemma captureTokenWithCookies_unusable browser (s : HState W) :
  LoadFails E browser s ->
  exists page sEnd tl td,
    CookieSession.captureTokenWithCookies E browser s =
      mkRun (Throw (newError CookieSession.msgLoadFailed)) sEnd
            (openingEvents browser page
               ++ EvConsole LevelLog [JsString "[Session] Loading saved cookies..."]
               :: tl ++ EvExt (PageClose page) :: td) /\
    forallb isStoreEvent tl = true /\
    forallb isChatter td = true.
Proof.
  intros (page & Hopen & Hload & Hclose).
  destruct (openPage_run browser s page Hopen) as (w1 & w2 & w3 & Hp & Hv & Ha & Hrun).
  rewrite Hrun in Hload, Hclose. cbn [final] in Hload, Hclose.
  unfold CookieSession.captureTokenWithCookies.
  rewrite (bind_ext_Ok _ _ _ _ _ Hp).
  rewrite (bind_ext_Ok _ _ (setWorld w1 s) _ _ Hv).
  rewrite (bind_ext_Ok _ _ (setWorld w2 (setWorld w1 s)) _ _ Ha).
  rewrite (bind_quiet (setCapturedToken JsNull) _ _ tt _ eq_refl).
  rewrite bind_console_log.
  rewrite (bind_quiet (pageOnResponse page) _ _ tt _ eq_refl).
  rewrite !after_after.
  set (s0 := mkHState w3 JsNull (Some page) (browserVar s)) in *.
  match goal with
  | |- context [tryFinally _ _ ?s'] => change s' with s0
  end.
  unfold tryFinally.
  rewrite (bind_Throw _ _ s0 (newError CookieSession.msgLoadFailed))
    by (rewrite (stepLoadCookies_unusable page s0 Hload); reflexivity).
  rewrite (stepLoadCookies_unusable page s0 Hload). cbn [final trace].
  set (sL := final (CookieSession.loadCookies E page s0)) in *.
  destruct (await_ext_run E (PageClose page) page sL) as (s4 & t4 & Hclosed & Ht4).
  rewrite Hclosed in Hclose |- *. cbn [outcome] in Hclose. rewrite Hclose.
  exists page, s4, (trace (CookieSession.loadCookies E page s0)), t4.
  split; [| split; [| exact Ht4]].
  - cbn [after app openingEvents]. reflexivity.
  - exact (proj1 (proj2 (loadCookies_tame E (fun _ => True) isStoreEvent
                           (fun _ _ => I) (fun _ H => H) page s0 I))).
Qed.

(** What follows for the attempt: its error, one page opened, and neither
    navigation nor timers. *)
Lemma attempt_unusable browser (s : HState W) :
  LoadFails E browser s ->
  let r := CookieSession.captureTokenWithCookies E browser s in
  outcome r = Throw (newError CookieSession.msgLoadFailed) /\
  countEvents isNavigation (trace r) = 0%nat /\
  countEvents isNewPage (trace r) = 1%nat /\
  timersOf (trace r) = [].
Proof.
  intros H. cbv zeta.
  destruct (captureTokenWithCookies_unusable browser s H)
    as (page & sEnd & tl & td & Hrun & Htl & Htd).
  rewrite Hrun. cbn [outcome trace openingEvents app].
  split; [reflexivity |].
  rewrite !countEvents_cons, !countEvents_app, !countEvents_cons.
  cbn [timersOf]. rewrite !timersOf_app. cbn [timersOf].
  rewrite (countEvents_none isNavigation tl
             (forallb_weaken _ _ tl store_event_is_no_navigation Htl)).
  rewrite (countEvents_none isNavigation td
             (forallb_chatter _ td chatter_is_no_navigation Htd)).
  rewrite (countEvents_none isNewPage tl
             (forallb_weaken _ _ tl store_event_opens_no_page Htl)).
  rewrite (countEvents_none isNewPage td
             (forallb_chatter _ td
                (fun ev H => store_event_opens_no_page ev (chatter_is_store_event ev H))
                Htd)).
  rewrite (timersOf_none tl (forallb_weaken _ _ tl store_event_is_no_timer Htl)).
  rewrite (timersOf_none td (forallb_chatter _ td chatter_sets_no_timer Htd)).
  repeat split; reflexivity.
Qed.

(** The three attempts of the Retry Executor when [load] fails in each. *)
Lemma retryOperation_unusable browser (s : HState W) :
  LoadFailsThrice E browser s ->
  let r := retryOperation E CONFIG_retry (CookieSession.captureTokenWithCookies E browser)
                          "Token Capture" s in
  outcome r = Throw sessionFailure /\
  countEvents isNewPage (trace r) = 3%nat /\
  timersOf (trace r) = [2000; 4000]%Z /\
  countEvents isNavigation (trace r) = 0%nat.
Proof.
  intros H. cbv zeta. unfold LoadFailsThrice in H. cbv zeta in H.
  destruct H as (H1 & H2 & H3).
  set (attempt := CookieSession.captureTokenWithCookies E browser) in *.
  set (s2 := afterFailedAttempt E browser 1 s) in *.
  set (s3 := afterFailedAttempt E browser 2 s2) in *.
  destruct (attempt_unusable browser s H1) as (Ho1 & Hn1 & Hp1 & Ht1).
  destruct (attempt_unusable browser s2 H2) as (Ho2 & Hn2 & Hp2 & Ht2).
  destruct (attempt_unusable browser s3 H3) as (Ho3 & Hn3 & Hp3 & Ht3).
  fold attempt in Ho1, Hn1, Hp1, Ht1, Ho2, Hn2, Hp2, Ht2, Ho3, Hn3, Hp3, Ht3.
  set (e := newError CookieSession.msgLoadFailed) in *.
  assert (Hf : FailedAttempts E CONFIG_retry attempt 1 s
                 [(e, trace (attempt s)); (e, trace (attempt s2))] s3).
  { apply FailedNext; [exact Ho1 |].
    apply FailedNext; [exact Ho2 |].
    apply FailedNone. }
  rewrite (retryOperation_exhausted E CONFIG_retry attempt "Token Capture" _ s s3 e Hf
             eq_refl Ho3).
  cbn [outcome trace].
  split; [reflexivity |].
  split; [| split].
  - cbn [failedTrace].
    unfold attemptLine, failureLine, retryLine.
    rewrite ?countEvents_cons, ?countEvents_app, ?countEvents_cons, ?countEvents_app,
            ?countEvents_cons, ?countEvents_app, ?countEvents_cons.
    cbn [isNewPage]. rewrite Hp1, Hp2, Hp3. reflexivity.
  - rewrite timersOf_app.
    rewrite (failedTrace_timers CONFIG_retry "Token Capture" _ 1)
      by (repeat constructor; assumption).
    cbn [timersOf]. rewrite timersOf_app, Ht3. reflexivity.
  - cbn [failedTrace].
    unfold attemptLine, failureLine, retryLine.
    rewrite ?countEvents_cons, ?countEvents_app, ?countEvents_cons, ?countEvents_app,
            ?countEvents_cons, ?countEvents_app, ?countEvents_cons.
    cbn [isNavigation]. rewrite Hn1, Hn2, Hn3. reflexivity.
Qed.

End Unusable.

Section Scenario.

Context {W : Type} (E : Engine W).
Variable env : Env.

(** An operation that always fails with the same error exhausts the
    executor, which reports that error. *)
Lemma retryOperation_same_error {A} (retry : RetryConfig) (operation : M W A)
      (context : string) (e0 : JsError) (s : HState W) :
  (1 <= maxAttempts retry)%nat ->
  (forall s', outcome (operation s') = Throw e0) ->
  outcome (retryOperation E retry operation context s) =
    Throw (newError (exhaustedMessage retry context (message e0))).
Proof.
  intros Hmax Hfail.
  destruct (FailedAttempts_exist E retry operation
              (fun s' => ex_intro _ e0 (Hfail s')) (maxAttempts retry - 1) 1 s)
    as (fails & sLast & Hf & Hlen).
  rewrite (retryOperation_exhausted E retry operation context fails s sLast e0 Hf);
    [reflexivity | lia | apply Hfail].
Qed.

(** An operation that succeeds at once is invoked once. *)
Lemma retryOperation_first_try {A} (retry : RetryConfig) (operation : M W A)
      (context : string) (v : A) (s : HState W) :
  (1 <= maxAttempts retry)%nat ->
  outcome (operation s) = Return v ->
  outcome (retryOperation E retry operation context s) = Return v /\
  final (retryOperation E retry operation context s) = final (operation s).
Proof.
  intros Hmax Ho.
  rewrite (retryOperation_succeeds E retry operation context [] s s v
             (FailedNone E retry operation 1 s) Hmax Ho).
  split; reflexivity.
Qed.

Hypothesis launches : BrowserLaunches E.

Lemma initBrowser_launches (s : HState W) :
  exists b, outcome (CookieSession.initBrowser E env s) = Return b.
Proof.
  unfold CookieSession.initBrowser. rewrite bind_console_log.
  destruct (launches (world s) (negb (CookieSession.setupMode env))) as (b & w' & Hb).
  rewrite (bind_ext_Ok E _ _ _ _ _ Hb), bind_console_log.
  exists b. rewrite !outcome_after. reflexivity.
Qed.

End Scenario.

Section UnusableRun.

Context {W : Type} (E : Engine W).
Variable env : Env.

(** Events that neither navigate nor open a page. *)
Let calm : Event -> bool := fun ev => negb (isNavigation ev) && negb (isNewPage ev).

Lemma launch_calm :
  Tame (fun _ => True) calm
       (retryOperation E CONFIG_retry (CookieSession.initBrowser E env) "Browser Init").
Proof. unfold CookieSession.initBrowser. tame. Qed.

Lemma reportFailure_calm e :
  Tame (fun _ => True) calm (@CookieSession.reportFailure W e).
Proof. unfold CookieSession.reportFailure. tame. Qed.

Lemma calm_counts (t : list Event) :
  forallb calm t = true ->
  countEvents isNavigation t = 0%nat /\ countEvents isNewPage t = 0%nat.
Proof.
  intros H. split; apply countEvents_none; apply (forallb_weaken calm _ t); try exact H;
    intros ev Hev; apply andb_true_iff in Hev; tauto.
Qed.

(** What the [catch] block prints depends on the error alone. *)
Lemma reportFailure_trace e (s s' : HState W) :
  trace (CookieSession.reportFailure e s) = trace (CookieSession.reportFailure e s').
Proof.
  unfold CookieSession.reportFailure.
  destruct (includes "cookies" (message e) || includes "Session expired" (message e));
    reflexivity.
Qed.

(** The [try] block of an unattended run whose browser launched and
    whose three attempts find the session unusable. *)
Lemma mainBody_unusable startTime browser (s : HState W) :
  UnattendedEnv env ->
  let launch := retryOperation E CONFIG_retry (CookieSession.initBrowser E env)
                               "Browser Init" s in
  outcome launch = Return browser ->
  LoadFailsThrice E browser (final (setBrowserVar browser (final launch))) ->
  let r := CookieSession.mainBody E env startTime s in
  outcome r = Throw sessionFailure /\
  countEvents isNewPage (trace r) = 3%nat /\
  countEvents isNavigation (trace r) = 0%nat.
Proof.
  intros (Hmode & Hgsa & Hsheet). cbv zeta. intros Hlaunch Hloads.
  unfold CookieSession.mainBody.
  rewrite (bind_Return _ _ s browser Hlaunch), outcome_after, trace_after.
  rewrite (bind_quiet (setBrowserVar browser) _ _ tt _ eq_refl).
  rewrite Hmode. unfold CookieSession.autoMode. rewrite Hgsa, Hsheet. cbn [negb].
  rewrite (bind_quiet (ret tt) _ _ tt _ eq_refl).
  rewrite (bind_quiet (ret tt) _ _ tt _ eq_refl).
  destruct (retryOperation_unusable E browser _ Hloads) as (Ho & Hp & _ & Hn).
  rewrite (bind_Throw _ _ _ sessionFailure Ho). cbn [outcome trace].
  destruct (calm_counts _ (proj1 (proj2 (launch_calm s I)))) as [Hn0 Hp0].
  rewrite !countEvents_app, Hn0, Hp0, Hp, Hn. repeat split; reflexivity.
Qed.

Lemma main_unusable browser (s : HState W) :
  UnattendedEnv env ->
  let launch := retryOperation E CONFIG_retry (CookieSession.initBrowser E env)
                               "Browser Init" s in
  outcome launch = Return browser ->
  LoadFailsThrice E browser (final (setBrowserVar browser (final launch))) ->
  let r := CookieSession.main E env s in
  outcome r = Exit 1 /\
  countEvents isNewPage (trace r) = 3%nat /\
  countEvents isNavigation (trace r) = 0%nat /\
  (forall ev, In ev (trace (CookieSession.reportFailure sessionFailure s)) ->
              In ev (trace r)).
Proof.
  intros Henv. cbv zeta. intros Hlaunch Hloads.
  destruct (mainBody_unusable (clock E (world s)) browser s Henv Hlaunch Hloads)
    as (Hbody & Hp & Hn).
  destruct (exit_harness (fun _ => true)
              (CookieSession.mainBody E env (clock E (world s)))
              (@CookieSession.reportFailure W) (CookieSession.cleanup E)
              (cookie_mainBody_open E env (fun _ => true) (fun _ _ => eq_refl) _)
              (cookie_reportFailure_open (fun _ => true) (fun _ _ => eq_refl))
              cookie_reportFailure_returns s) as (_ & H1 & _ & _ & Htr).
  destruct (cookie_main_run E env s) as (pre & Hpre & Hrun).
  rewrite Hrun, outcome_after, trace_after, (Htr _ Hbody).
  destruct (calm_counts _ (proj1 (proj2 (reportFailure_calm sessionFailure
                                           (final (CookieSession.mainBody E env
                                                     (clock E (world s)) s)) I))))
    as [Hn2 Hp2].
  split; [apply H1; eexists; exact Hbody |].
  rewrite !countEvents_app, Hp, Hn, Hn2, Hp2.
  rewrite (countEvents_none isNewPage pre
             (forallb_chatter _ pre
                (fun ev H => store_event_opens_no_page ev (chatter_is_store_event ev H))
                Hpre)).
  rewrite (countEvents_none isNavigation pre
             (forallb_chatter _ pre chatter_is_no_navigation Hpre)).
  split; [reflexivity |]. split; [reflexivity |].
  intros ev Hin. apply in_or_app. right. apply in_or_app. right.
  rewrite (reportFailure_trace sessionFailure _ s). exact Hin.
Qed.

End UnusableRun.

(** C7. In session-reuse mode, an attempt in which [SessionStore.load]
    returns [false] (its page opens, and closes afterwards) fails with the
    error "Failed to load cookies. Please run SETUP MODE first.", having
    opened that one page and neither navigated nor touched the page nor
    waited.  When that happens in each of the three attempts that the
    Retry Executor makes, the executor gives up after those three, with
    the backoff timers of 2 s and 4 s between them; and an unattended run
    whose browser launched and whose three attempts end so prints the
    failure and the advice to run the setup flow, and exits with code 1,
    three pages opened and nothing navigated. *)
Theorem unusable_session_fails_with_guidance {W : Type} (E : Engine W) (env : Env) :
  (forall browser s,
     LoadFails E browser s ->
     let r := CookieSession.captureTokenWithCookies E browser s in
     outcome r = Throw (newError CookieSession.msgLoadFailed) /\
     countEvents isNavigation (trace r) = 0%nat /\
     countEvents isNewPage (trace r) = 1%nat /\
     timersOf (trace r) = []) /\
  includes "run SETUP MODE" CookieSession.msgLoadFailed = true /\
  (forall browser s,
     LoadFailsThrice E browser s ->
     let r := retryOperation E CONFIG_retry
                             (CookieSession.captureTokenWithCookies E browser)
                             "Token Capture" s in
     outcome r = Throw sessionFailure /\
     countEvents isNewPage (trace r) = 3%nat /\
     timersOf (trace r) = [2000; 4000]%Z /\
     countEvents isNavigation (trace r) = 0%nat) /\
  (forall browser s,
     UnattendedEnv env ->
     let launch := retryOperation E CONFIG_retry (CookieSession.initBrowser E env)
                                  "Browser Init" s in
     outcome launch = Return browser ->
     LoadFailsThrice E browser (final (setBrowserVar browser (final launch))) ->
     let r := CookieSession.main E env s in
     outcome r = Exit 1 /\
     countEvents isNewPage (trace r) = 3%nat /\
     In (EvConsole LevelError
           [JsString "Error:";
            JsString "Token Capture failed after 3 attempts: Failed to load cookies. Please run SETUP MODE first."])
        (trace r) /\
     In (EvConsole LevelError [JsString CookieSession.msgSolution]) (trace r) /\
     In (EvConsole LevelError [JsString "Set environment variable: SETUP_MODE=true"])
        (trace r) /\
     countEvents isNavigation (trace r) = 0%nat).
Proof.
  split; [| split; [| split]].
  - intros browser s H. cbv zeta.
    exact (attempt_unusable E browser s H).
  - reflexivity.
  - intros browser s H. exact (retryOperation_unusable E browser s H).
  - intros browser s Henv. cbv zeta. intros Hlaunch Hloads.
    destruct (main_unusable E env browser s Henv Hlaunch Hloads) as (Ho & Hp & Hn & Hin).
    split; [exact Ho |]. split; [exact Hp |].
    split; [apply Hin; vm_compute; repeat (first [left; reflexivity | right]) |].
    split; [apply Hin; vm_compute; repeat (first [left; reflexivity | right]) |].
    split; [apply Hin; vm_compute; repeat (first [left; reflexivity | right]) |].
    exact Hn.
Qed.

(** The simulated machine without a session file: nothing holds of every
    state of its engine (a later save would create the file), yet in this
    run [load] fails three times. *)
Lemma unusable_session_witness :
  outcome (CookieSession.main Sim.engine Sim.autoEnv (Sim.machine None [] false)) = Exit 1.
Proof.
  destruct (unusable_session_fails_with_guidance Sim.engine Sim.autoEnv)
    as (_ & _ & _ & Hmain).
  refine (proj1 (Hmain 1%nat (Sim.machine None [] false) _ _ _)).
  - repeat split; reflexivity.
  - vm_compute. reflexivity.
  - unfold LoadFailsThrice, LoadFails. cbv zeta.
    repeat split; eexists; (split; [vm_compute; reflexivity |]);
      split; vm_compute; reflexivity.
Defined.

Example unusable_session_run :
  let r := CookieSession.main Sim.bare Sim.autoEnv Sim.idle in
  outcome r = Exit 1 /\
  timersOf (trace r) = [2000; 4000]%Z /\
  countEvents (fun ev => match ev with EvExt (BrowserNewPage _) => true | _ => false end)
              (trace r) = 3%nat /\
  countEvents (fun ev => match ev with EvExt (PageClose _) => true | _ => false end)
              (trace r) = 3%nat /\
  countEvents isNavigation (trace r) = 0%nat.
Proof. cbv zeta. repeat split; vm_compute; reflexivity. Qed.

(** A load of three records of which one expired in 2020: two are
    installed, in order. *)
Example load_drops_the_expired_record :
  let stored := [Sim.sessionCookie (Some (1800000000 # 1)%Q);
                 Sim.sessionCookie (Some (1600000000 # 1)%Q);
                 Sim.sessionCookie None] in
  let r := CookieSession.loadCookies Sim.engine 1
             (Sim.machine (Some (CJArray stored)) [] false) in
  outcome r = Return true /\
  Sim.jar (world (final r))
    = [Sim.sessionCookie (Some (1800000000 # 1)%Q); Sim.sessionCookie None].
Proof. cbv zeta. split; vm_compute; reflexivity. Qed.

(** The load time is the number [Date.now() / 1000], not the exact
    quotient: at 1700000000001 ms it lies below 1700000000.001, and a
    record that expires at that very number is kept. *)
Example load_keeps_record_expiring_at_load_time :
  let expiry := jsDivide 1700000000001 1000 in
  let stored := [Sim.sessionCookie (Some expiry)] in
  let s := mkHState (Sim.mkWorld (Some (CJArray stored)) 1700000000001 Sim.loggedInDom
                                 [] [] [] false 0)
                    JsNull None None in
  let r := CookieSession.loadCookies Sim.engine 1 s in
  (expiry < 1700000000001 # 1000)%Q /\
  outcome r = Return true /\
  Sim.jar (world (final r)) = stored.
Proof. cbv zeta. split; [| split]; vm_compute; reflexivity. Qed.

(* ===================================================================== *)
(** ** Token Validator: which error, and what is not checked *)
(* ===================================================================== *)

Lemma countChar_app (sep : ascii) (a b : string) :
  countChar sep (a ++ b) = (countChar sep a + countChar sep b)%nat.
Proof.
  induction a as [| c a IH]; [reflexivity |].
  change ((String c a ++ b)%string) with (String c (a ++ b)%string).
  cbn [countChar]. rewrite IH. lia.
Qed.

(** A string with the prefix and two dots passes all three tests. *)
Lemma validateToken_accepts (t : string) :
  startsWith "eyJ" t = true -> countChar "." t = 2%nat ->
  validateToken (JsString t) = Ok true.
Proof.
  intros Hp Hd. rewrite validateToken_string.
  destruct t as [| c t']; [discriminate |].
  rewrite Hp, split_length, Hd. reflexivity.
Qed.

(** X1.  [validateToken] reports the first test that fails: a candidate that
    is not a string, or the empty string, gets the message of the first
    test; a non-empty string without the prefix [eyJ] the message of the
    second, however many dots it holds; a string with the prefix and a
    number of dots other than two the message of the third; a string with
    the prefix and exactly two dots is accepted. *)
Theorem validateToken_reports_first_failure (candidate : JsValue) :
  ((forall t, candidate <> JsString t) \/ candidate = JsString EmptyString ->
     validateToken candidate = Err (newError msgTokenEmpty)) /\
  (forall t, candidate = JsString t -> t <> EmptyString -> startsWith "eyJ" t = false ->
     validateToken candidate = Err (newError msgTokenPrefix)) /\
  (forall t, candidate = JsString t -> startsWith "eyJ" t = true ->
     countChar "." t <> 2%nat ->
     validateToken candidate = Err (newError msgTokenParts)) /\
  (forall t, candidate = JsString t -> startsWith "eyJ" t = true ->
     countChar "." t = 2%nat ->
     validateToken candidate = Ok true).
Proof.
  split; [| split; [| split]].
  - intros [Hns | He].
    + apply validateToken_not_string. exact Hns.
    + subst. reflexivity.
  - intros t Ht Hne Hp. subst. rewrite validateToken_string.
    destruct t as [| c t']; [exfalso; apply Hne; reflexivity |].
    rewrite Hp. reflexivity.
  - intros t Ht Hp Hd. subst. rewrite validateToken_string.
    destruct t as [| c t']; [discriminate |].
    rewrite Hp, split_length. cbn [negb].
    destruct (Nat.eqb (S (countChar "." (String c t'))) 3) eqn:Hn; [| reflexivity].
    apply Nat.eqb_eq in Hn. exfalso. apply Hd. lia.
  - intros t Ht Hp Hd. subst. apply validateToken_accepts; assumption.
Qed.

(** X2.  [validateToken] looks at nothing but the prefix and the dots: [eyJ]
    followed by any three dot-free segments is accepted, whatever the
    segments hold, empty segments included. *)
Theorem validateToken_ignores_segment_content (header payload signature : string) :
  countChar "." header = 0%nat ->
  countChar "." payload = 0%nat ->
  countChar "." signature = 0%nat ->
  validateToken (JsString ("eyJ" ++ header ++ "." ++ payload ++ "." ++ signature)) = Ok true.
Proof.
  intros Hh Hp Hs. apply validateToken_accepts.
  - unfold startsWith. cbn.
    destruct (header ++ String "." (payload ++ String "." signature))%string; reflexivity.
  - change ("eyJ" ++ header ++ "." ++ payload ++ "." ++ signature)%string
      with ("eyJ" ++ (header ++ ("." ++ (payload ++ ("." ++ signature)))))%string.
    rewrite !countChar_app, Hh, Hp, Hs. reflexivity.
Qed.

Lemma validateToken_ignores_segment_content_witness :
  validateToken (JsString "eyJ..") = Ok true.
Proof.
  apply (validateToken_ignores_segment_content EmptyString EmptyString EmptyString); reflexivity.
Defined.

(* ===================================================================== *)
(** ** Reading a run backwards *)
(* ===================================================================== *)

Section Inversion.

Context {W : Type}.

(** A sequence returned: so did its first part, and then the rest. *)
Lemma bind_Return_inv {A B} (m : M W A) (k : A -> M W B) s b :
  outcome (bind m k s) = Return b ->
  exists a, outcome (m s) = Return a /\ outcome (k a (final (m s))) = Return b.
Proof.
  unfold bind. destruct (m s) as [[a | e | c] s' t]; cbn [outcome final];
    try discriminate.
  rewrite outcome_after. intros H. exists a. split; [reflexivity | exact H].
Qed.

Lemma bind_trace_l {A B} (m : M W A) (k : A -> M W B) s :
  incl (trace (m s)) (trace (bind m k s)).
Proof.
  unfold bind. destruct (m s) as [[a | e | c] s' t]; cbn [trace];
    try apply incl_refl.
  rewrite trace_after. apply incl_appl, incl_refl.
Qed.

Lemma bind_trace_r {A B} (m : M W A) (k : A -> M W B) s a :
  outcome (m s) = Return a ->
  incl (trace (k a (final (m s)))) (trace (bind m k s)).
Proof.
  intros H. rewrite (bind_Return m k s a H), trace_after. apply incl_appr, incl_refl.
Qed.

Lemma tryFinally_Return_inv {A} (m : M W A) f s v :
  outcome (tryFinally m f s) = Return v -> outcome (m s) = Return v.
Proof.
  unfold tryFinally. destruct (m s) as [[a | e | c] s' t]; cbn [outcome];
    try discriminate;
    destruct (f s') as [[u | e' | c'] s'' t']; cbn [outcome]; try discriminate; auto.
Qed.

Lemma tryFinally_trace_l {A} (m : M W A) f s :
  incl (trace (m s)) (trace (tryFinally m f s)).
Proof.
  unfold tryFinally. destruct (m s) as [[a | e | c] s' t]; cbn [trace];
    try apply incl_refl;
    destruct (f s') as [[u | e' | c'] s'' t']; cbn [trace]; apply incl_appl, incl_refl.
Qed.

End Inversion.

(** Peel the first part off a sequence that returned. *)
Ltac peel H :=
  let a := fresh "a" in
  let Ha := fresh "Ha" in
  apply bind_Return_inv in H; destruct H as (a & Ha & H).

Lemma validateToken_Ok (v : JsValue) (b : bool) :
  validateToken v = Ok b -> validateToken v = Ok true.
Proof.
  unfold validateToken.
  destruct (negb (truthy v) || negb (String.eqb (typeof v) "string")); [discriminate |].
  destruct (negb (startsWith "eyJ" (stringOf v))); [discriminate |].
  destruct (negb (Nat.eqb (List.length (split "." (stringOf v))) 3)); [discriminate |].
  reflexivity.
Qed.

Section Validated.

Context {W : Type} (E : Engine W).
Variable env : Env.

Lemma cookie_capture_validated (browser : Browser) (s : HState W) (v : JsValue) :
  outcome (CookieSession.captureTokenWithCookies E browser s) = Return v ->
  validateToken v = Ok true.
Proof.
  unfold CookieSession.captureTokenWithCookies. intros H.
  do 6 peel H. apply tryFinally_Return_inv in H. do 5 peel H.
  match type of H with
  | outcome (CookieSession.stepPersistAndReturn E ?p ?s0) = _ =>
      destruct (stepPersistAndReturn_run E p s0) as [_ Hrun]
  end.
  rewrite Hrun in H. clear Hrun.
  match type of H with
  | match validateToken ?t with _ => _ end = _ =>
      destruct (validateToken t) as [b | e] eqn:Hv; [| discriminate]
  end.
  injection H as <-. exact (validateToken_Ok _ _ Hv).
Qed.

Lemma credential_capture_validated (browser : Browser) (s : HState W) (v : JsValue) :
  outcome (CredentialLogin.captureToken E env browser s) = Return v ->
  validateToken v = Ok true.
Proof.
  unfold CredentialLogin.captureToken. intros H.
  do 6 peel H. apply tryFinally_Return_inv in H. do 4 peel H.
  unfold CredentialLogin.stepValidateAndReturn in H.
  rewrite bind_getCapturedToken in H.
  match type of H with
  | outcome (bind (liftResult (validateToken ?t)) _ _) = _ =>
      destruct (validateToken t) as [b | e] eqn:Hv; [| discriminate]
  end.
  cbn in H. injection H as <-. exact (validateToken_Ok _ _ Hv).
Qed.

End Validated.

Section RetryInversion.

Context {W : Type} (E : Engine W).
Variable retry : RetryConfig.

(** A value returned by the executor is the value of one invocation of
    the operation, whose events are part of the executor's. *)
Lemma retryLoop_Return_inv {A} (operation : M W A) context remaining :
  forall attempt lastError s v,
    outcome (retryLoop E retry operation context remaining attempt lastError s) = Return v ->
    exists s', outcome (operation s') = Return v /\
               incl (trace (operation s'))
                    (trace (retryLoop E retry operation context remaining attempt lastError s)).
Proof.
  induction remaining as [| n IH]; intros attempt lastError s v H.
  - cbn in H. destruct lastError; discriminate.
  - cbn [retryLoop] in *.
    destruct (outcome (operation s)) as [v' | e | c] eqn:Ho.
    + rewrite (tryCatch_Return _ _ s v') in *
        by (rewrite attempt_body, outcome_after; exact Ho).
      rewrite attempt_body, outcome_after, Ho in H. injection H as <-.
      exists s. split; [exact Ho |].
      rewrite attempt_body, trace_after. apply incl_appr, incl_refl.
    + rewrite (tryCatch_Throw _ _ s e) in *
        by (rewrite attempt_body, outcome_after; exact Ho).
      rewrite outcome_after in H. rewrite trace_after.
      peel H. peel H. apply IH in H. destruct H as (s' & Hs' & Hin).
      exists s'. split; [exact Hs' |].
      apply incl_appr.
      eapply incl_tran; [| apply (bind_trace_r _ _ _ _ Ha)].
      eapply incl_tran; [| apply (bind_trace_r _ _ _ _ Ha0)].
      exact Hin.
    + rewrite (tryCatch_Exit _ _ s c) in H
        by (rewrite attempt_body, outcome_after; exact Ho).
      rewrite attempt_body, outcome_after, Ho in H. discriminate.
Qed.

Lemma retryOperation_Return_inv {A} (operation : M W A) context s v :
  outcome (retryOperation E retry operation context s) = Return v ->
  exists s', outcome (operation s') = Return v /\
             incl (trace (operation s')) (trace (retryOperation E retry operation context s)).
Proof. apply retryLoop_Return_inv. Qed.

End RetryInversion.

Section SheetUpdate.

Context {W : Type} (E : Engine W).
Variable env : Env.

Lemma trace_ext {A} (op : Op A) (s : HState W) : trace (ext E op s) = [EvExt op].
Proof. unfold ext. destruct (perform E op (world s)). reflexivity. Qed.

(** When [updateSheet] returns, one update of the configured range of the
    configured sheet, with the one row [[token, timestamp]], was accepted
    by the service. *)
Lemma updateSheet_Return_inv token (s : HState W) data :
  outcome (updateSheet E env token s) = Return data ->
  exists auth timestamp w w',
    perform E (SheetsUpdate auth (envValue (SHEET_ID env)) CONFIG_sheet_range
                            [[token; JsString timestamp]]) w = (Ok data, w') /\
    In (EvExt (SheetsUpdate auth (envValue (SHEET_ID env)) CONFIG_sheet_range
                            [[token; JsString timestamp]]))
       (trace (updateSheet E env token s)).
Proof.
  intros H. unfold updateSheet in *.
  rewrite bind_console_log in *. rewrite outcome_after in H. rewrite trace_after.
  peel H. rewrite (bind_Return _ _ s a Ha), trace_after.
  rewrite bind_dateIso in *.
  set (sA := final (getGoogleAuth E env s)) in *.
  set (timestamp := isoString E (clock E (world sA))) in *.
  peel H. rewrite (bind_Return _ _ sA a0 Ha0), trace_after, trace_ext.
  do 5 peel H. cbn in H. injection H as <-.
  unfold ext in Ha0.
  destruct (perform E (SheetsUpdate a (envValue (SHEET_ID env)) CONFIG_sheet_range
                                    [[token; JsString timestamp]]) (world sA))
    as [[d | e] w'] eqn:Hp; cbn [outcome] in Ha0; [| discriminate].
  injection Ha0 as <-.
  exists a, timestamp, (world sA), w'. split; [exact Hp |].
  apply in_or_app. right. apply in_or_app. right. left. reflexivity.
Qed.

End SheetUpdate.

Section ExitZero.

Context {W : Type}.
Variable body : M W unit.
Variable report : JsError -> M W unit.
Variable cleanup : M W unit.
Hypothesis body_no_exit : forall s c, outcome (body s) <> Exit c.
Hypothesis report_returns : forall e, Returns (report e).

(** Exit code 0 is reached only through the end of the [try] block. *)
Lemma exit_zero_inv s :
  let r := tryFinally
             (tryCatch (body ;; process_exit (A := unit) 0)
                       (fun e => report e ;; process_exit 1))
             cleanup s in
  outcome r = Exit 0 ->
  (exists u, outcome (body s) = Return u) /\ trace r = trace (body s).
Proof.
  cbv zeta. pose proof (body_no_exit s) as HX.
  unfold tryFinally, tryCatch, bind.
  destruct (body s) as [[u | e | c] s1 t]; cbn [outcome final trace] in *.
  - cbn [process_exit after]. cbn [outcome trace]. rewrite app_nil_r.
    intros _. split; [exists u |]; reflexivity.
  - destruct (report_returns e s1) as [u Hu].
    destruct (report e s1) as [o s2 t2]. cbn [outcome] in Hu. subst o.
    cbn [process_exit after]. cbn [outcome]. discriminate.
  - exfalso. exact (HX c eq_refl).
Qed.

End ExitZero.

(** Peel the first part off a sequence that returned, in the hypothesis
    and in the trace of the goal. *)
Ltac peel_in H :=
  let a := fresh "a" in
  let Ha := fresh "Ha" in
  apply bind_Return_inv in H; destruct H as (a & Ha & H);
  rewrite (bind_Return _ _ _ a Ha), trace_after.

(** X3.  An unattended run of the cookie script ends with exit code 0 only
    after the spreadsheet service has accepted an update of the
    configured range of the configured sheet whose single row is a token
    that passes [validateToken], followed by a timestamp. *)
Theorem cookie_exit_zero_means_sheet_updated {W : Type} (E : Engine W) (env : Env)
        (s : HState W) :
  CookieSession.setupMode env = false ->
  outcome (CookieSession.main E env s) = Exit 0 ->
  exists token auth timestamp data w w',
    validateToken token = Ok true /\
    perform E (SheetsUpdate auth (envValue (SHEET_ID env)) CONFIG_sheet_range
                            [[token; JsString timestamp]]) w = (Ok data, w') /\
    In (EvExt (SheetsUpdate auth (envValue (SHEET_ID env)) CONFIG_sheet_range
                            [[token; JsString timestamp]]))
       (trace (CookieSession.main E env s)).
Proof.
  intros Hmode H.
  destruct (cookie_main_run E env s) as (pre & _ & Hrun).
  rewrite Hrun in *. rewrite outcome_after in H. rewrite trace_after.
  apply exit_zero_inv in H.
  2:{ intros s0 c.
      exact (proj2 (proj2 (cookie_mainBody_open E env (fun _ => true)
                             (fun _ _ => eq_refl) _ s0 I)) c). }
  2:{ apply cookie_reportFailure_returns. }
  destruct H as ([u H] & Htr). rewrite Htr. clear Htr Hrun.
  unfold CookieSession.mainBody in *.
  peel_in H. peel_in H. rewrite Hmode in *.
  unfold CookieSession.autoMode in *.
  peel_in H. peel_in H. peel_in H. rename a3 into token. rename Ha3 into Hcap.
  peel_in H. peel_in H. peel H. rename a5 into data. rename Ha5 into Hupd.
  apply retryOperation_Return_inv in Hcap. destruct Hcap as (s1 & Hcap & _).
  apply cookie_capture_validated in Hcap.
  pose proof (bind_trace_l
                (retryOperation E CONFIG_retry (updateSheet E env token) "Sheet Update")
                (fun _ => endTime <- dateNow E ;;
                   console_log [JsString (nl ++ banner)] ;;
                   console_log [JsString "✅ EXECUTION COMPLETED SUCCESSFULLY"] ;;
                   console_log [JsString "Duration:";
                                JsNumber (Qmake (endTime - clock E (world s)) 1000);
                                JsString "seconds"] ;;
                   console_log [JsString banner])) as Hincl.
  apply retryOperation_Return_inv in Hupd. destruct Hupd as (s2 & Hupd & Hin).
  apply updateSheet_Return_inv in Hupd.
  destruct Hupd as (auth & timestamp & w & w' & Hp & Hev).
  exists token, auth, timestamp, data, w, w'.
  split; [exact Hcap |]. split; [exact Hp |].
  repeat (apply in_or_app; right).
  eapply Hincl. apply Hin. exact Hev.
Qed.

(** X4.  The credential script ends with exit code 0 only after the
    spreadsheet service has accepted an update of the configured range
    of the configured sheet whose single row is a token that passes
    [validateToken], followed by a timestamp. *)
Theorem credential_exit_zero_means_sheet_updated {W : Type} (E : Engine W) (env : Env)
        (s : HState W) :
  outcome (CredentialLogin.main E env s) = Exit 0 ->
  exists token auth timestamp data w w',
    validateToken token = Ok true /\
    perform E (SheetsUpdate auth (envValue (SHEET_ID env)) CONFIG_sheet_range
                            [[token; JsString timestamp]]) w = (Ok data, w') /\
    In (EvExt (SheetsUpdate auth (envValue (SHEET_ID env)) CONFIG_sheet_range
                            [[token; JsString timestamp]]))
       (trace (CredentialLogin.main E env s)).
Proof.
  intros H.
  destruct (credential_main_run E env s) as (pre & _ & Hrun).
  rewrite Hrun in *. rewrite outcome_after in H. rewrite trace_after.
  apply exit_zero_inv in H.
  2:{ intros s0 c.
      exact (proj2 (proj2 (credential_mainBody_open E env (fun _ => true)
                             (fun _ _ => eq_refl) _ s0 I)) c). }
  2:{ apply credential_reportFailure_returns. }
  destruct H as ([u H] & Htr). rewrite Htr. clear Htr Hrun.
  unfold CredentialLogin.mainBody in *.
  do 5 peel_in H.
  peel_in H. rename a4 into token. rename Ha4 into Hcap.
  peel_in H. peel_in H. peel H. rename a6 into data. rename Ha6 into Hupd.
  apply retryOperation_Return_inv in Hcap. destruct Hcap as (s1 & Hcap & _).
  apply credential_capture_validated in Hcap.
  pose proof (bind_trace_l
                (retryOperation E CONFIG_retry (updateSheet E env token) "Sheet Update")
                (fun _ => endTime <- dateNow E ;;
                   console_log [JsString (nl ++ banner)] ;;
                   console_log [JsString "✅ EXECUTION COMPLETED SUCCESSFULLY"] ;;
                   console_log [JsString "Duration:";
                                JsNumber (Qmake (endTime - clock E (world s)) 1000);
                                JsString "seconds"] ;;
                   console_log [JsString banner])) as Hincl.
  apply retryOperation_Return_inv in Hupd. destruct Hupd as (s2 & Hupd & Hin).
  apply updateSheet_Return_inv in Hupd.
  destruct Hupd as (auth & timestamp & w & w' & Hp & Hev).
  exists token, auth, timestamp, data, w, w'.
  split; [exact Hcap |]. split; [exact Hp |].
  repeat (apply in_or_app; right).
  eapply Hincl. apply Hin. exact Hev.
Qed.

Lemma cookie_exit_zero_witness :
  exists token auth timestamp,
    validateToken token = Ok true /\
    In (EvExt (SheetsUpdate auth (envValue (SHEET_ID Sim.autoEnv)) CONFIG_sheet_range
                            [[token; JsString timestamp]]))
       (trace (CookieSession.main Sim.engine Sim.autoEnv liveSession)).
Proof.
  destruct (cookie_exit_zero_means_sheet_updated Sim.engine Sim.autoEnv liveSession)
    as (token & auth & timestamp & data & w & w' & Hv & _ & Hin).
  - reflexivity.
  - vm_compute. reflexivity.
  - exists token, auth, timestamp. split; assumption.
Defined.

Lemma credential_exit_zero_witness :
  exists token auth timestamp,
    validateToken token = Ok true /\
    In (EvExt (SheetsUpdate auth (envValue (SHEET_ID Sim.credentialEnv)) CONFIG_sheet_range
                            [[token; JsString timestamp]]))
       (trace (CredentialLogin.main Sim.engine Sim.credentialEnv
                 (Sim.machine None [Sim.tokenResponse goodToken] false))).
Proof.
  destruct (credential_exit_zero_means_sheet_updated Sim.engine Sim.credentialEnv
              (Sim.machine None [Sim.tokenResponse goodToken] false))
    as (token & auth & timestamp & data & w & w' & Hv & _ & Hin).
  - vm_compute. reflexivity.
  - exists token, auth, timestamp. split; assumption.
Defined.

(* ===================================================================== *)
(** ** Missing configuration *)
(* ===================================================================== *)

(** X5.  When one of the four environment variables of the credential script
    is unset or empty, [main] ends with exit code 1 having done nothing
    but print: the state is untouched, no browser is launched, and the
    error line carries a message that starts with [Missing ]. *)
Theorem credential_missing_configuration_fails_fast {W : Type} (E : Engine W)
        (env : Env) (s : HState W) :
  truthy (envValue (PORTAL_EMAIL env)) = false \/
  truthy (envValue (PORTAL_PASSWORD env)) = false \/
  truthy (envValue (GOOGLE_SERVICE_ACCOUNT env)) = false \/
  truthy (envValue (SHEET_ID env)) = false ->
  let r := CredentialLogin.main E env s in
  outcome r = Exit 1 /\
  final r = s /\
  forallb isConsole (trace r) = true /\
  exists msg,
    startsWith "Missing " msg = true /\
    In (EvConsole LevelError [JsString "Error:"; JsString msg]) (trace r).
Proof.
  intros H. cbv zeta.
  unfold CredentialLogin.main, CredentialLogin.mainBody.
  destruct (truthy (envValue (PORTAL_EMAIL env))) eqn:He;
    destruct (truthy (envValue (PORTAL_PASSWORD env))) eqn:Hp;
    destruct (truthy (envValue (GOOGLE_SERVICE_ACCOUNT env))) eqn:Hg;
    destruct (truthy (envValue (SHEET_ID env))) eqn:Hs;
    try (exfalso; destruct H as [H | [H | [H | H]]]; discriminate);
    cbn; destruct s; (split; [reflexivity |]); (split; [reflexivity |]);
    (split; [reflexivity |]);
    eexists; (split; [| do 6 right; left; reflexivity]); reflexivity.
Qed.

Lemma credential_missing_configuration_witness :
  outcome (CredentialLogin.main Sim.bare Sim.autoEnv Sim.idle) = Exit 1.
Proof.
  apply (credential_missing_configuration_fails_fast Sim.bare Sim.autoEnv Sim.idle).
  left. reflexivity.
Defined.

Section FirstAttempt.

Context {W : Type} (E : Engine W).
Variable retry : RetryConfig.

(** With a budget of at least one attempt, the operation is invoked
    before anything else happens. *)
Lemma retryOperation_first_attempt {A} (operation : M W A) context s :
  (1 <= maxAttempts retry)%nat ->
  (forall c, outcome (operation s) <> Exit c) ->
  exists rest,
    trace (retryOperation E retry operation context s) =
      attemptLine retry context 1 :: trace (operation s) ++ rest.
Proof.
  intros Hmax HX. unfold retryOperation.
  destruct (maxAttempts retry) as [| n] eqn:Hn; [lia |].
  cbn [retryLoop].
  destruct (outcome (operation s)) as [v | e | c] eqn:Ho.
  - rewrite (tryCatch_Return _ _ s v)
      by (rewrite attempt_body, outcome_after; exact Ho).
    exists []. rewrite attempt_body, trace_after, app_nil_r.
    unfold attemptLine. rewrite Hn. reflexivity.
  - rewrite (tryCatch_Throw _ _ s e)
      by (rewrite attempt_body, outcome_after; exact Ho).
    rewrite attempt_body, trace_after, trace_after.
    eexists. unfold attemptLine. rewrite Hn. cbn [app]. reflexivity.
  - exfalso. exact (HX c eq_refl).
Qed.

End FirstAttempt.

Lemma console_is_beforeAnyPage level args : beforeAnyPage (EvConsole level args) = true.
Proof. reflexivity. Qed.

Lemma sleep_is_beforeAnyPage ms : beforeAnyPage (EvSleep ms) = true.
Proof. reflexivity. Qed.

Section Misconfigured.

Context {W : Type} (E : Engine W).
Variable env : Env.
Hypothesis unattended : CookieSession.setupMode env = false.
Hypothesis missing :
  truthy (envValue (GOOGLE_SERVICE_ACCOUNT env)) = false \/
  truthy (envValue (SHEET_ID env)) = false.

Lemma cookie_initBrowser_beforeAnyPage :
  Tame (fun _ => True) beforeAnyPage (CookieSession.initBrowser E env).
Proof. unfold CookieSession.initBrowser. tame. Qed.

Lemma cookie_launch_beforeAnyPage :
  Tame (fun _ => True) beforeAnyPage
       (retryOperation E CONFIG_retry (CookieSession.initBrowser E env) "Browser Init").
Proof.
  apply Tame_retryOperation;
    [apply console_is_beforeAnyPage | apply sleep_is_beforeAnyPage
     | apply cookie_initBrowser_beforeAnyPage].
Qed.

(** The unattended branch stops at its configuration check. *)
Lemma autoMode_misconfigured browser startTime (s : HState W) :
  exists msg,
    startsWith "Missing " msg = true /\
    CookieSession.autoMode E env browser startTime s = mkRun (Throw (newError msg)) s [].
Proof.
  unfold CookieSession.autoMode.
  destruct (truthy (envValue (GOOGLE_SERVICE_ACCOUNT env))) eqn:Hg.
  - destruct missing as [H | H]; [discriminate |]. rewrite H.
    eexists. split; [| reflexivity]. reflexivity.
  - eexists. split; [| reflexivity]. reflexivity.
Qed.

Lemma mainBody_misconfigured startTime (s : HState W) :
  let r := CookieSession.mainBody E env startTime s in
  (exists e, outcome r = Throw e) /\
  forallb beforeAnyPage (trace r) = true /\
  (1 <= countEvents isLaunch (trace r))%nat.
Proof.
  cbv zeta. unfold CookieSession.mainBody.
  set (launch := retryOperation E CONFIG_retry (CookieSession.initBrowser E env)
                                "Browser Init").
  destruct (cookie_launch_beforeAnyPage s I) as (_ & HP & HX). fold launch in HP, HX.
  destruct (retryOperation_first_attempt E CONFIG_retry (CookieSession.initBrowser E env)
              "Browser Init" s (le_S _ _ (le_S _ _ (le_n 1)))) as [rest Hrest].
  { exact (proj2 (proj2 (cookie_initBrowser_beforeAnyPage s I))). }
  fold launch in Hrest.
  assert (Hcount : (1 <= countEvents isLaunch (trace (launch s)))%nat).
  { rewrite Hrest. unfold CookieSession.initBrowser.
    rewrite bind_console_log, trace_after.
    change (attemptLine CONFIG_retry "Browser Init" 1 :: ?l)
      with ([attemptLine CONFIG_retry "Browser Init" 1] ++ l).
    rewrite !countEvents_app.
    assert (H1 : (1 <= countEvents isLaunch
                        (trace ((browser <- ext E (PuppeteerLaunch
                                                     (negb (CookieSession.setupMode env))) ;;
                                 console_log [JsString "[Browser] Launched successfully"] ;;
                                 ret browser) s)))%nat).
    { unfold bind, ext.
      destruct (perform E (PuppeteerLaunch (negb (CookieSession.setupMode env))) (world s))
        as [[b | e] w]; cbn; lia. }
    lia. }
  destruct (outcome (launch s)) as [b | e | c] eqn:Ho.
  - rewrite (bind_Return _ _ s b Ho), outcome_after, trace_after.
    rewrite (bind_quiet (setBrowserVar b) _ _ tt _ eq_refl), unattended.
    match goal with
    | |- context [CookieSession.autoMode E env b startTime ?s0] =>
        destruct (autoMode_misconfigured b startTime s0) as (msg & _ & Hrun)
    end.
    rewrite Hrun. cbn [outcome trace]. rewrite app_nil_r.
    split; [eauto |]. split; assumption.
  - rewrite (bind_Throw _ _ s e Ho). cbn [outcome trace].
    split; [eauto |]. split; assumption.
  - exfalso. exact (HX c eq_refl).
Qed.

Lemma mainBody_misconfigured_tame startTime :
  Tame (fun _ => True) beforeAnyPage (CookieSession.mainBody E env startTime).
Proof.
  intros s _. destruct (mainBody_misconfigured startTime s) as ([e He] & HP & _).
  split; [exact I |]. split; [exact HP |]. intros c. rewrite He. discriminate.
Qed.

Lemma cookie_reportFailure_console e :
  Tame (fun _ => True) beforeAnyPage (@CookieSession.reportFailure W e).
Proof. unfold CookieSession.reportFailure. tame. Qed.

End Misconfigured.

Lemma chatter_launches_nothing (t : list Event) :
  forallb isChatter t = true -> countEvents isLaunch t = 0%nat.
Proof.
  intros H. apply countEvents_none.
  apply (forallb_chatter _ t); [| exact H].
  intros ev Hev. destruct ev; try discriminate; reflexivity.
Qed.

(** X6.  The cookie script checks its configuration only after the browser
    is up: an unattended run with [GOOGLE_SERVICE_ACCOUNT] or [SHEET_ID]
    unset or empty ends with exit code 1, yet it has tried to launch the
    browser at least once; everything else it did was printing, waiting
    and handing responses to a listener, so no page was opened. *)
Theorem cookie_configuration_checked_after_launch {W : Type} (E : Engine W)
        (env : Env) (s : HState W) :
  CookieSession.setupMode env = false ->
  truthy (envValue (GOOGLE_SERVICE_ACCOUNT env)) = false \/
  truthy (envValue (SHEET_ID env)) = false ->
  let r := CookieSession.main E env s in
  outcome r = Exit 1 /\
  (1 <= countEvents isLaunch (trace r))%nat /\
  forallb (fun ev => isChatter ev || beforeAnyPage ev) (trace r) = true.
Proof.
  intros Hmode Hmiss. cbv zeta.
  destruct (exit_harness beforeAnyPage (CookieSession.mainBody E env (clock E (world s)))
              (@CookieSession.reportFailure W) (CookieSession.cleanup E)
              (mainBody_misconfigured_tame E env Hmode Hmiss _)
              cookie_reportFailure_console
              cookie_reportFailure_returns s) as (_ & H1 & _ & Ht & Htr).
  destruct (cookie_main_run E env s) as (pre & Hb & Hrun).
  destruct (mainBody_misconfigured E env Hmode Hmiss (clock E (world s)) s)
    as ([e He] & _ & Hcount).
  rewrite Hrun, outcome_after, trace_after.
  split; [apply H1; eexists; exact He |]. split.
  - rewrite (Htr e He), !countEvents_app. lia.
  - rewrite forallb_app. apply andb_true_iff. split.
    + apply (forallb_chatter _ pre); [| exact Hb]. intros ev Hev. rewrite Hev. reflexivity.
    + apply forallb_forall. intros ev Hin.
      rewrite forallb_forall in Ht. rewrite (Ht ev Hin). apply orb_true_r.
Qed.

Lemma cookie_configuration_checked_after_launch_witness :
  outcome (CookieSession.main Sim.bare (mkEnv None None (Some "{}") None None) Sim.idle)
  = Exit 1.
Proof.
  apply (cookie_configuration_checked_after_launch Sim.bare
           (mkEnv None None (Some "{}") None None) Sim.idle).
  - reflexivity.
  - right. reflexivity.
Defined.

(* ===================================================================== *)
(** ** Session Store: [save] *)
(* ===================================================================== *)

Lemma chatter_writes_nothing t :
  forallb isChatter t = true -> filter isSessionWrite t = [].
Proof.
  induction t as [| ev t IH]; [reflexivity |].
  cbn [forallb filter]. intros H. apply andb_true_iff in H. destruct H as [H1 H2].
  destruct ev; try discriminate; cbn [isSessionWrite]; exact (IH H2).
Qed.

(** A trace made of reads and chatter writes no file. *)
Ltac no_write :=
  repeat rewrite filter_app;
  cbn [filter isSessionWrite app];
  repeat (rewrite chatter_writes_nothing by assumption);
  reflexivity.

Ltac save_done := first [solve [eauto] | solve [no_write]].

Section Save.

Context {W : Type} (E : Engine W).

Lemma saveCookies_cases (page : Page) (s : HState W) :
  let file := CookieSession.CONFIG_cookies_filePath in
  let get := awaitOn E CookieSession.onResponse page (ext E (PageCookies page)) s in
  let r := CookieSession.saveCookies E page s in
  (exists b, outcome r = Return b) /\
  ((exists e, outcome get = Throw e) ->
     outcome r = Return false /\ filter isSessionWrite (trace r) = []) /\
  (forall cookies, outcome get = Return cookies ->
     let write := awaitOn E CookieSession.onResponse page
                          (ext E (FsWriteCookies file cookies)) (final get) in
     filter isSessionWrite (trace r) = [EvExt (FsWriteCookies file cookies)] /\
     (outcome write = Return tt -> outcome r = Return true) /\
     ((exists e, outcome write = Throw e) -> outcome r = Return false)).
Proof.
  cbv zeta.
  destruct (await_ext_run E (PageCookies page) page s) as (s1 & t1 & Hget & Ht1).
  rewrite Hget. cbn [final outcome].
  unfold CookieSession.saveCookies. cbv beta delta [tryCatch bind]. rewrite Hget.
  pose proof (ext_no_exit E (PageCookies page) s) as Hx1.
  destruct (outcome (ext E (PageCookies page) s)) as [cookies | e1 | c1];
    [| | exfalso; exact (Hx1 c1 eq_refl)].
  2:{ load_steps. repeat split; intros; try discriminate; save_done. }
  destruct (await_ext_run E (FsWriteCookies CookieSession.CONFIG_cookies_filePath cookies)
              page s1) as (s2 & t2 & Hwrite & Ht2).
  rewrite Hwrite.
  pose proof (ext_no_exit E (FsWriteCookies CookieSession.CONFIG_cookies_filePath cookies)
                          s1) as Hx2.
  destruct (outcome (ext E (FsWriteCookies CookieSession.CONFIG_cookies_filePath cookies) s1))
    as [[] | e2 | c2] eqn:Ho2; [| | exfalso; exact (Hx2 c2 eq_refl)]; load_steps.
  - split; [eauto |]. split; [intros [e He]; discriminate |].
    intros cookies0 Heq. injection Heq as <-. rewrite Hwrite. cbn [outcome].
    split; [no_write |]. split; [reflexivity | intros [e He]; discriminate].
  - split; [eauto |]. split; [intros [e He]; discriminate |].
    intros cookies0 Heq. injection Heq as <-. rewrite Hwrite. cbn [outcome].
    split; [no_write |]. split; [discriminate | reflexivity].
Qed.

(** [saveCookies] writes the session file at most once. *)
Lemma saveCookies_writes_once (page : Page) (s : HState W) :
  (countEvents isSessionWrite (trace (CookieSession.saveCookies E page s)) <= 1)%nat.
Proof.
  destruct (saveCookies_cases page s) as (_ & Hfail & Hok).
  cbv zeta in Hok.
  destruct (outcome (awaitOn E CookieSession.onResponse page (ext E (PageCookies page)) s))
    as [cookies | e | c] eqn:Hget.
  - destruct (Hok cookies eq_refl) as (Hw & _). unfold countEvents. rewrite Hw.
    cbn. lia.
  - destruct Hfail as [_ Hw]; [eauto |]. unfold countEvents. rewrite Hw. cbn. lia.
  - exfalso.
    rewrite (outcome_awaitOn E CookieSession.onResponse cookie_onResponse_returns)
      in Hget by apply ext_no_exit.
    exact (ext_no_exit E _ s c Hget).
Qed.

End Save.

(** X7.  [saveCookies] never throws.  When reading the cookies of the page
    fails it returns [false] and writes nothing; otherwise it writes the
    session file exactly once, with the cookies just read, and returns
    [true] when the write succeeds and [false] when it fails. *)
Theorem saveCookies_contract {W : Type} (E : Engine W) (page : Page) (s : HState W) :
  let file := CookieSession.CONFIG_cookies_filePath in
  let get := awaitOn E CookieSession.onResponse page (ext E (PageCookies page)) s in
  let r := CookieSession.saveCookies E page s in
  (exists b, outcome r = Return b) /\
  ((exists e, outcome get = Throw e) ->
     outcome r = Return false /\ filter isSessionWrite (trace r) = []) /\
  (forall cookies, outcome get = Return cookies ->
     let write := awaitOn E CookieSession.onResponse page
                          (ext E (FsWriteCookies file cookies)) (final get) in
     filter isSessionWrite (trace r) = [EvExt (FsWriteCookies file cookies)] /\
     (outcome write = Return tt -> outcome r = Return true) /\
     ((exists e, outcome write = Throw e) -> outcome r = Return false)).
Proof. apply saveCookies_cases. Qed.

(* ===================================================================== *)
(** ** What the steps of an attempt may emit *)
(* ===================================================================== *)

Lemma chatter_is_no_lifecycle ev : isChatter ev = true -> isLifecycle ev = false.
Proof. destruct ev; simpl; intros H; try reflexivity; discriminate. Qed.

Lemma chatter_is_no_write ev : isChatter ev = true -> isSessionWrite ev = false.
Proof. destruct ev; simpl; intros H; try reflexivity; discriminate. Qed.

Section AttemptSteps.

Context {W : Type} (E : Engine W).
Variable env : Env.
Variable J : JsValue -> Prop.
Variable P : Event -> bool.

Hypothesis truthy_J : forall v, truthy v = true -> J v.

Section BeforePersist.

(** [P] permits every event but the lifecycle calls and the write of the
    session file. *)
Hypothesis step_permitted :
  forall ev, isLifecycle ev || isSessionWrite ev = false -> P ev = true.

Lemma chatter_permitted_step : forall ev, isChatter ev = true -> P ev = true.
Proof.
  intros ev H. apply step_permitted.
  rewrite (chatter_is_no_lifecycle ev H), (chatter_is_no_write ev H). reflexivity.
Qed.

Lemma cookie_onResponse_step r : Tame J P (@CookieSession.onResponse W r).
Proof. apply cookie_onResponse_tame; [exact truthy_J | exact chatter_permitted_step]. Qed.

Lemma credential_onResponse_step r : Tame J P (@CredentialLogin.onResponse W r).
Proof. apply credential_onResponse_tame; [exact truthy_J | exact chatter_permitted_step]. Qed.

Lemma filterCookies_step now cookies :
  Tame J P (@CookieSession.filterCookies W now cookies).
Proof. apply filterCookies_tame. exact chatter_permitted_step. Qed.

Hint Resolve cookie_onResponse_step credential_onResponse_step filterCookies_step : core.

Lemma loadCookies_step page : Tame J P (CookieSession.loadCookies E page).
Proof. unfold CookieSession.loadCookies. tame. Qed.

Lemma verifyCookiesValid_step page : Tame J P (CookieSession.verifyCookiesValid E page).
Proof. unfold CookieSession.verifyCookiesValid. tame. Qed.

Hint Resolve loadCookies_step verifyCookiesValid_step : core.

Lemma stepLoadCookies_step page : Tame J P (CookieSession.stepLoadCookies E page).
Proof. unfold CookieSession.stepLoadCookies. tame. Qed.

Lemma cookie_stepNavigate_step page : Tame J P (CookieSession.stepNavigate E page).
Proof. unfold CookieSession.stepNavigate. tame. Qed.

Lemma stepVerify_step page : Tame J P (CookieSession.stepVerify E page).
Proof. unfold CookieSession.stepVerify. tame. Qed.

Lemma stepLogoutLogin_step page : Tame J P (CookieSession.stepLogoutLogin E page).
Proof. unfold CookieSession.stepLogoutLogin. tame. Qed.

Lemma cookie_stepAwaitToken_step page : Tame J P (CookieSession.stepAwaitToken E page).
Proof. unfold CookieSession.stepAwaitToken. tame. Qed.

Lemma credential_stepNavigate_step page : Tame J P (CredentialLogin.stepNavigate E page).
Proof. unfold CredentialLogin.stepNavigate. tame. Qed.

Lemma stepLogout_step page : Tame J P (CredentialLogin.stepLogout E page).
Proof. unfold CredentialLogin.stepLogout. tame. Qed.

Lemma stepLogin_step page : Tame J P (CredentialLogin.stepLogin E env page).
Proof. unfold CredentialLogin.stepLogin. tame. Qed.

Lemma credential_stepAwaitToken_step page : Tame J P (CredentialLogin.stepAwaitToken E page).
Proof. unfold CredentialLogin.stepAwaitToken. tame. Qed.

Lemma stepValidateAndReturn_step : Tame J P (@CredentialLogin.stepValidateAndReturn W).
Proof. unfold CredentialLogin.stepValidateAndReturn. tame. Qed.

End BeforePersist.

Section WholeBody.

(** [P] permits every event but the lifecycle calls. *)
Hypothesis body_permitted : forall ev, isLifecycle ev = false -> P ev = true.

Lemma step_permitted_body :
  forall ev, isLifecycle ev || isSessionWrite ev = false -> P ev = true.
Proof.
  intros ev H. apply body_permitted. apply orb_false_iff in H. exact (proj1 H).
Qed.

Lemma cookie_onResponse_body r : Tame J P (@CookieSession.onResponse W r).
Proof. apply cookie_onResponse_step. exact step_permitted_body. Qed.

Hint Resolve cookie_onResponse_body : core.

Lemma saveCookies_body page : Tame J P (CookieSession.saveCookies E page).
Proof. unfold CookieSession.saveCookies. tame. Qed.

Hint Resolve saveCookies_body : core.

Lemma stepPersistAndReturn_body page : Tame J P (CookieSession.stepPersistAndReturn E page).
Proof. unfold CookieSession.stepPersistAndReturn. tame. Qed.

(** The [try] block of [captureTokenWithCookies]. *)
Lemma cookie_attempt_body page :
  Tame J P (CookieSession.stepLoadCookies E page ;;
            CookieSession.stepNavigate E page ;;
            CookieSession.stepVerify E page ;;
            CookieSession.stepLogoutLogin E page ;;
            CookieSession.stepAwaitToken E page ;;
            CookieSession.stepPersistAndReturn E page).
Proof.
  apply Tame_bind; [apply stepLoadCookies_step; exact step_permitted_body | intros _].
  apply Tame_bind; [apply cookie_stepNavigate_step; exact step_permitted_body | intros _].
  apply Tame_bind; [apply stepVerify_step; exact step_permitted_body | intros _].
  apply Tame_bind; [apply stepLogoutLogin_step; exact step_permitted_body | intros _].
  apply Tame_bind; [apply cookie_stepAwaitToken_step; exact step_permitted_body | intros _].
  apply stepPersistAndReturn_body.
Qed.

(** The [try] block of [captureToken]. *)
Lemma credential_attempt_body page :
  Tame J P (CredentialLogin.stepNavigate E page ;;
            CredentialLogin.stepLogout E page ;;
            CredentialLogin.stepLogin E env page ;;
            CredentialLogin.stepAwaitToken E page ;;
            CredentialLogin.stepValidateAndReturn).
Proof.
  apply Tame_bind; [apply credential_stepNavigate_step; exact step_permitted_body | intros _].
  apply Tame_bind; [apply stepLogout_step; exact step_permitted_body | intros _].
  apply Tame_bind; [apply stepLogin_step; exact step_permitted_body | intros _].
  apply Tame_bind; [apply credential_stepAwaitToken_step; exact step_permitted_body | intros _].
  apply stepValidateAndReturn_step.
Qed.

End WholeBody.

End AttemptSteps.

(* ===================================================================== *)
(** ** The page of an attempt *)
(* ===================================================================== *)

Lemma filter_none {X} (f : X -> bool) (l : list X) :
  forallb (fun x => negb (f x)) l = true -> filter f l = [].
Proof.
  induction l as [| x l IH]; [reflexivity |].
  cbn [forallb filter]. intros H. apply andb_true_iff in H. destruct H as [H1 H2].
  destruct (f x); [discriminate | exact (IH H2)].
Qed.

Lemma chatter_closes_no_page t :
  forallb isChatter t = true -> filter isPageClose t = [].
Proof.
  intros H. apply filter_none. apply (forallb_chatter _ t); [| exact H].
  intros ev Hev. destruct ev; try discriminate; reflexivity.
Qed.

Lemma no_lifecycle_closes_no_page ev :
  isLifecycle ev = false -> negb (isPageClose ev) = true.
Proof.
  destruct ev as [level args | ms | A op | r]; simpl; intros H; try reflexivity.
  destruct op; simpl in *; try reflexivity; discriminate.
Qed.

Section Awaited.

Context {W : Type} (E : Engine W).
Variable handler : Response -> M W unit.
Hypothesis handler_returns : forall r, Returns (handler r).
Hypothesis handler_chatter : forall r, Tame (fun _ => True) isChatter (handler r).

Lemma deliver_chatter p (s : HState W) :
  forallb isChatter (trace (deliver E handler p s)) = true.
Proof.
  apply (Tame_deliver E (fun _ => True) isChatter (fun _ => eq_refl)
           handler handler_chatter p s I).
Qed.

(** An awaited call to a collaborator, whatever the listener. *)
Lemma awaited_ext_run {A} (op : Op A) p (s : HState W) :
  exists s' td,
    awaitOn E handler p (ext E op) s = mkRun (outcome (ext E op s)) s' (EvExt op :: td) /\
    forallb isChatter td = true.
Proof.
  rewrite (awaitOn_run E handler handler_returns p (ext E op) s) by apply ext_no_exit.
  exists (final (deliver E handler p (final (ext E op s)))),
         (trace (deliver E handler p (final (ext E op s)))).
  split; [| apply deliver_chatter].
  f_equal. unfold ext. destruct (perform E op (world s)). reflexivity.
Qed.

End Awaited.

Section Lifecycle.

Context {W : Type} (E : Engine W).

(** [try { body } finally { await page.close() }] when the body does not
    end the process: the body's events, then the close and the listener's
    chatter; the close is the only one. *)
Lemma closing_page_run {A} handler (body : M W A) page (s : HState W) :
  (forall r, Returns (handler r)) ->
  (forall r, Tame (fun _ => True) isChatter (handler r)) ->
  Tame (fun _ => True) (fun ev => negb (isPageClose ev)) body ->
  filter isPageClose
         (trace (tryFinally body (awaitOn E handler page (ext E (PageClose page))) s))
  = [EvExt (PageClose page)].
Proof.
  intros Hret Hch Hbody. destruct (Hbody s I) as (_ & HP & HX).
  unfold tryFinally.
  destruct (body s) as [[a | e | c] s' t]; cbn [outcome trace] in *;
    try (exfalso; exact (HX c eq_refl));
    destruct (awaited_ext_run E handler Hret Hch (PageClose page) page s')
      as (s2 & td & Hrun & Htd);
    rewrite Hrun;
    destruct (outcome (ext E (PageClose page) s')) as [[] | e' | c'];
    cbn [trace]; rewrite filter_app, (filter_none _ _ HP);
    cbn [filter isPageClose app]; rewrite (chatter_closes_no_page td Htd); reflexivity.
Qed.

End Lifecycle.

(** X8.  In both scripts an attempt whose page was opened and prepared closes
    that page exactly once, however the attempt ends.  When preparing the
    page fails (the viewport or the user agent), the attempt throws that
    error and the page is never closed: the preparation sits before the
    [try]. *)
Theorem page_closed_once_per_attempt {W : Type} (E : Engine W) (env : Env)
        (browser : Browser) (s : HState W) (page : Page) (w1 : W) :
  perform E (BrowserNewPage browser) (world s) = (Ok page, w1) ->
  let cookieRun := CookieSession.captureTokenWithCookies E browser s in
  let credentialRun := CredentialLogin.captureToken E env browser s in
  (forall w2 w3,
     perform E (PageSetViewport page 1920 1080) w1 = (Ok tt, w2) ->
     perform E (PageSetUserAgent page userAgent) w2 = (Ok tt, w3) ->
     filter isPageClose (trace cookieRun) = [EvExt (PageClose page)] /\
     filter isPageClose (trace credentialRun) = [EvExt (PageClose page)]) /\
  (forall e w2,
     perform E (PageSetViewport page 1920 1080) w1 = (Err e, w2) ->
     (outcome cookieRun = Throw e /\ filter isPageClose (trace cookieRun) = []) /\
     (outcome credentialRun = Throw e /\ filter isPageClose (trace credentialRun) = [])) /\
  (forall e w2 w3,
     perform E (PageSetViewport page 1920 1080) w1 = (Ok tt, w2) ->
     perform E (PageSetUserAgent page userAgent) w2 = (Err e, w3) ->
     (outcome cookieRun = Throw e /\ filter isPageClose (trace cookieRun) = []) /\
     (outcome credentialRun = Throw e /\ filter isPageClose (trace credentialRun) = [])).
Proof.
  intros Hnew. cbv zeta.
  unfold CookieSession.captureTokenWithCookies, CredentialLogin.captureToken.
  rewrite !(bind_ext_Ok E _ _ _ _ _ Hnew).
  split; [| split].
  - intros w2 w3 Hview Hagent.
    rewrite !(bind_ext_Ok E _ _ (setWorld w1 s) _ _ Hview).
    rewrite !(bind_ext_Ok E _ _ (setWorld w2 (setWorld w1 s)) _ _ Hagent).
    rewrite !(bind_quiet (setCapturedToken JsNull) _ _ tt _ eq_refl).
    rewrite !bind_console_log.
    rewrite !(bind_quiet (pageOnResponse page) _ _ tt _ eq_refl).
    rewrite !after_after, !trace_after, !filter_app. cbn [filter isPageClose app].
    split.
    + apply closing_page_run.
      * apply cookie_onResponse_returns.
      * intros r. apply cookie_onResponse_tame; [intros; exact I | auto].
      * apply cookie_attempt_body; [intros; exact I | exact no_lifecycle_closes_no_page].
    + apply closing_page_run.
      * apply credential_onResponse_returns.
      * intros r. apply credential_onResponse_tame; [intros; exact I | auto].
      * apply credential_attempt_body; [intros; exact I | exact no_lifecycle_closes_no_page].
  - intros e w2 Hview.
    rewrite !(bind_ext_Err E _ _ (setWorld w1 s) _ _ Hview).
    repeat split; reflexivity.
  - intros e w2 w3 Hview Hagent.
    rewrite !(bind_ext_Ok E _ _ (setWorld w1 s) _ _ Hview).
    rewrite !(bind_ext_Err E _ _ (setWorld w2 (setWorld w1 s)) _ _ Hagent).
    repeat split; reflexivity.
Qed.

Lemma page_closed_once_witness :
  filter isPageClose (trace (CookieSession.captureTokenWithCookies Sim.bare 1 Sim.idle))
  = [EvExt (PageClose 1)].
Proof.
  destruct (page_closed_once_per_attempt Sim.bare Sim.autoEnv 1 Sim.idle 1 tt eq_refl)
    as (Hok & _ & _).
  exact (proj1 (Hok tt tt eq_refl eq_refl)).
Defined.

(* ===================================================================== *)
(** ** When the session file is rewritten *)
(* ===================================================================== *)

Lemma no_write_permits_steps ev :
  isLifecycle ev || isSessionWrite ev = false -> negb (isSessionWrite ev) = true.
Proof. intros H. apply orb_false_iff in H. rewrite (proj2 H). reflexivity. Qed.

Section WriteGuard.

Context {W : Type} (E : Engine W).

(** A run that wrote the session file at most once, and not at all if it
    ended with an empty slot. *)
Let Guarded {A} (r : Run W A) : Prop :=
  (countEvents isSessionWrite (trace r) <= 1)%nat /\
  (truthy (capturedToken (final r)) = false ->
   countEvents isSessionWrite (trace r) = 0%nat).

Let quiet : Event -> bool := fun ev => negb (isSessionWrite ev).

Lemma Guarded_bind {A B} (m : M W A) (k : A -> M W B) s :
  Tame (fun _ => True) quiet m ->
  (forall a, outcome (m s) = Return a -> Guarded (k a (final (m s)))) ->
  Guarded (bind m k s).
Proof.
  intros Hm Hk. destruct (Hm s I) as (_ & HP & HX).
  pose proof (countEvents_none _ _ HP) as Hzero.
  unfold bind. destruct (m s) as [[a | e | c] s' t]; cbn [outcome final trace] in *.
  - destruct (Hk a eq_refl) as [Hle Hempty]. unfold Guarded.
    rewrite trace_after, final_after, countEvents_app, Hzero. split; [lia |].
    intros Hf. rewrite (Hempty Hf). reflexivity.
  - unfold Guarded. cbn [trace]. rewrite Hzero. split; [lia | reflexivity].
  - exfalso. exact (HX c eq_refl).
Qed.

Lemma Guarded_tryFinally {A} (body : M W A) (cleanup : M W unit) s :
  Guarded (body s) ->
  (forall c, outcome (body s) <> Exit c) ->
  (forall J : JsValue -> Prop,
      (forall v, truthy v = true -> J v) -> Tame J quiet cleanup) ->
  Guarded (tryFinally body cleanup s).
Proof.
  intros [Hle Hempty] HX Hc. unfold tryFinally.
  destruct (body s) as [[a | e | c] s' t]; cbn [outcome final trace] in *;
    try (exfalso; exact (HX c eq_refl));
    destruct (Hc (fun _ => True) (fun _ _ => I) s' I) as (_ & HP & _);
    pose proof (countEvents_none _ _ HP) as Hzero;
    pose proof (fun Hs => proj1 (Hc (fun v => truthy v = true) (fun _ Hv => Hv) s' Hs))
      as Hkeep;
    destruct (cleanup s') as [[u | e' | c'] s'' t']; cbn [outcome final trace] in *;
    unfold Guarded; cbn [trace final]; rewrite countEvents_app, Hzero;
    (split; [lia |]); intros Hf;
    (destruct (truthy (capturedToken s')) eqn:Hs;
     [rewrite (Hkeep eq_refl) in Hf; discriminate | rewrite (Hempty eq_refl); reflexivity]).
Qed.

(** The step that awaits the token returns only with a token in the
    slot. *)
Lemma stepAwaitToken_Return page (s : HState W) u :
  outcome (CookieSession.stepAwaitToken E page s) = Return u ->
  truthy (capturedToken (final (CookieSession.stepAwaitToken E page s))) = true.
Proof.
  intros H.
  destruct (awaitToken_bounded E CookieSession.onResponse
              cookie_onResponse_returns
              (cookie_onResponse_tame _ _ (fun _ _ => I) chatter_sets_no_timer)
              (cookie_onResponse_tame _ _ (fun _ _ => I) chatter_is_polite)
              page 30 [JsString "[Network] Waiting for token..."]
              CookieSession.msgTokenNotCaptured s)
    as (_ & _ & _ & Hempty & _).
  fold (CookieSession.stepAwaitToken E page) in Hempty.
  destruct (truthy (capturedToken (final (CookieSession.stepAwaitToken E page s))));
    [reflexivity |].
  destruct (Hempty eq_refl) as [Ho _]. rewrite Ho in H. discriminate.
Qed.

(** The last step writes the file through [saveCookies] alone. *)
Lemma stepPersistAndReturn_writes page (s : HState W) :
  countEvents isSessionWrite (trace (CookieSession.stepPersistAndReturn E page s)) =
  countEvents isSessionWrite (trace (CookieSession.saveCookies E page s)).
Proof.
  unfold CookieSession.stepPersistAndReturn.
  rewrite bind_console_log, trace_after.
  destruct (saveCookies_returns E page s) as [b Hb].
  rewrite (bind_Return _ _ s b Hb), bind_getCapturedToken, trace_after.
  rewrite !countEvents_app.
  replace (countEvents isSessionWrite
             (trace ((liftResult
                        (validateToken
                           (capturedToken (final (CookieSession.saveCookies E page s)))) ;;
                      ret (capturedToken (final (CookieSession.saveCookies E page s))))
                       (final (CookieSession.saveCookies E page s)))))
    with 0%nat.
  - cbn. lia.
  - destruct (validateToken (capturedToken (final (CookieSession.saveCookies E page s))));
      reflexivity.
Qed.

Lemma stepPersistAndReturn_guarded page (s : HState W) :
  truthy (capturedToken s) = true ->
  Guarded (CookieSession.stepPersistAndReturn E page s).
Proof.
  intros Hs. split.
  - rewrite stepPersistAndReturn_writes. apply saveCookies_writes_once.
  - intros Hf. exfalso.
    destruct (stepPersistAndReturn_run E page s) as [Hfin _]. rewrite Hfin in Hf.
    rewrite (saveCookies_keeps_token E page s Hs) in Hf. discriminate.
Qed.

Lemma captureTokenWithCookies_guarded browser (s : HState W) :
  Guarded (CookieSession.captureTokenWithCookies E browser s).
Proof.
  unfold CookieSession.captureTokenWithCookies.
  apply Guarded_bind; [tame | intros page _].
  apply Guarded_bind; [tame | intros _ _].
  apply Guarded_bind; [tame | intros _ _].
  apply Guarded_bind; [tame | intros _ _].
  apply Guarded_bind; [tame | intros _ _].
  apply Guarded_bind; [tame | intros _ _].
  match goal with |- Guarded (tryFinally _ _ ?s0) => generalize s0 end.
  intros s0. apply Guarded_tryFinally.
  - apply Guarded_bind;
      [apply stepLoadCookies_step; [intros; exact I | exact no_write_permits_steps]
      | intros _ _].
    apply Guarded_bind;
      [apply cookie_stepNavigate_step; [intros; exact I | exact no_write_permits_steps]
      | intros _ _].
    apply Guarded_bind;
      [apply stepVerify_step; [intros; exact I | exact no_write_permits_steps]
      | intros _ _].
    apply Guarded_bind;
      [apply stepLogoutLogin_step; [intros; exact I | exact no_write_permits_steps]
      | intros _ _].
    apply Guarded_bind;
      [apply cookie_stepAwaitToken_step; [intros; exact I | exact no_write_permits_steps]
      | intros u Hu].
    apply stepPersistAndReturn_guarded. exact (stepAwaitToken_Return _ _ u Hu).
  - intros c.
    exact (proj2 (proj2 (cookie_attempt_body E (fun _ => True) (fun _ => true)
                           (fun _ _ => I) (fun _ _ => eq_refl) page s0 I)) c).
  - intros J HJ. apply Tame_awaitOn.
    + intros r. reflexivity.
    + intros r. apply cookie_onResponse_tame; [exact HJ |].
      intros ev Hev. unfold quiet. rewrite (chatter_is_no_write ev Hev). reflexivity.
    + apply Tame_ext. reflexivity.
Qed.

End WriteGuard.

(** X9.  An attempt of the cookie script writes the session file at most
    once, and not at all when it ends with no token in the slot. *)
Theorem session_file_rewritten_only_after_capture {W : Type} (E : Engine W)
        (browser : Browser) (s : HState W) :
  let r := CookieSession.captureTokenWithCookies E browser s in
  (countEvents isSessionWrite (trace r) <= 1)%nat /\
  (truthy (capturedToken (final r)) = false ->
   countEvents isSessionWrite (trace r) = 0%nat).
Proof. apply captureTokenWithCookies_guarded. Qed.

(* ===================================================================== *)
(** ** Spreadsheet Writer *)
(* ===================================================================== *)

(** X10.  [updateSheet] without credentials throws before any call to the
    spreadsheet service; when authentication fails it throws that error
    and sends no update; otherwise it sends exactly one update, of the
    configured range of the configured sheet with the one row
    [[token, timestamp]], where the timestamp is taken after
    authentication; it throws the error of that call when it fails, and
    returns its answer otherwise, unless reading [updatedCells] off the
    answer throws. *)
Theorem updateSheet_contract {W : Type} (E : Engine W) (env : Env) (token : JsValue)
        (s : HState W) :
  let r := updateSheet E env token s in
  (GOOGLE_SERVICE_ACCOUNT env = None ->
     (exists e, outcome r = Throw e) /\ filter isGoogleCall (trace r) = []) /\
  (forall credentials, GOOGLE_SERVICE_ACCOUNT env = Some credentials ->
     let auth := ext E (GoogleAuth credentials) s in
     (forall e, outcome auth = Throw e ->
        outcome r = Throw e /\ filter isSheetsUpdate (trace r) = []) /\
     (forall a, outcome auth = Return a ->
        let timestamp := isoString E (clock E (world (final auth))) in
        let call := SheetsUpdate a (envValue (SHEET_ID env)) CONFIG_sheet_range
                                 [[token; JsString timestamp]] in
        filter isSheetsUpdate (trace r) = [EvExt call] /\
        (forall e, outcome (ext E call (final auth)) = Throw e -> outcome r = Throw e) /\
        (forall data, outcome (ext E call (final auth)) = Return data ->
           outcome r = match getProp data "updatedCells" with
                       | Ok _ => Return data
                       | Err e => Throw e
                       end))).
Proof.
  cbv zeta. unfold updateSheet, getGoogleAuth. split.
  - intros Hnone. rewrite Hnone. cbn. split; [eauto | reflexivity].
  - intros credentials Hsome. rewrite Hsome.
    unfold bind, ext, dateIso, console_log, emit, ret, liftResult, throw.
    cbn [after outcome final trace world setWorld app].
    destruct (perform E (GoogleAuth credentials) (world s)) as [[a | e] w1];
      cbn [after outcome final trace world setWorld app].
    + split; [intros e He; discriminate |].
      intros a0 Ha0. injection Ha0 as <-.
      destruct (perform E (SheetsUpdate a (envValue (SHEET_ID env)) CONFIG_sheet_range
                                        [[token; JsString (isoString E (clock E w1))]]) w1)
        as [[data | e] w2]; cbn [after outcome final trace world setWorld app].
      * split; [| split; [intros e He; discriminate |]].
        -- destruct (getProp data "updatedCells"); reflexivity.
        -- intros data0 Hd. injection Hd as <-.
           destruct (getProp data "updatedCells"); reflexivity.
      * split; [reflexivity |]. split.
        -- intros e0 He. injection He as <-. reflexivity.
        -- intros data Hd. discriminate.
    + split.
      * intros e0 He. injection He as <-. split; reflexivity.
      * intros a Ha. discriminate.
Qed.

(* ===================================================================== *)
(** ** Session Store: what the expiry filter prints *)
(* ===================================================================== *)

(** X11.  The expiry filter prints one line per record it drops, in the order
    of the records, names the record in it, prints nothing else and
    leaves the state as it was. *)
Theorem filterCookies_log {W : Type} (now : Q) (cookies : list Cookie) (s : HState W) :
  trace (CookieSession.filterCookies now cookies s) =
    map skipLine (filter (CookieSession.cookieExpired now) cookies) /\
  final (CookieSession.filterCookies now cookies s) = s.
Proof.
  induction cookies as [| c rest IH]; cbn [CookieSession.filterCookies filter map].
  - split; reflexivity.
  - destruct IH as [IHt IHf].
    destruct (filterCookies_run now rest s) as (t & Hrun & _).
    rewrite Hrun in IHt. cbn [trace] in IHt. subst t.
    destruct (CookieSession.cookieExpired now c).
    + unfold bind. cbn [console_log emit ret after]. rewrite Hrun.
      cbn [after ret trace final map app]. rewrite app_nil_r. split; reflexivity.
    + unfold bind. cbn [ret after]. rewrite Hrun.
      cbn [after ret trace final map app]. rewrite app_nil_r. split; reflexivity.
Qed.

(* ===================================================================== *)
(** ** Token Interceptor: a token that is not a string *)
(* ===================================================================== *)

(** X12.  A token that is not a string (a number, an object) is stored by the
    listener of either script all the same: the success line is
    printed, then the preview fails and the failure is printed, and the
    listener returns.  The stored value is truthy, so waiting for the
    token ends; [validateToken] then rejects it with the message of its
    first test. *)
Theorem non_string_token_is_captured_then_rejected {W : Type} (r : Response)
        (v : JsValue) (s : HState W) :
  offeredToken r = Some v ->
  (forall t, v <> JsString t) ->
  (let run := CookieSession.onResponse r s in
   outcome run = Return tt /\ capturedToken (final run) = v /\
   In capturedLine (trace run) /\ In previewFailureLine (trace run)) /\
  (let run := CredentialLogin.onResponse r s in
   outcome run = Return tt /\ capturedToken (final run) = v /\
   In capturedLine (trace run) /\ In previewFailureLine (trace run)) /\
  truthy v = true /\
  validateToken v = Err (newError msgTokenEmpty).
Proof.
  intros Hoff Hns. pose proof (offeredToken_truthy r v Hoff) as Htruthy.
  unfold offeredToken in Hoff.
  destruct (includes "/v5/token" (url r)) eqn:Hu; [| discriminate].
  destruct (contentType r) as [ct |] eqn:Hct; [| discriminate].
  destruct (truthy (JsString ct) && includes "application/json" ct) eqn:Hj; [| discriminate].
  destruct (json r) as [data | e] eqn:Hjs; [| discriminate].
  destruct (getProp data "access_token") as [x | e] eqn:Hg; [| discriminate].
  destruct (truthy x) eqn:Hx; [| discriminate].
  injection Hoff as ->.
  assert (Hsub : substring50 v = Err (newError "capturedToken.substring is not a function")).
  { destruct v; try reflexivity. exfalso. exact (Hns s0 eq_refl). }
  cbv zeta. unfold CookieSession.onResponse, CredentialLogin.onResponse.
  rewrite Hu, Hct, Hj, Hjs.
  unfold bind, tryCatch, liftResult, console_log, console_error, emit, ret, throw,
    setCapturedToken.
  cbn [after outcome final trace app]. rewrite Hg.
  cbn [after outcome final trace app]. rewrite Hx.
  cbn [after outcome final trace app]. rewrite Hsub.
  cbn [after outcome final trace app capturedToken message].
  unfold capturedLine, previewFailureLine.
  repeat split; auto;
    try (cbn; repeat (first [left; reflexivity | right])).
  apply validateToken_not_string. exact Hns.
Qed.

Lemma non_string_token_witness :
  capturedToken
    (final (CookieSession.onResponse
              (mkResponse "https://portal.talabat.com/v5/token" 200
                          (Some "application/json")
                          (Ok (JsObject [("access_token", JsNumber (12345 # 1)%Q)])))
              Sim.idle))
  = JsNumber (12345 # 1)%Q.
Proof.
  destruct (non_string_token_is_captured_then_rejected
              (mkResponse "https://portal.talabat.com/v5/token" 200
                          (Some "application/json")
                          (Ok (JsObject [("access_token", JsNumber (12345 # 1)%Q)])))
              (JsNumber (12345 # 1)%Q) Sim.idle) as ((_ & H & _) & _).
  - reflexivity.
  - intros t. discriminate.
  - exact H.
Defined.

(* ===================================================================== *)
(** ** The logout step of the credential script *)
(* ===================================================================== *)

(** The in-page loop over the four attribute selectors: it clicks the
    first that matches and never throws. *)
Lemma clickFirst_logoutSelectors (d : Dom) :
  (existsb d logoutSelectors = false -> clickFirst logoutSelectors d = Done false) /\
  (existsb d logoutSelectors = true ->
     exists sel, In sel logoutSelectors /\ d sel = true /\
                 clickFirst logoutSelectors d = Clicked sel true).
Proof.
  unfold logoutSelectors. cbn [existsb clickFirst querySelector forallb validCss andb].
  destruct (d SelLogoutTestId) eqn:H1; cbn [orb].
  { split; [discriminate | intros _; exists SelLogoutTestId; cbn; auto]. }
  destruct (d SelLogoutClass) eqn:H2; cbn [orb].
  { split; [discriminate | intros _; exists SelLogoutClass; cbn; auto]. }
  destruct (d SelLogoutAria) eqn:H3; cbn [orb].
  { split; [discriminate | intros _; exists SelLogoutAria; cbn; auto]. }
  destruct (d SelLogoutHref) eqn:H4; cbn [orb].
  { split; [discriminate | intros _; exists SelLogoutHref; cbn; auto 6]. }
  split; [reflexivity | discriminate].
Qed.

(** The loop of the credential script goes on to the four [:has-text]
    selectors, the first of which the browser rejects. *)
Lemma clickFirst_logoutStrategies (d : Dom) :
  (existsb d logoutSelectors = false ->
     exists e, clickFirst CredentialLogin.logoutStrategies d = Raised e) /\
  (existsb d logoutSelectors = true ->
     exists sel, In sel logoutSelectors /\ d sel = true /\
                 clickFirst CredentialLogin.logoutStrategies d = Clicked sel true).
Proof.
  unfold CredentialLogin.logoutStrategies, logoutSelectors.
  cbn [existsb clickFirst querySelector forallb validCss andb].
  destruct (d SelLogoutTestId) eqn:H1; cbn [orb].
  { split; [discriminate | intros _; exists SelLogoutTestId; cbn; auto]. }
  destruct (d SelLogoutClass) eqn:H2; cbn [orb].
  { split; [discriminate | intros _; exists SelLogoutClass; cbn; auto]. }
  destruct (d SelLogoutAria) eqn:H3; cbn [orb].
  { split; [discriminate | intros _; exists SelLogoutAria; cbn; auto]. }
  destruct (d SelLogoutHref) eqn:H4; cbn [orb].
  { split; [discriminate | intros _; exists SelLogoutHref; cbn; auto 6]. }
  split; [intros _; eexists; reflexivity | discriminate].
Qed.

Section RefinedBind.

Context {W : Type}.
Variable J : JsValue -> Prop.
Variable P : Event -> bool.

(** Sequencing, when the values the first part can return are known. *)
Lemma Tame_bind_where {A B} (R : A -> Prop) (m : M W A) (k : A -> M W B) :
  Tame J P m ->
  (forall s a, outcome (m s) = Return a -> R a) ->
  (forall a, R a -> Tame J P (k a)) ->
  Tame J P (bind m k).
Proof.
  intros Hm HR Hk s H. destruct (Hm s H) as (HJ & HP & HX).
  pose proof (HR s) as HRs. unfold bind.
  destruct (m s) as [[a | e | c] s' t]; simpl in *.
  - destruct (Hk a (HRs a eq_refl) s' HJ) as (HJ' & HP' & HX').
    rewrite final_after, trace_after, outcome_after, forallb_app, HP, HP'. auto.
  - repeat split; auto. discriminate.
  - exfalso. exact (HX c eq_refl).
Qed.

End RefinedBind.

Section CredentialLogout.

Context {W : Type} (E : Engine W).

Let P : Event -> bool := fun ev => negb (isLogoutFallbackWarning ev).

Lemma credential_onResponse_no_fallback r :
  Tame (fun _ => True) P (@CredentialLogin.onResponse W r).
Proof. unfold CredentialLogin.onResponse. tame. Qed.

Hint Resolve credential_onResponse_no_fallback : core.

(** The logout script, run by [page.evaluate], resolves to [true] or
    rejects. *)
Lemma evaluate_logoutStrategies_Return page (s : HState W) b :
  outcome (awaitOn E CredentialLogin.onResponse page
             (evaluate E page (clickFirst CredentialLogin.logoutStrategies)) s) = Return b ->
  b = true.
Proof.
  rewrite (outcome_awaitOn E CredentialLogin.onResponse credential_onResponse_returns).
  2:{ intros c.
      exact (proj2 (proj2 (Tame_evaluate E (fun _ => True) (fun _ => true) page
                             (clickFirst CredentialLogin.logoutStrategies)
                             eq_refl (fun _ => eq_refl) s I)) c). }
  unfold evaluate, bind, ext.
  destruct (perform E (PageEvaluate page) (world s)) as [[d | e] w]; [| discriminate].
  destruct (clickFirst_logoutStrategies d) as [Hno Hyes].
  destruct (existsb d logoutSelectors).
  - destruct (Hyes eq_refl) as (sel & _ & _ & Hc). rewrite Hc.
    cbn [after outcome final world setWorld].
    destruct (perform E (ElementClick page sel) w) as [[[] | e] w']; cbn; congruence.
  - destruct (Hno eq_refl) as (e & He). rewrite He. discriminate.
Qed.

Lemma stepLogout_no_fallback page :
  Tame (fun _ => True) P (CredentialLogin.stepLogout E page).
Proof.
  unfold CredentialLogin.stepLogout.
  apply Tame_bind; [tame | intros isLoggedIn].
  apply Tame_bind; [tame | intros _].
  destruct isLoggedIn; [| apply Tame_ret].
  apply Tame_bind; [tame | intros _].
  apply (Tame_bind_where _ _ (fun b => b = true)).
  - tame.
  - intros s b. apply evaluate_logoutStrategies_Return.
  - intros b ->. tame.
Qed.

End CredentialLogout.

(** X13.  The in-page logout script of the credential script either clicks a
    control and yields [true], or, when no control is present, throws
    (on the selector that is no valid CSS) instead of yielding [false]
    as the one of the cookie script does.  So the branch for a logout
    control that was not found is never taken: its warning is never
    printed. *)
Theorem credential_logout_fallback_is_unreachable {W : Type} (E : Engine W)
        (page : Page) (s : HState W) :
  (forall d,
      (existsb d logoutSelectors = true ->
         exists sel, In sel logoutSelectors /\ d sel = true /\
                     clickFirst CredentialLogin.logoutStrategies d = Clicked sel true) /\
      (existsb d logoutSelectors = false ->
         exists e, clickFirst CredentialLogin.logoutStrategies d = Raised e) /\
      (existsb d logoutSelectors = false -> clickFirst logoutSelectors d = Done false)) /\
  countEvents isLogoutFallbackWarning (trace (CredentialLogin.stepLogout E page s)) = 0%nat.
Proof.
  split.
  - intros d. destruct (clickFirst_logoutStrategies d) as [Hno Hyes].
    destruct (clickFirst_logoutSelectors d) as [Hno' _]. auto.
  - apply countEvents_none. exact (proj1 (proj2 (stepLogout_no_fallback E page s I))).
Qed.

(* ===================================================================== *)
(** ** Retry Executor: the time spent backing off *)
(* ===================================================================== *)

Lemma sleptMs_timers t : sleptMs t = fold_right Z.add 0%Z (timersOf t).
Proof.
  induction t as [| ev t IH]; [reflexivity |].
  destruct ev; cbn [sleptMs timersOf fold_right]; rewrite ?IH; reflexivity.
Qed.

Section Backoff.

Context {W : Type} (E : Engine W).
Variable retry : RetryConfig.

(** Each backoff delay is twice the one before. *)
Lemma backoffDelay_doubles k :
  (1 <= k)%nat -> backoffDelay retry (S k) = (2 * backoffDelay retry k)%Z.
Proof.
  intros Hk. unfold backoffDelay.
  replace (Z.of_nat (S k - 1)) with (Z.of_nat (k - 1) + 1)%Z by lia.
  rewrite Z.pow_add_r by lia. lia.
Qed.

(** The delays after [n] failed attempts numbered from [k] add up to
    [2^n - 1] times the first of them. *)
Lemma backoffDelays_sum n : forall k,
  (1 <= k)%nat ->
  fold_right Z.add 0%Z (backoffDelays retry k n) =
    (backoffDelay retry k * (2 ^ Z.of_nat n - 1))%Z.
Proof.
  induction n as [| n IH]; intros k Hk; cbn [backoffDelays fold_right].
  - cbn. lia.
  - rewrite (IH (S k)) by lia. rewrite (backoffDelay_doubles k Hk).
    rewrite Nat2Z.inj_succ, Z.pow_succ_r by lia. lia.
Qed.

Lemma FailedAttempts_timers {A} (operation : M W A) k s fails sK :
  (forall s', timersOf (trace (operation s')) = []) ->
  FailedAttempts E retry operation k s fails sK ->
  Forall (fun f => timersOf (snd f) = []) fails.
Proof.
  intros Hq Hf. induction Hf as [| k s e rest s' Ho Hrest IH]; constructor; auto.
  apply Hq.
Qed.

End Backoff.

(** X14.  When every attempt fails, [retryOperation] waits between attempts
    only, each wait twice the one before: with [n >= 1] attempts that set
    no timers of their own, the timers are [delayMs], [2 delayMs], ...,
    and their sum is [delayMs * (2^(n-1) - 1)]. *)
Theorem retryOperation_backoff_total {W : Type} (E : Engine W) (retry : RetryConfig)
        {A} (operation : M W A) (context : string) (s : HState W) :
  (1 <= maxAttempts retry)%nat ->
  (forall s', exists e, outcome (operation s') = Throw e) ->
  (forall s', timersOf (trace (operation s')) = []) ->
  let r := retryOperation E retry operation context s in
  timersOf (trace r) = backoffDelays retry 1 (maxAttempts retry - 1) /\
  sleptMs (trace r) = (delayMs retry * (2 ^ Z.of_nat (maxAttempts retry - 1) - 1))%Z.
Proof.
  intros Hmax Hfail Hq. cbv zeta.
  destruct (FailedAttempts_exist E retry operation Hfail (maxAttempts retry - 1) 1 s)
    as (fails & sLast & Hf & Hlen).
  destruct (Hfail sLast) as [eLast He].
  rewrite (retryOperation_exhausted E retry operation context fails s sLast eLast Hf)
    by (first [lia | exact He]).
  cbn [trace].
  assert (Ht : timersOf (failedTrace retry context 1 fails
                           ++ attemptLine retry context (maxAttempts retry)
                           :: trace (operation sLast)
                           ++ [failureLine context (maxAttempts retry) eLast])
               = backoffDelays retry 1 (maxAttempts retry - 1)).
  { rewrite timersOf_app, (failedTrace_timers retry context fails 1)
      by (exact (FailedAttempts_timers E retry operation 1 s fails sLast Hq Hf)).
    rewrite Hlen. cbn [timersOf attemptLine]. rewrite timersOf_app, Hq.
    cbn. rewrite app_nil_r. reflexivity. }
  split; [exact Ht |].
  rewrite sleptMs_timers, Ht, backoffDelays_sum by lia.
  unfold backoffDelay. cbn. lia.
Qed.

Lemma retryOperation_backoff_total_witness :
  sleptMs (trace (retryOperation Sim.bare CONFIG_retry Sim.portalDown
                                 "Token Capture" Sim.idle)) = 6000%Z.
Proof.
  apply (retryOperation_backoff_total Sim.bare CONFIG_retry Sim.portalDown
           "Token Capture" Sim.idle).
  - cbn. lia.
  - intros s'. exists (newError "portal down"). reflexivity.
  - intros s'. reflexivity.
Defined.

(* ===================================================================== *)
(** ** Which failures advise the setup flow *)
(* ===================================================================== *)

(** A string includes what its suffixes include. *)
Lemma includes_app_r (needle p s : string) :
  includes needle s = true -> includes needle (p ++ s) = true.
Proof.
  intros H. induction p as [| c p IH]; [exact H |].
  change ((String c p ++ s)%string) with (String c (p ++ s)%string).
  cbn [includes]. rewrite IH. destruct (String.prefix needle (String c (p ++ s))); reflexivity.
Qed.

Lemma includes_exhaustedMessage needle context last :
  includes needle last = true ->
  includes needle (exhaustedMessage CONFIG_retry context last) = true.
Proof.
  intros H. unfold exhaustedMessage.
  apply includes_app_r.
  apply (includes_app_r needle " failed after ").
  apply (includes_app_r needle (showNat (maxAttempts CONFIG_retry))).
  apply (includes_app_r needle " attempts: ").
  exact H.
Qed.

(** X15.  The [catch] block of the cookie script prints its advice to run the
    setup again exactly when the message of the error contains [cookies]
    or [Session expired]: so it does after retries that ended on a
    session that did not load or had expired, and it does not after
    retries of the capture that ended on a failed auto-fill, a token that
    never arrived, or a token that was rejected. *)
Theorem setup_advice_follows_session_failures {W : Type} (e : JsError) (s : HState W) :
  let printed := trace (CookieSession.reportFailure e s) in
  (In adviceLine printed <->
   includes "cookies" (message e) || includes "Session expired" (message e) = true) /\
  (forall context last,
     message e = exhaustedMessage CONFIG_retry context last ->
     last = CookieSession.msgLoadFailed \/ last = CookieSession.msgSessionExpired ->
     In adviceLine printed) /\
  (forall last,
     message e = exhaustedMessage CONFIG_retry "Token Capture" last ->
     In last [CookieSession.msgAutoFillFailed; CookieSession.msgTokenNotCaptured;
              msgTokenEmpty; msgTokenPrefix; msgTokenParts] ->
     ~ In adviceLine printed).
Proof.
  cbv zeta.
  assert (Hiff : In adviceLine (trace (CookieSession.reportFailure e s)) <->
                 includes "cookies" (message e)
                 || includes "Session expired" (message e) = true).
  { unfold CookieSession.reportFailure.
    destruct (includes "cookies" (message e) || includes "Session expired" (message e)).
    - split; [reflexivity | intros _].
      cbn. do 5 right. left. reflexivity.
    - split; [| discriminate]. cbn. unfold adviceLine.
      intros [H | [H | [H | [H | [H | H]]]]]; try discriminate; try contradiction. }
  split; [exact Hiff |]. split.
  - intros context last Hmsg Hlast. apply Hiff. rewrite Hmsg.
    apply orb_true_iff. destruct Hlast as [-> | ->].
    + left. apply includes_exhaustedMessage. reflexivity.
    + right. apply includes_exhaustedMessage. reflexivity.
  - intros last Hmsg Hlast Hin. apply Hiff in Hin. rewrite Hmsg in Hin.
    cbn [In] in Hlast.
    destruct Hlast as [<- | [<- | [<- | [<- | [<- | []]]]]]; vm_compute in Hin; discriminate.
Qed.

(* ===================================================================== *)
(** ** The setup flow *)
(* ===================================================================== *)

Lemma loginDetectedScript_rule (d : Dom) :
  CookieSession.loginDetectedScript d = Done (loginDetected d).
Proof. reflexivity. Qed.

Lemma chatter_is_attended ev : isChatter ev = true -> negb (isUnattendedOnly ev) = true.
Proof. destruct ev; simpl; intros H; try reflexivity; discriminate. Qed.

Section SetupOnly.

Context {W : Type} (E : Engine W).
Variable env : Env.
Hypothesis setup : CookieSession.setupMode env = true.

Let J : JsValue -> Prop := fun _ => True.
Let P : Event -> bool := fun ev => negb (isUnattendedOnly ev).

Lemma cookie_onResponse_attended r : Tame J P (@CookieSession.onResponse W r).
Proof. apply cookie_onResponse_tame; [intros; exact I | exact chatter_is_attended]. Qed.

Hint Resolve cookie_onResponse_attended : core.

Lemma saveCookies_attended page : Tame J P (CookieSession.saveCookies E page).
Proof. unfold CookieSession.saveCookies. tame. Qed.

Lemma loginDetected_attended page :
  Tame J P (evaluate E page CookieSession.loginDetectedScript).
Proof.
  unfold evaluate. apply Tame_bind; [apply Tame_ext; reflexivity | intros d].
  rewrite loginDetectedScript_rule. apply Tame_ret.
Qed.

Hint Resolve saveCookies_attended loginDetected_attended : core.

Lemma setupCookies_attended browser : Tame J P (CookieSession.setupCookies E browser).
Proof. unfold CookieSession.setupCookies. tame. Qed.

Lemma initBrowser_attended : Tame J P (CookieSession.initBrowser E env).
Proof. unfold CookieSession.initBrowser. rewrite setup. tame. Qed.

Hint Resolve setupCookies_attended initBrowser_attended : core.

Lemma mainBody_attended startTime : Tame J P (CookieSession.mainBody E env startTime).
Proof. unfold CookieSession.mainBody. rewrite setup. tame. Qed.

Lemma reportFailure_attended e : Tame J P (@CookieSession.reportFailure W e).
Proof. unfold CookieSession.reportFailure. tame. Qed.

End SetupOnly.

(** X16.  A run in setup mode does nothing of what only an unattended run
    does: the browser is not headless, the session file is not read and
    no cookie is installed, nothing is clicked or typed, and the
    spreadsheet service is not called. *)
Theorem setup_mode_only_observes {W : Type} (E : Engine W) (env : Env) (s : HState W) :
  CookieSession.setupMode env = true ->
  countEvents isUnattendedOnly (trace (CookieSession.main E env s)) = 0%nat.
Proof.
  intros Hmode.
  destruct (exit_harness (fun ev => negb (isUnattendedOnly ev))
              (CookieSession.mainBody E env (clock E (world s)))
              (@CookieSession.reportFailure W) (CookieSession.cleanup E)
              (mainBody_attended E env Hmode _)
              reportFailure_attended
              cookie_reportFailure_returns s) as (_ & _ & _ & Ht & _).
  destruct (cookie_main_run E env s) as (pre & Hb & Hrun).
  rewrite Hrun, trace_after. apply countEvents_none.
  rewrite forallb_app, Ht, andb_true_r.
  exact (forallb_chatter _ pre chatter_is_attended Hb).
Qed.

Lemma setup_mode_only_observes_witness :
  countEvents isUnattendedOnly
    (trace (CookieSession.main Sim.bare (mkEnv (Some "true") None None None None) Sim.idle))
  = 0%nat.
Proof.
  apply (setup_mode_only_observes Sim.bare (mkEnv (Some "true") None None None None)).
  reflexivity.
Defined.

(* ===================================================================== *)

Lemma sleptMs_chatter t : forallb isChatter t = true -> sleptMs t = 0%Z.
Proof.
  induction t as [| ev t IH]; [reflexivity |].
  cbn [forallb]. intros H. apply andb_true_iff in H. destruct H as [H1 H2].
  destruct ev; try discriminate; cbn [sleptMs]; exact (IH H2).
Qed.

Lemma chatter_reads_no_cookie t :
  forallb isChatter t = true -> filter isCookieRead t = [].
Proof.
  intros H. apply filter_none. apply (forallb_chatter _ t); [| exact H].
  intros ev Hev. destruct ev; try discriminate; reflexivity.
Qed.

Section AwaitedSteps.

Context {W : Type} (E : Engine W).

(** An awaited computation that returns, followed by the rest. *)
Lemma bind_awaited_Return {A B} (m : M W A) (k : A -> M W B) p s a :
  outcome (m s) = Return a ->
  exists s' td,
    bind (awaitOn E CookieSession.onResponse p m) k s
      = after (trace (m s) ++ td) (k a s') /\
    forallb isChatter td = true.
Proof.
  intros Ho.
  assert (HX : forall c, outcome (m s) <> Exit c) by (intros c; rewrite Ho; discriminate).
  pose proof (awaitOn_run E CookieSession.onResponse cookie_onResponse_returns p m s HX)
    as Hrun.
  exists (final (deliver E CookieSession.onResponse p (final (m s)))),
         (trace (deliver E CookieSession.onResponse p (final (m s)))).
  split; [| apply cookie_deliver_chatter].
  rewrite (bind_Return _ _ s a) by (rewrite Hrun; exact Ho).
  rewrite Hrun. reflexivity.
Qed.

Lemma bind_awaited_ext_Ok {A B} (op : Op A) (k : A -> M W B) p s a w' :
  perform E op (world s) = (Ok a, w') ->
  exists s' td,
    bind (awaitOn E CookieSession.onResponse p (ext E op)) k s
      = after (EvExt op :: td) (k a s') /\
    forallb isChatter td = true.
Proof.
  intros H.
  destruct (bind_awaited_Return (ext E op) k p s a (ext_Ok_outcome E op s a w' H))
    as (s' & td & Hrun & Htd).
  exists s', td. split; [| exact Htd]. rewrite Hrun, trace_ext. reflexivity.
Qed.

Lemma bind_awaited_sleep {B} ms (k : unit -> M W B) p s :
  exists s' td,
    bind (awaitOn E CookieSession.onResponse p (sleep E ms)) k s
      = after (EvSleep ms :: td) (k tt s') /\
    forallb isChatter td = true.
Proof.
  destruct (bind_awaited_Return (sleep E ms) k p s tt eq_refl) as (s' & td & Hrun & Htd).
  exists s', td. split; [exact Hrun | exact Htd].
Qed.

(** An awaited call that ends a [finally] block. *)
Lemma closing_run {A} (body : M W A) p s w' :
  (forall c, outcome (body s) <> Exit c) ->
  perform E (PageClose p) (world (final (body s))) = (Ok tt, w') ->
  exists s' td,
    tryFinally body (awaitOn E CookieSession.onResponse p (ext E (PageClose p))) s
      = mkRun (outcome (body s)) s' (trace (body s) ++ EvExt (PageClose p) :: td) /\
    forallb isChatter td = true.
Proof.
  intros HX Hclose.
  destruct (await_ext_run E (PageClose p) p (final (body s))) as (s' & td & Hrun & Htd).
  rewrite (ext_Ok_outcome E _ _ tt w' Hclose) in Hrun.
  exists s', td. split; [| exact Htd].
  unfold tryFinally. destruct (body s) as [[a | e | c] s1 t]; cbn [outcome final trace] in *.
  - rewrite Hrun. reflexivity.
  - rewrite Hrun. reflexivity.
  - exfalso. exact (HX c eq_refl).
Qed.

End AwaitedSteps.

Section SetupRun.

Context {W : Type} (E : Engine W).
Hypothesis lifecycle : PageLifecycleSucceeds E.
Hypothesis loads : PortalLoads E.
Variable verdict : bool.
Hypothesis shows : PortalShows E verdict.

(** What [setupCookies] does once the in-page check has answered
    (index.js 257-270). *)
Let setupTail (page : Page) (isLoggedIn : bool) : M W unit :=
  (if negb isLoggedIn then throw (newError CookieSession.msgLoginNotDetected) else ret tt) ;;
  console_log [JsString "[Setup] ✅ Login detected!"] ;;
  CookieSession.saveCookies E page ;;
  console_log [JsString (nl ++ banner)] ;;
  console_log [JsString "✅ SETUP COMPLETE!"] ;;
  console_log [JsString "Cookies saved successfully"] ;;
  console_log [JsString "You can now run in AUTO mode"] ;;
  console_log [JsString (banner ++ nl)].

Lemma setupTail_no_exit page b s c : outcome (setupTail page b s) <> Exit c.
Proof.
  assert (H : Tame (fun _ => True) (fun _ => true) (setupTail page b)).
  { unfold setupTail.
    pose proof (saveCookies_tame E (fun _ => True) (fun _ => true)
                  (fun _ _ => I) (fun _ _ => eq_refl)) as Hsave.
    tame. }
  exact (proj2 (proj2 (H s I)) c).
Qed.

(** The evaluation of the in-page check, under [shows]. *)
Lemma loginDetected_run page (s : HState W) :
  exists w',
    evaluate E page CookieSession.loginDetectedScript s =
      mkRun (Return verdict) (setWorld w' s) [EvExt (PageEvaluate page)].
Proof.
  destruct (shows (world s) page) as (d & w' & Hp & Hd).
  exists w'. unfold evaluate, bind, ext. rewrite Hp, loginDetectedScript_rule, Hd.
  reflexivity.
Qed.

Lemma setupCookies_run browser (s : HState W) :
  exists page sC sEnd pre post,
    CookieSession.setupCookies E browser s =
      mkRun (outcome (setupTail page verdict sC)) sEnd
            (pre ++ trace (setupTail page verdict sC) ++ post) /\
    sleptMs pre = 60000%Z /\
    filter isCookieRead pre = [] /\ filter isSessionWrite pre = [] /\
    filter isPageClose pre = [] /\
    sleptMs post = 0%Z /\
    filter isCookieRead post = [] /\ filter isSessionWrite post = [] /\
    filter isPageClose post = [EvExt (PageClose page)].
Proof.
  destruct lifecycle as (Hnew & Hview & _ & Hclose).
  unfold CookieSession.setupCookies. rewrite !bind_console_log.
  destruct (Hnew (world s) browser) as (page & w1 & Hp).
  rewrite (bind_ext_Ok E _ _ _ _ _ Hp).
  destruct (Hview w1 page 1920%Z 1080%Z) as (w2 & Hv).
  destruct (bind_awaited_ext_Ok E (PageSetViewport page 1920 1080)
              (fun _ =>
                 tryFinally
                   (console_log [JsString "[Setup] Opening portal..."] ;;
                    awaitOn E CookieSession.onResponse page
                      (ext E (PageGoto page CONFIG_portal_url CONFIG_timeouts_navigation)) ;;
                    console_log [JsString "[Setup] Portal loaded"] ;;
                    console_log [JsString "[Setup] Please log in manually now..."] ;;
                    console_log
                      [JsString "[Setup] Waiting for 60 seconds for you to complete login..."] ;;
                    awaitOn E CookieSession.onResponse page (sleep E 60000) ;;
                    isLoggedIn <- awaitOn E CookieSession.onResponse page
                                    (evaluate E page CookieSession.loginDetectedScript) ;;
                    setupTail page isLoggedIn)
                   (awaitOn E CookieSession.onResponse page (ext E (PageClose page))))
              page (setWorld w1 s) tt w2 Hv) as (s2 & td0 & Hrun0 & Htd0).
  unfold setupTail in Hrun0 at 1. rewrite Hrun0. clear Hrun0.
  (* the [try] block *)
  set (body := (console_log [JsString "[Setup] Opening portal..."] ;;
                awaitOn E CookieSession.onResponse page
                  (ext E (PageGoto page CONFIG_portal_url CONFIG_timeouts_navigation)) ;;
                console_log [JsString "[Setup] Portal loaded"] ;;
                console_log [JsString "[Setup] Please log in manually now..."] ;;
                console_log
                  [JsString "[Setup] Waiting for 60 seconds for you to complete login..."] ;;
                awaitOn E CookieSession.onResponse page (sleep E 60000) ;;
                isLoggedIn <- awaitOn E CookieSession.onResponse page
                                (evaluate E page CookieSession.loginDetectedScript) ;;
                setupTail page isLoggedIn)).
  assert (Hbody : exists sC td1 td2 td3,
             body s2 =
               after (EvConsole LevelLog [JsString "[Setup] Opening portal..."]
                      :: EvExt (PageGoto page CONFIG_portal_url CONFIG_timeouts_navigation)
                      :: td1
                      ++ EvConsole LevelLog [JsString "[Setup] Portal loaded"]
                      :: EvConsole LevelLog [JsString "[Setup] Please log in manually now..."]
                      :: EvConsole LevelLog
                           [JsString "[Setup] Waiting for 60 seconds for you to complete login..."]
                      :: EvSleep 60000 :: td2
                      ++ EvExt (PageEvaluate page) :: td3)
                     (setupTail page verdict sC) /\
             forallb isChatter td1 = true /\ forallb isChatter td2 = true /\
             forallb isChatter td3 = true).
  { unfold body. rewrite bind_console_log.
    destruct (loads (world s2) page CONFIG_portal_url CONFIG_timeouts_navigation)
      as (w3 & Hg).
    destruct (bind_awaited_ext_Ok E
                (PageGoto page CONFIG_portal_url CONFIG_timeouts_navigation)
                (fun _ =>
                   console_log [JsString "[Setup] Portal loaded"] ;;
                   console_log [JsString "[Setup] Please log in manually now..."] ;;
                   console_log
                     [JsString "[Setup] Waiting for 60 seconds for you to complete login..."] ;;
                   awaitOn E CookieSession.onResponse page (sleep E 60000) ;;
                   isLoggedIn <- awaitOn E CookieSession.onResponse page
                                   (evaluate E page CookieSession.loginDetectedScript) ;;
                   setupTail page isLoggedIn)
                page s2 tt w3 Hg) as (s3 & td1 & Hrun1 & Htd1).
    rewrite Hrun1. clear Hrun1. rewrite !bind_console_log.
    destruct (bind_awaited_sleep E 60000
                (fun _ =>
                   isLoggedIn <- awaitOn E CookieSession.onResponse page
                                   (evaluate E page CookieSession.loginDetectedScript) ;;
                   setupTail page isLoggedIn)
                page s3) as (s4 & td2 & Hrun2 & Htd2).
    rewrite Hrun2. clear Hrun2.
    destruct (loginDetected_run page s4) as (w5 & Hlook).
    destruct (bind_awaited_Return E
                (evaluate E page CookieSession.loginDetectedScript)
                (fun isLoggedIn => setupTail page isLoggedIn)
                page s4 verdict) as (sC & td3 & Hrun3 & Htd3).
    { rewrite Hlook. reflexivity. }
    rewrite Hrun3, Hlook. clear Hrun3. cbn [trace].
    exists sC, td1, td2, td3. split; [| auto].
    rewrite !after_after. f_equal. cbn [app]. rewrite <- !app_assoc. reflexivity. }
  destruct Hbody as (sC & td1 & td2 & td3 & Hbody & Htd1 & Htd2 & Htd3).
  destruct (Hclose (world (final (body s2))) page) as (w6 & Hc).
  destruct (closing_run E body page s2 w6) as (sEnd & td4 & Hrun & Htd4).
  { intros c. rewrite Hbody, outcome_after. apply setupTail_no_exit. }
  { exact Hc. }
  rewrite Hrun, Hbody, outcome_after, trace_after. cbn [after].
  match goal with
  | |- context [mkRun _ _ (?a1 ++ ?a2 ++ ?a3 ++ ?a4 ++ ?a5 ++ ?a6 ++ ?a7 ++ ?a8 ++ ?a9
                             ++ ?a10 ++ (?b ++ ?t) ++ ?c)] =>
      exists page, sC, sEnd, (a1 ++ a2 ++ a3 ++ a4 ++ a5 ++ a6 ++ a7 ++ a8 ++ a9 ++ a10 ++ b), c
  end.
  split; [f_equal; rewrite <- !app_assoc; reflexivity |].
  repeat split;
    repeat (cbn [sleptMs filter isCookieRead isSessionWrite isPageClose app];
            rewrite ?sleptMs_app, ?filter_app);
    rewrite ?(sleptMs_chatter td0 Htd0), ?(sleptMs_chatter td1 Htd1),
      ?(sleptMs_chatter td2 Htd2), ?(sleptMs_chatter td3 Htd3), ?(sleptMs_chatter td4 Htd4),
      ?(chatter_reads_no_cookie td0 Htd0), ?(chatter_reads_no_cookie td1 Htd1),
      ?(chatter_reads_no_cookie td2 Htd2), ?(chatter_reads_no_cookie td3 Htd3),
      ?(chatter_reads_no_cookie td4 Htd4),
      ?(chatter_writes_nothing td0 Htd0), ?(chatter_writes_nothing td1 Htd1),
      ?(chatter_writes_nothing td2 Htd2), ?(chatter_writes_nothing td3 Htd3),
      ?(chatter_writes_nothing td4 Htd4),
      ?(chatter_closes_no_page td0 Htd0), ?(chatter_closes_no_page td1 Htd1),
      ?(chatter_closes_no_page td2 Htd2), ?(chatter_closes_no_page td3 Htd3),
      ?(chatter_closes_no_page td4 Htd4);
    reflexivity.
Qed.

End SetupRun.



Section SaveFailure.

Context {W : Type} (E : Engine W).

(** When [saveCookies] returns [false] it has printed why. *)
Lemma saveCookies_false_logs page (s : HState W) :
  outcome (CookieSession.saveCookies E page s) = Return false ->
  existsb isSaveFailure (trace (CookieSession.saveCookies E page s)) = true.
Proof.
  unfold CookieSession.saveCookies.
  set (body := (cookies <- awaitOn E CookieSession.onResponse page (ext E (PageCookies page)) ;;
                awaitOn E CookieSession.onResponse page
                  (ext E (FsWriteCookies CookieSession.CONFIG_cookies_filePath cookies)) ;;
                console_log [JsString ("[Cookies] Saved " ++ showNat (List.length cookies)
                                       ++ " cookies to "
                                       ++ CookieSession.CONFIG_cookies_filePath)] ;;
                ret true)).
  destruct (outcome (body s)) as [b | e | c] eqn:Ho.
  - rewrite (tryCatch_Return _ _ s b Ho). intros H. exfalso.
    rewrite Ho in H. injection H as ->.
    unfold body in Ho. do 3 peel Ho. discriminate.
  - rewrite (tryCatch_Throw _ _ s e Ho), trace_after. intros _.
    rewrite existsb_app. apply orb_true_iff. right. reflexivity.
  - rewrite (tryCatch_Exit _ _ s c Ho). rewrite Ho. discriminate.
Qed.

End SaveFailure.



(* ===================================================================== *)
(** ** The logout-login cycle of the cookie script *)
(* ===================================================================== *)

Section Inversion2.

Context {W : Type}.

Lemma bind_Throw_inv {A B} (m : M W A) (k : A -> M W B) s e :
  outcome (bind m k s) = Throw e ->
  outcome (m s) = Throw e \/
  exists a, outcome (m s) = Return a /\ outcome (k a (final (m s))) = Throw e.
Proof.
  unfold bind. destruct (m s) as [[a | e' | c] s' t]; cbn [outcome final];
    try discriminate.
  - rewrite outcome_after. intros H. right. exists a. split; [reflexivity | exact H].
  - intros H. left. injection H as ->. reflexivity.
Qed.

(** What a guarded block throws, its handler threw. *)
Lemma tryCatch_Throw_inv {A} (m : M W A) h s e :
  outcome (tryCatch m h s) = Throw e ->
  exists e0, outcome (m s) = Throw e0 /\ outcome (h e0 (final (m s))) = Throw e.
Proof.
  unfold tryCatch. destruct (m s) as [[a | e' | c] s' t]; cbn [outcome final];
    try discriminate.
  rewrite outcome_after. intros H. exists e'. split; [reflexivity | exact H].
Qed.

End Inversion2.

(** X19.  Whatever goes wrong between waiting for the e-mail field and the
    navigation after the login is reported as the same auto-fill error:
    the logout-and-login step throws either that error or the error of
    the in-page logout script, which runs before the [try]. *)
Theorem autofill_failures_are_masked {W : Type} (E : Engine W) (page : Page)
        (s : HState W) (e : JsError) :
  outcome (CookieSession.stepLogoutLogin E page s) = Throw e ->
  e = newError CookieSession.msgAutoFillFailed \/
  outcome (awaitOn E CookieSession.onResponse page
             (evaluate E page (clickFirst logoutSelectors)) s) = Throw e.
Proof.
  unfold CookieSession.stepLogoutLogin. rewrite bind_console_log, outcome_after.
  intros H. apply bind_Throw_inv in H. destruct H as [H | (b & Hb & H)]; [right; exact H |].
  left. destruct b; [| discriminate].
  rewrite bind_console_log, outcome_after in H.
  apply bind_Throw_inv in H. destruct H as [H | (u & Hu & H)].
  { exfalso.
    match type of H with
    | outcome (awaitOn _ _ _ (sleep _ _) ?s0) = _ =>
        destruct (await_sleep_run E 5000 page s0) as (s' & td & Hrun & _)
    end.
    rewrite Hrun in H. discriminate. }
  rewrite bind_console_log, outcome_after in H.
  apply tryCatch_Throw_inv in H. destruct H as (e0 & _ & H).
  rewrite bind_console_error, outcome_after in H. cbn in H. congruence.
Qed.

Lemma autofill_failures_are_masked_witness :
  newError CookieSession.msgAutoFillFailed = newError CookieSession.msgAutoFillFailed \/
  outcome (awaitOn stuck CookieSession.onResponse 1
             (evaluate stuck 1 (clickFirst logoutSelectors)) Sim.idle)
  = Throw (newError CookieSession.msgAutoFillFailed).
Proof.
  apply (autofill_failures_are_masked stuck 1 Sim.idle
           (newError CookieSession.msgAutoFillFailed)).
  vm_compute. reflexivity.
Defined.

(* ===================================================================== *)
(** ** An expired session on the plain login form *)
(* ===================================================================== *)

Lemma latestOffer_none rs slot :
  Forall (fun r => offeredToken r = None) rs -> latestOffer rs slot = slot.
Proof.
  intros H. induction H as [| r rs Hr _ IH]; [reflexivity |].
  cbn [latestOffer]. rewrite Hr. exact IH.
Qed.

Section NoOffers.

Context {W : Type} (E : Engine W).
Hypothesis silent : NoTokenOffered E.

Variable P : Event -> bool.
Hypothesis response_permitted : forall r, P (EvResponse r) = true.
Hypothesis listener_permitted :
  forall r, Tame (fun _ => True) P (@CookieSession.onResponse W r).

Let J : JsValue -> Prop := fun v => truthy v = false.

(** While no response offers a token, a turn of the event loop leaves an
    empty slot empty. *)
Lemma Tame_deliver_silent p : Tame J P (deliver E CookieSession.onResponse p).
Proof.
  intros s Hs.
  destruct (Tame_deliver E (fun _ => True) P response_permitted
              CookieSession.onResponse listener_permitted p s I)
    as (_ & HP & HX).
  split; [| split; assumption].
  unfold deliver, getListener, bind. cbn [outcome final trace after].
  destruct (listener s) as [q |]; [| rewrite final_after; exact Hs].
  destruct (Nat.eqb p q); [| rewrite final_after; exact Hs].
  rewrite final_after. unfold arrivals.
  pose proof (silent p (world s)) as Hnone.
  destruct (responses E p (world s)) as [rs w]. cbn [fst] in Hnone.
  cbn [outcome final trace after]. rewrite final_after.
  rewrite (handleAll_final _ cookie_onResponse_final cookie_onResponse_returns).
  cbn [capturedToken setWorld]. rewrite (latestOffer_none rs _ Hnone). exact Hs.
Qed.

Lemma Tame_awaitOn_silent {A} p (m : M W A) :
  Tame J P m -> Tame J P (awaitOn E CookieSession.onResponse p m).
Proof. intros Hm. apply Tame_tryFinally; [exact Hm | apply Tame_deliver_silent]. Qed.

Lemma Tame_pollToken_silent p n :
  P (EvSleep 500) = true -> Tame J P (pollToken E CookieSession.onResponse p n).
Proof.
  intros Hs. induction n as [| n IH]; simpl.
  - apply Tame_ret.
  - apply Tame_bind; [apply Tame_getCapturedToken | intros token].
    destruct (truthy token); [apply Tame_ret |].
    apply Tame_bind; [| intros _; exact IH].
    apply Tame_awaitOn_silent. apply Tame_sleep. exact Hs.
Qed.

End NoOffers.

(** Syntax-directed proof of [Tame] while no response offers a token. *)
Ltac tame_silent :=
  repeat
    match goal with
    | |- Tame _ _ (awaitOn _ _ _ _) =>
        apply Tame_awaitOn_silent; [assumption | permitted | solve [auto] |]
    | |- Tame _ _ (pollToken _ _ _ _) =>
        apply Tame_pollToken_silent; [assumption | permitted | solve [auto] | permitted]
    | |- Tame _ _ (bind _ _) => apply Tame_bind; [| intros ?]
    | |- Tame _ _ (tryCatch _ _) => apply Tame_tryCatch; [| intros ?]
    | |- Tame _ _ (tryFinally _ _) => apply Tame_tryFinally
    | |- Tame _ _ (ret _) => apply Tame_ret
    | |- Tame _ _ (throw _) => apply Tame_throw
    | |- Tame _ _ (console_log _) => apply Tame_emit; permitted
    | |- Tame _ _ (console_warn _) => apply Tame_emit; permitted
    | |- Tame _ _ (console_error _) => apply Tame_emit; permitted
    | |- Tame _ _ (ext _ _) => apply Tame_ext; permitted
    | |- Tame _ _ (sleep _ _) => apply Tame_sleep; permitted
    | |- Tame _ _ (dateNow _) => apply Tame_dateNow
    | |- Tame _ _ (currentUrl _ _) => apply Tame_currentUrl
    | |- Tame _ _ getCapturedToken => apply Tame_getCapturedToken
    | |- Tame _ _ (evaluate _ _ _) => apply Tame_evaluate; permitted
    | |- Tame _ _ (promiseAll2 _ _ _) => apply Tame_promiseAll2; permitted
    | |- Tame _ _ (if ?b then _ else _) => destruct b eqn:?
    | |- Tame _ _ (match ?x with _ => _ end) => destruct x eqn:?
    | |- Tame _ _ _ => solve [auto]
    end.

Section EmptySlot.

Context {W : Type} (E : Engine W).
Hypothesis silent : NoTokenOffered E.

Let J : JsValue -> Prop := fun v => truthy v = false.
Let P : Event -> bool := fun _ => true.

Lemma cookie_onResponse_any r : Tame (fun _ => True) P (@CookieSession.onResponse W r).
Proof. apply cookie_onResponse_tame; [intros; exact I | reflexivity]. Qed.

Hint Resolve cookie_onResponse_any : core.

Lemma filterCookies_empty now cookies :
  Tame J P (@CookieSession.filterCookies W now cookies).
Proof. apply filterCookies_tame. reflexivity. Qed.

Hint Resolve filterCookies_empty : core.

Lemma loadCookies_empty page : Tame J P (CookieSession.loadCookies E page).
Proof. unfold CookieSession.loadCookies. tame_silent. Qed.

Lemma verifyCookiesValid_empty page : Tame J P (CookieSession.verifyCookiesValid E page).
Proof. unfold CookieSession.verifyCookiesValid. tame_silent. Qed.

Hint Resolve loadCookies_empty verifyCookiesValid_empty : core.

Lemma stepLoadCookies_empty page : Tame J P (CookieSession.stepLoadCookies E page).
Proof. unfold CookieSession.stepLoadCookies. tame_silent. Qed.

Lemma stepNavigate_empty page : Tame J P (CookieSession.stepNavigate E page).
Proof. unfold CookieSession.stepNavigate. tame_silent. Qed.

Lemma stepVerify_empty page : Tame J P (CookieSession.stepVerify E page).
Proof. unfold CookieSession.stepVerify. tame_silent. Qed.

Lemma stepLogoutLogin_empty page : Tame J P (CookieSession.stepLogoutLogin E page).
Proof. unfold CookieSession.stepLogoutLogin. tame_silent. Qed.

Lemma stepAwaitToken_empty page : Tame J P (CookieSession.stepAwaitToken E page).
Proof. unfold CookieSession.stepAwaitToken. tame_silent. Qed.

End EmptySlot.

Section LoginForm.

Context {W : Type} (E : Engine W).
Hypothesis loads : PortalLoads E.
Hypothesis form : PortalShowsLoginForm E.

Lemma outcome_awaited {A} (m : M W A) p s :
  (forall c, outcome (m s) <> Exit c) ->
  outcome (awaitOn E CookieSession.onResponse p m s) = outcome (m s).
Proof. apply (outcome_awaitOn E CookieSession.onResponse cookie_onResponse_returns). Qed.

Lemma bind_console_warn {B} args (k : unit -> M W B) s :
  bind (console_warn args) k s = after [EvConsole LevelWarn args] (k tt s).
Proof. reflexivity. Qed.

Lemma bind_currentUrl {B} p (k : string -> M W B) s :
  bind (currentUrl E p) k s = k (pageUrl E p (world s)) s.
Proof. unfold bind. cbn [currentUrl]. apply after_nil. Qed.

Lemma awaited_goto_returns page (s : HState W) :
  outcome (awaitOn E CookieSession.onResponse page
             (ext E (PageGoto page CONFIG_portal_url CONFIG_timeouts_navigation)) s)
  = Return tt.
Proof.
  rewrite outcome_awaited by apply ext_no_exit.
  destruct (loads (world s) page CONFIG_portal_url CONFIG_timeouts_navigation) as (w' & H).
  exact (ext_Ok_outcome E _ s tt w' H).
Qed.

Lemma awaited_sleep_returns ms page (s : HState W) :
  outcome (awaitOn E CookieSession.onResponse page (sleep E ms) s) = Return tt.
Proof. rewrite outcome_awaited by (intros c; discriminate). reflexivity. Qed.

(** On the login form the logout script finds nothing to click. *)
Lemma awaited_logout_click_none page (s : HState W) :
  outcome (awaitOn E CookieSession.onResponse page
             (evaluate E page (clickFirst logoutSelectors)) s) = Return false.
Proof.
  destruct (form (world s) page) as (d & w' & Hp & Hlog & _).
  assert (Hrun : evaluate E page (clickFirst logoutSelectors) s =
                 mkRun (Return false) (setWorld w' s) [EvExt (PageEvaluate page)]).
  { unfold evaluate, bind, ext. rewrite Hp.
    rewrite (proj1 (clickFirst_logoutSelectors d) Hlog). reflexivity. }
  rewrite outcome_awaited by (intros c; rewrite Hrun; discriminate).
  rewrite Hrun. reflexivity.
Qed.

Lemma stepNavigate_returns page (s : HState W) :
  outcome (CookieSession.stepNavigate E page s) = Return tt.
Proof.
  unfold CookieSession.stepNavigate. rewrite bind_console_log, outcome_after.
  rewrite (bind_Return _ _ s tt (awaited_goto_returns page s)), outcome_after.
  rewrite bind_currentUrl. cbv beta. rewrite bind_console_log, outcome_after.
  apply awaited_sleep_returns.
Qed.

Lemma stepVerify_on_login_form page (s : HState W) :
  outcome (CookieSession.stepVerify E page s) = Return tt.
Proof.
  unfold CookieSession.stepVerify.
  destruct (verifyCookiesValid_cases E page s) as ([b Hb] & _).
  rewrite (bind_Return _ _ s b Hb), outcome_after.
  destruct b; [reflexivity |]. cbn [negb].
  rewrite bind_console_warn, outcome_after.
  rewrite (bind_Return _ _ _ false (awaited_logout_click_none page _)), outcome_after.
  reflexivity.
Qed.

Lemma stepLogoutLogin_on_login_form page (s : HState W) :
  outcome (CookieSession.stepLogoutLogin E page s) = Return tt.
Proof.
  unfold CookieSession.stepLogoutLogin. rewrite bind_console_log, outcome_after.
  rewrite (bind_Return _ _ _ false (awaited_logout_click_none page _)), outcome_after.
  reflexivity.
Qed.

Hypothesis session : SessionLoads E.

Lemma stepLoadCookies_loads page (s : HState W) :
  outcome (CookieSession.stepLoadCookies E page s) = Return tt.
Proof.
  unfold CookieSession.stepLoadCookies. rewrite bind_console_log, outcome_after.
  rewrite (bind_Return _ _ s true (session s page)), outcome_after. reflexivity.
Qed.

Hypothesis silent : NoTokenOffered E.

(** The [try] block of an attempt, entered with an empty slot. *)
Lemma attempt_body_times_out page (s : HState W) :
  truthy (capturedToken s) = false ->
  outcome ((CookieSession.stepLoadCookies E page ;;
            CookieSession.stepNavigate E page ;;
            CookieSession.stepVerify E page ;;
            CookieSession.stepLogoutLogin E page ;;
            CookieSession.stepAwaitToken E page ;;
            CookieSession.stepPersistAndReturn E page) s)
  = Throw (newError CookieSession.msgTokenNotCaptured).
Proof.
  intros Hs.
  rewrite (bind_Return _ _ s tt (stepLoadCookies_loads page s)), outcome_after.
  pose proof (proj1 (stepLoadCookies_empty E silent page s Hs)) as H1.
  set (s1 := final (CookieSession.stepLoadCookies E page s)) in *.
  rewrite (bind_Return _ _ s1 tt (stepNavigate_returns page s1)), outcome_after.
  pose proof (proj1 (stepNavigate_empty E silent page s1 H1)) as H2.
  set (s2 := final (CookieSession.stepNavigate E page s1)) in *.
  rewrite (bind_Return _ _ s2 tt (stepVerify_on_login_form page s2)), outcome_after.
  pose proof (proj1 (stepVerify_empty E silent page s2 H2)) as H3.
  set (s3 := final (CookieSession.stepVerify E page s2)) in *.
  rewrite (bind_Return _ _ s3 tt (stepLogoutLogin_on_login_form page s3)), outcome_after.
  pose proof (proj1 (stepLogoutLogin_empty E silent page s3 H3)) as H4.
  set (s4 := final (CookieSession.stepLogoutLogin E page s3)) in *.
  pose proof (proj1 (stepAwaitToken_empty E silent page s4 H4)) as H5.
  destruct (awaitToken_bounded E CookieSession.onResponse
              cookie_onResponse_returns
              (cookie_onResponse_tame _ _ (fun _ _ => I) chatter_sets_no_timer)
              (cookie_onResponse_tame _ _ (fun _ _ => I) chatter_is_polite)
              page 30 [JsString "[Network] Waiting for token..."]
              CookieSession.msgTokenNotCaptured s4)
    as (_ & _ & _ & Hempty & _).
  fold (CookieSession.stepAwaitToken E page) in Hempty.
  destruct (Hempty H5) as [Ho _].
  rewrite (bind_Throw _ _ s4 _ Ho). reflexivity.
Qed.

Hypothesis lifecycle : PageLifecycleSucceeds E.

Lemma captureTokenWithCookies_times_out browser (s : HState W) :
  outcome (CookieSession.captureTokenWithCookies E browser s)
  = Throw (newError CookieSession.msgTokenNotCaptured).
Proof.
  destruct lifecycle as (Hnew & Hview & Hagent & Hclose).
  unfold CookieSession.captureTokenWithCookies.
  destruct (Hnew (world s) browser) as (p & w1 & Hp).
  rewrite (bind_ext_Ok E _ _ _ _ _ Hp).
  destruct (Hview w1 p 1920%Z 1080%Z) as (w2 & Hv).
  rewrite (bind_ext_Ok E _ _ (setWorld w1 s) _ _ Hv).
  destruct (Hagent w2 p userAgent) as (w3 & Ha).
  rewrite (bind_ext_Ok E _ _ (setWorld w2 (setWorld w1 s)) _ _ Ha).
  rewrite (bind_quiet (setCapturedToken JsNull) _ _ tt _ eq_refl).
  rewrite bind_console_log.
  rewrite (bind_quiet (pageOnResponse p) _ _ tt _ eq_refl).
  rewrite !outcome_after.
  match goal with
  | |- context [tryFinally ?b _ ?s0] =>
      pose proof (attempt_body_times_out p s0 eq_refl) as Hbody;
      set (body := b) in *; set (s3 := s0) in *
  end.
  destruct (Hclose (world (final (body s3))) p) as (w5 & Hc).
  destruct (closing_run E body p s3 w5) as (sEnd & td & Hrun & _).
  - intros c. rewrite Hbody. discriminate.
  - exact Hc.
  - rewrite Hrun. exact Hbody.
Qed.

End LoginForm.

Lemma no_advice_in t :
  forallb (fun ev => negb (isAdvice ev)) t = true -> ~ In adviceLine t.
Proof.
  intros H Hin. rewrite forallb_forall in H. specialize (H _ Hin). discriminate.
Qed.

Section NoAdvice.

Context {W : Type} (E : Engine W).
Variable env : Env.

Let J : JsValue -> Prop := fun _ => True.
Let P : Event -> bool := fun ev => negb (isAdvice ev).

Lemma cookie_onResponse_no_advice r : Tame J P (@CookieSession.onResponse W r).
Proof. unfold CookieSession.onResponse. tame. Qed.

Lemma filterCookies_no_advice now cookies :
  Tame J P (@CookieSession.filterCookies W now cookies).
Proof. induction cookies as [| c rest IH]; simpl; tame. Qed.

Hint Resolve cookie_onResponse_no_advice filterCookies_no_advice : core.

Lemma saveCookies_no_advice page : Tame J P (CookieSession.saveCookies E page).
Proof. unfold CookieSession.saveCookies. tame. Qed.

Lemma loadCookies_no_advice page : Tame J P (CookieSession.loadCookies E page).
Proof. unfold CookieSession.loadCookies. tame. Qed.

Lemma verifyCookiesValid_no_advice page :
  Tame J P (CookieSession.verifyCookiesValid E page).
Proof. unfold CookieSession.verifyCookiesValid. tame. Qed.

Hint Resolve saveCookies_no_advice loadCookies_no_advice verifyCookiesValid_no_advice : core.

Lemma captureTokenWithCookies_no_advice browser :
  Tame J P (CookieSession.captureTokenWithCookies E browser).
Proof.
  unfold CookieSession.captureTokenWithCookies, CookieSession.stepLoadCookies,
    CookieSession.stepNavigate, CookieSession.stepVerify, CookieSession.stepLogoutLogin,
    CookieSession.stepAwaitToken, CookieSession.stepPersistAndReturn.
  tame.
Qed.

Lemma updateSheet_no_advice token : Tame J P (updateSheet E env token).
Proof. unfold updateSheet, getGoogleAuth. tame. Qed.

Lemma initBrowser_no_advice : Tame J P (CookieSession.initBrowser E env).
Proof. unfold CookieSession.initBrowser. tame. Qed.

(** The executor prints its own lines, none of which is the advice. *)
Lemma retryLoop_no_advice {A} (operation : M W A) context remaining :
  Tame J P operation ->
  forall attempt lastError,
    Tame J P (retryLoop E CONFIG_retry operation context remaining attempt lastError).
Proof.
  intros Hop. induction remaining as [| n IH]; intros attempt lastError; simpl.
  - destruct lastError; apply Tame_throw.
  - unfold backoff. tame.
Qed.

Lemma retryOperation_no_advice {A} (operation : M W A) context :
  Tame J P operation -> Tame J P (retryOperation E CONFIG_retry operation context).
Proof. intros Hop. apply retryLoop_no_advice. exact Hop. Qed.

Lemma mainBody_no_advice startTime :
  CookieSession.setupMode env = false ->
  Tame J P (CookieSession.mainBody E env startTime).
Proof.
  intros Hmode. unfold CookieSession.mainBody. rewrite Hmode.
  apply Tame_bind; [apply retryOperation_no_advice, initBrowser_no_advice | intros b].
  apply Tame_bind; [apply Tame_setBrowserVar | intros _].
  unfold CookieSession.autoMode.
  apply Tame_bind; [tame | intros _].
  apply Tame_bind; [tame | intros _].
  apply Tame_bind;
    [apply retryOperation_no_advice, captureTokenWithCookies_no_advice | intros token].
  apply Tame_bind; [tame | intros _].
  apply Tame_bind; [tame | intros _].
  apply Tame_bind; [apply retryOperation_no_advice, updateSheet_no_advice | intros _].
  tame.
Qed.

Lemma cookie_main_run_no_advice (s : HState W) :
  exists pre,
    forallb (fun ev => negb (isAdvice ev)) pre = true /\
    CookieSession.main E env s =
      after pre
            (tryFinally
               (tryCatch (CookieSession.mainBody E env (clock E (world s)) ;;
                          process_exit 0)
                         (fun e => CookieSession.reportFailure e ;; process_exit 1))
               (CookieSession.cleanup E) s).
Proof.
  eexists. split.
  2:{ unfold CookieSession.main.
      rewrite bind_dateNow, !bind_console_log, bind_dateIso, !bind_console_log.
      rewrite !after_after. reflexivity. }
  reflexivity.
Qed.

End NoAdvice.


(** Records without an expiry pass the filter. *)
Lemma filter_without_expiry (now : Q) (cookies : list Cookie) :
  forallb (fun c => match expires c with None => true | Some _ => false end) cookies
  = true ->
  filter (fun c => negb (CookieSession.cookieExpired now c)) cookies = cookies.
Proof.
  induction cookies as [| x l IH]; [reflexivity |].
  cbn [forallb filter]. intros H. apply andb_true_iff in H. destruct H as [Hx Hl].
  unfold CookieSession.cookieExpired at 1.
  destruct (expires x); [discriminate |]. cbn [negb]. rewrite (IH Hl). reflexivity.
Qed.

Section LiveSession.

Context {W : Type} (E : Engine W).

(** A session file whose records carry no expiry always loads, when the
    file system and the browsing context accept the calls. *)
Lemma loadCookies_without_expiry :
  (forall w file, exists w', perform E (FsAccess file) w = (Ok tt, w')) ->
  (forall w file, exists c cookies w',
      perform E (FsReadCookies file) w = (Ok (CJArray (c :: cookies)), w') /\
      forallb (fun c' => match expires c' with None => true | Some _ => false end)
              (c :: cookies) = true) ->
  (forall w p cookies, exists w', perform E (PageSetCookie p cookies) w = (Ok tt, w')) ->
  SessionLoads E.
Proof.
  intros Haccess Hread Hset s page.
  destruct (await_ext_run E (FsAccess CookieSession.CONFIG_cookies_filePath) page s)
    as (s1 & t1 & Hacc & _).
  destruct (Haccess (world s) CookieSession.CONFIG_cookies_filePath) as (w1 & Hp1).
  rewrite (ext_Ok_outcome E _ s tt w1 Hp1) in Hacc.
  destruct (await_ext_run E (FsReadCookies CookieSession.CONFIG_cookies_filePath) page s1)
    as (s2 & t2 & Hrd & _).
  destruct (Hread (world s1) CookieSession.CONFIG_cookies_filePath)
    as (c & cookies & w2 & Hp2 & Hlive).
  rewrite (ext_Ok_outcome E _ s1 _ w2 Hp2) in Hrd.
  unfold CookieSession.loadCookies. cbv beta delta [tryCatch bind].
  rewrite Hacc. load_steps. rewrite Hrd. load_steps. cbn [List.length Nat.eqb].
  destruct (filterCookies_run (jsDivide (clock E (world s2)) 1000) (c :: cookies) s2)
    as (tf & Hf & _).
  rewrite Hf.
  rewrite (filter_without_expiry _ _ Hlive). load_steps. cbn [List.length Nat.eqb].
  destruct (await_ext_run E (PageSetCookie page (c :: cookies)) page s2)
    as (s3 & t3 & Hst & _).
  destruct (Hset (world s2) page (c :: cookies)) as (w3 & Hp3).
  rewrite (ext_Ok_outcome E _ s2 tt w3 Hp3) in Hst.
  rewrite Hst. load_steps. reflexivity.
Qed.

End LiveSession.


(* ===================================================================== *)
(** ** Saving a session and loading it back *)
(* ===================================================================== *)

Section Idle.

Context {W : Type} (E : Engine W).
Variable handler : Response -> M W unit.

(** Without a listener, awaiting is transparent. *)
Lemma awaitOn_idle {A} p (m : M W A) s :
  listener (final (m s)) = None ->
  (forall c, outcome (m s) <> Exit c) ->
  awaitOn E handler p m s = m s.
Proof.
  intros Hl HX. unfold awaitOn, tryFinally.
  destruct (m s) as [[a | e | c] s' t]; cbn [outcome final] in *;
    try (exfalso; exact (HX c eq_refl));
    unfold deliver, bind, getListener; cbn [outcome final trace]; rewrite Hl;
    cbn [ret after outcome final trace]; rewrite app_nil_r; reflexivity.
Qed.

Lemma awaited_ext_idle {A} p (op : Op A) s :
  listener s = None ->
  awaitOn E handler p (ext E op) s = ext E op s.
Proof.
  intros Hl. apply awaitOn_idle; [| apply ext_no_exit].
  unfold ext. destruct (perform E op (world s)). exact Hl.
Qed.

End Idle.



(* ===================================================================== *)
(** ** The timers of an attempt *)
(* ===================================================================== *)

Lemma sleptMs_quiet t : forallb (fun ev => negb (isSleep ev)) t = true -> sleptMs t = 0%Z.
Proof.
  induction t as [| ev t IH]; [reflexivity |].
  cbn [forallb]. intros H. apply andb_true_iff in H. destruct H as [H1 H2].
  destruct ev; try discriminate; cbn [sleptMs]; exact (IH H2).
Qed.

Section CostRules.

Context {W : Type} (E : Engine W).

Lemma Costs_weaken {A} r t r' t' (m : M W A) :
  Costs r t m -> (r <= r')%Z -> (t <= t')%Z -> Costs r' t' m.
Proof.
  intros H Hr Ht s. destruct (H s) as (H1 & H2 & H3).
  split; [| split; [| exact H3]].
  - intros a Ha. specialize (H1 a Ha). lia.
  - intros e He. specialize (H2 e He). lia.
Qed.

(** A computation that sets no timer. *)
Lemma Costs_quiet {A} (m : M W A) :
  Tame (fun _ => True) (fun ev => negb (isSleep ev)) m -> Costs 0 0 m.
Proof.
  intros H s. destruct (H s I) as (_ & HP & HX).
  rewrite (sleptMs_quiet _ HP). split; [| split; [| exact HX]]; intros; lia.
Qed.

(** [throw] never returns: any bound holds of its returns. *)
Lemma Costs_throw {A} r e : Costs r 0 (@throw W A e).
Proof. intros s. split; [| split]; intros; try discriminate; cbn; lia. Qed.

Lemma Costs_sleep ms : Costs ms 0 (sleep E ms).
Proof. intros s. split; [| split]; intros; try discriminate; cbn; lia. Qed.

Lemma Costs_bind {A B} r1 t1 r2 t2 (m : M W A) (k : A -> M W B) :
  Costs r1 t1 m -> (forall a, Costs r2 t2 (k a)) ->
  Costs (r1 + r2) (Z.max t1 (r1 + t2)) (bind m k).
Proof.
  intros Hm Hk s. destruct (Hm s) as (H1 & H2 & H3). unfold bind.
  destruct (m s) as [[a | e | c] s' t]; cbn [outcome final trace] in *.
  - destruct (Hk a s') as (K1 & K2 & K3). specialize (H1 a eq_refl).
    rewrite outcome_after, trace_after, sleptMs_app.
    split; [| split; [| exact K3]].
    + intros b Hb. specialize (K1 b Hb). lia.
    + intros e He. specialize (K2 e He). lia.
  - specialize (H2 e eq_refl). split; [| split]; intros; try discriminate; lia.
  - exfalso. exact (H3 c eq_refl).
Qed.

Lemma Costs_tryCatch {A} r1 t1 r2 t2 (m : M W A) h :
  Costs r1 t1 m -> (forall e, Costs r2 t2 (h e)) ->
  Costs (Z.max r1 (t1 + r2)) (t1 + t2) (tryCatch m h).
Proof.
  intros Hm Hh s. destruct (Hm s) as (H1 & H2 & H3). unfold tryCatch.
  destruct (m s) as [[a | e | c] s' t]; cbn [outcome final trace] in *.
  - specialize (H1 a eq_refl). split; [| split]; intros; try discriminate; lia.
  - destruct (Hh e s') as (K1 & K2 & K3). specialize (H2 e eq_refl).
    rewrite outcome_after, trace_after, sleptMs_app.
    split; [| split; [| exact K3]].
    + intros b Hb. specialize (K1 b Hb). lia.
    + intros e' He. specialize (K2 e' He). lia.
  - exfalso. exact (H3 c eq_refl).
Qed.

(** A [finally] block that sets no timer. *)
Lemma Costs_tryFinally {A} r t (m : M W A) f :
  Costs r t m -> Costs 0 0 f -> Costs r (Z.max r t) (tryFinally m f).
Proof.
  intros Hm Hf s. destruct (Hm s) as (H1 & H2 & H3). unfold tryFinally.
  destruct (m s) as [[a | e | c] s' t0]; cbn [outcome final trace] in *;
    try (exfalso; exact (H3 c eq_refl));
    destruct (Hf s') as (K1 & K2 & K3);
    destruct (f s') as [[u | e' | c'] s'' t']; cbn [outcome final trace] in *;
    try (exfalso; exact (K3 c' eq_refl));
    rewrite sleptMs_app;
    try specialize (H1 a eq_refl); try specialize (H2 e eq_refl);
    try specialize (K1 u eq_refl); try specialize (K2 e' eq_refl);
    (split; [| split]); intros; try discriminate; lia.
Qed.

Lemma Costs_if {A} r1 t1 r2 t2 (b : bool) (m1 m2 : M W A) :
  Costs r1 t1 m1 -> Costs r2 t2 m2 ->
  Costs (Z.max r1 r2) (Z.max t1 t2) (if b then m1 else m2).
Proof.
  intros H1 H2. destruct b.
  - apply (Costs_weaken r1 t1); [exact H1 | lia | lia].
  - apply (Costs_weaken r2 t2); [exact H2 | lia | lia].
Qed.

Section Listener.

Variable handler : Response -> M W unit.
Hypothesis handler_returns : forall r, Returns (handler r).
Hypothesis handler_sets_no_timer :
  forall r, Tame (fun _ => True) (fun ev => negb (isSleep ev)) (handler r).
Hypothesis handler_polite : forall r, Tame (fun _ => True) onlyPollSleeps (handler r).

(** The listener sets no timer while the caller waits. *)
Lemma Costs_awaitOn {A} r t p (m : M W A) :
  Costs r t m -> Costs r t (awaitOn E handler p m).
Proof.
  intros Hm s. destruct (Hm s) as (H1 & H2 & H3).
  rewrite (awaitOn_run E handler handler_returns p m s H3). cbn [outcome trace].
  rewrite sleptMs_app.
  rewrite (sleptMs_quiet _ (proj1 (proj2 (Tame_deliver E (fun _ => True)
                                            (fun ev => negb (isSleep ev))
                                            (fun _ => eq_refl) handler
                                            handler_sets_no_timer p (final (m s)) I)))).
  split; [| split; [| exact H3]].
  - intros a Ha. specialize (H1 a Ha). lia.
  - intros e He. specialize (H2 e He). lia.
Qed.

(** The polling loop sets at most [n] timers of 500 ms. *)
Lemma Costs_pollToken p n :
  Costs (500 * Z.of_nat n) 0 (pollToken E handler p n).
Proof.
  intros s.
  destruct (pollToken_bounded E handler handler_returns handler_sets_no_timer p n s)
    as (Ho & Hle & _).
  pose proof (pollToken_only_poll_sleeps E handler handler_polite p n s) as Hp.
  rewrite (sleptMs_poll _ Hp), Ho.
  split; [| split]; intros; try discriminate; lia.
Qed.

End Listener.

End CostRules.

(** Syntax-directed bound on the timers of a script: sequencing adds,
    branching takes the larger, a part that sets no timer costs nothing. *)
Ltac costs :=
  repeat
    match goal with
    | |- Costs _ _ (awaitOn _ _ _ (sleep _ _)) =>
        eapply Costs_awaitOn; [solve [auto] | solve [auto] | apply Costs_sleep]
    | |- Costs _ _ (pollToken _ _ _ _) =>
        eapply Costs_pollToken; solve [auto]
    | |- Costs _ _ (throw _) => apply (Costs_throw 0)
    | |- Costs _ _ (bind _ _) =>
        first [solve [apply Costs_quiet; tame] | eapply Costs_bind; [| intros ?]]
    | |- Costs _ _ (tryCatch _ _) =>
        first [solve [apply Costs_quiet; tame] | eapply Costs_tryCatch; [| intros ?]]
    | |- Costs _ _ (tryFinally _ _) =>
        first [solve [apply Costs_quiet; tame] | eapply Costs_tryFinally]
    | |- Costs _ _ (if _ then _ else _) =>
        first [solve [apply Costs_quiet; tame] | eapply Costs_if]
    | |- Costs _ _ _ => solve [apply Costs_quiet; tame]
    end.

Section AttemptCosts.

Context {W : Type} (E : Engine W).
Variable env : Env.

Let quiet : Event -> bool := fun ev => negb (isSleep ev).

Lemma cookie_onResponse_sets_no_timer r :
  Tame (fun _ => True) quiet (@CookieSession.onResponse W r).
Proof. apply cookie_onResponse_tame; [intros; exact I | exact chatter_sets_no_timer]. Qed.

Lemma cookie_onResponse_polite r :
  Tame (fun _ => True) onlyPollSleeps (@CookieSession.onResponse W r).
Proof. apply cookie_onResponse_tame; [intros; exact I | exact chatter_is_polite]. Qed.

Lemma credential_onResponse_sets_no_timer r :
  Tame (fun _ => True) quiet (@CredentialLogin.onResponse W r).
Proof. apply credential_onResponse_tame; [intros; exact I | exact chatter_sets_no_timer]. Qed.

Lemma credential_onResponse_polite r :
  Tame (fun _ => True) onlyPollSleeps (@CredentialLogin.onResponse W r).
Proof. apply credential_onResponse_tame; [intros; exact I | exact chatter_is_polite]. Qed.

Lemma filterCookies_sets_no_timer now cookies :
  Tame (fun _ => True) quiet (@CookieSession.filterCookies W now cookies).
Proof. apply filterCookies_tame. exact chatter_sets_no_timer. Qed.

Hint Resolve cookie_onResponse_sets_no_timer cookie_onResponse_polite
     credential_onResponse_sets_no_timer credential_onResponse_polite
     filterCookies_sets_no_timer
     cookie_onResponse_returns credential_onResponse_returns : core.

Lemma stepLoadCookies_cost page : Costs 0 0 (CookieSession.stepLoadCookies E page).
Proof.
  unfold CookieSession.stepLoadCookies, CookieSession.loadCookies. costs.
Qed.

Lemma cookie_stepNavigate_cost page :
  Costs 3000 3000 (CookieSession.stepNavigate E page).
Proof.
  unfold CookieSession.stepNavigate.
  eapply Costs_weaken; [costs | cbn; lia | cbn; lia].
Qed.

Lemma verifyCookiesValid_cost page :
  Costs 2000 2000 (CookieSession.verifyCookiesValid E page).
Proof.
  unfold CookieSession.verifyCookiesValid.
  eapply Costs_weaken; [costs | cbn; lia | cbn; lia].
Qed.

(** Step 3 returns after the 2 s of the verification; the 5 s it waits
    after a logout click end in an exception. *)
Lemma stepVerify_cost page : Costs 2000 7000 (CookieSession.stepVerify E page).
Proof.
  unfold CookieSession.stepVerify.
  apply (Costs_weaken (2000 + 0) (Z.max 2000 (2000 + 5000)));
    [| cbn; lia | cbn; lia].
  apply Costs_bind; [apply verifyCookiesValid_cost | intros isLoggedIn].
  apply (Costs_weaken (Z.max 0 0) (Z.max 5000 0)); [| cbn; lia | cbn; lia].
  apply Costs_if; [| costs].
  apply (Costs_weaken (0 + 0) (Z.max 0 (0 + 5000))); [| cbn; lia | cbn; lia].
  apply Costs_bind; [costs | intros _].
  apply (Costs_weaken (0 + 0) (Z.max 0 (0 + 5000))); [| cbn; lia | cbn; lia].
  apply Costs_bind; [costs | intros logoutClicked].
  apply (Costs_weaken (Z.max 0 0) (Z.max 5000 0)); [| cbn; lia | cbn; lia].
  apply Costs_if; [| costs].
  apply (Costs_weaken (0 + 0) (Z.max 0 (0 + 5000))); [| cbn; lia | cbn; lia].
  apply Costs_bind; [costs | intros _].
  apply (Costs_weaken (5000 + -5000) (Z.max 0 (5000 + 0))); [| cbn; lia | cbn; lia].
  apply Costs_bind; [| intros _; apply Costs_throw].
  apply Costs_awaitOn; [auto | auto | apply Costs_sleep].
Qed.

Lemma stepLogoutLogin_cost page :
  Costs 6000 6000 (CookieSession.stepLogoutLogin E page).
Proof.
  unfold CookieSession.stepLogoutLogin.
  eapply Costs_weaken; [costs | cbn; lia | cbn; lia].
Qed.

Lemma cookie_stepAwaitToken_cost page :
  Costs 15000 15000 (CookieSession.stepAwaitToken E page).
Proof.
  unfold CookieSession.stepAwaitToken.
  eapply Costs_weaken; [costs | cbn; lia | cbn; lia].
Qed.

Lemma stepPersistAndReturn_cost page :
  Costs 0 0 (CookieSession.stepPersistAndReturn E page).
Proof.
  unfold CookieSession.stepPersistAndReturn, CookieSession.saveCookies. costs.
Qed.

Lemma captureTokenWithCookies_cost browser :
  Costs 26000 26000 (CookieSession.captureTokenWithCookies E browser).
Proof.
  unfold CookieSession.captureTokenWithCookies.
  eapply Costs_weaken.
  - eapply Costs_bind; [costs | intros page].
    eapply Costs_bind; [costs | intros _].
    eapply Costs_bind; [costs | intros _].
    eapply Costs_bind; [costs | intros _].
    eapply Costs_bind; [costs | intros _].
    eapply Costs_bind; [costs | intros _].
    eapply Costs_tryFinally; [| costs].
    eapply Costs_bind; [apply stepLoadCookies_cost | intros _].
    eapply Costs_bind; [apply cookie_stepNavigate_cost | intros _].
    eapply Costs_bind; [apply stepVerify_cost | intros _].
    eapply Costs_bind; [apply stepLogoutLogin_cost | intros _].
    eapply Costs_bind; [apply cookie_stepAwaitToken_cost | intros _].
    apply stepPersistAndReturn_cost.
  - cbn. lia.
  - cbn. lia.
Qed.

Lemma credential_stepNavigate_cost page :
  Costs 3000 3000 (CredentialLogin.stepNavigate E page).
Proof.
  unfold CredentialLogin.stepNavigate.
  eapply Costs_weaken; [costs | cbn; lia | cbn; lia].
Qed.

Lemma stepLogout_cost page : Costs 3000 3000 (CredentialLogin.stepLogout E page).
Proof.
  unfold CredentialLogin.stepLogout.
  eapply Costs_weaken; [costs | cbn; lia | cbn; lia].
Qed.

Lemma stepLogin_cost page : Costs 0 0 (CredentialLogin.stepLogin E env page).
Proof. unfold CredentialLogin.stepLogin. costs. Qed.

Lemma credential_stepAwaitToken_cost page :
  Costs 10000 10000 (CredentialLogin.stepAwaitToken E page).
Proof.
  unfold CredentialLogin.stepAwaitToken.
  eapply Costs_weaken; [costs | cbn; lia | cbn; lia].
Qed.

Lemma captureToken_cost browser :
  Costs 16000 16000 (CredentialLogin.captureToken E env browser).
Proof.
  unfold CredentialLogin.captureToken.
  eapply Costs_weaken.
  - eapply Costs_bind; [costs | intros page].
    eapply Costs_bind; [costs | intros _].
    eapply Costs_bind; [costs | intros _].
    eapply Costs_bind; [costs | intros _].
    eapply Costs_bind; [costs | intros _].
    eapply Costs_bind; [costs | intros _].
    eapply Costs_tryFinally; [| costs].
    eapply Costs_bind; [apply credential_stepNavigate_cost | intros _].
    eapply Costs_bind; [apply stepLogout_cost | intros _].
    eapply Costs_bind; [apply stepLogin_cost | intros _].
    eapply Costs_bind; [apply credential_stepAwaitToken_cost | intros _].
    unfold CredentialLogin.stepValidateAndReturn. costs.
  - cbn. lia.
  - cbn. lia.
Qed.

End AttemptCosts.

Lemma Costs_bound {W : Type} {A} (b : Z) (m : M W A) (s : HState W) :
  Costs b b m -> (sleptMs (trace (m s)) <= b)%Z.
Proof.
  intros H. destruct (H s) as (H1 & H2 & H3).
  destruct (outcome (m s)) as [a | e | c] eqn:Ho.
  - exact (H1 a eq_refl).
  - exact (H2 e eq_refl).
  - exfalso. exact (H3 c eq_refl).
Qed.

(** X22.  One attempt of the cookie script spends at most 26 seconds in
    timers, one attempt of the credential script at most 16, whatever
    the collaborators do; both bounds are reached on the simulated
    portal when no token arrives. *)
Theorem attempt_timer_budget {W : Type} (E : Engine W) (env : Env) (browser : Browser)
        (s : HState W) :
  (sleptMs (trace (CookieSession.captureTokenWithCookies E browser s)) <= 26000)%Z /\
  (sleptMs (trace (CredentialLogin.captureToken E env browser s)) <= 16000)%Z /\
  sleptMs (trace (CookieSession.captureTokenWithCookies Sim.engine 1
                    (Sim.machine (Some (CJArray [Sim.sessionCookie None])) [] false)))
  = 26000%Z /\
  sleptMs (trace (CredentialLogin.captureToken Sim.engine Sim.credentialEnv 1
                    (Sim.machine None [] false)))
  = 16000%Z.
Proof.
  split; [apply Costs_bound, captureTokenWithCookies_cost |].
  split; [apply Costs_bound, captureToken_cost |].
  split; vm_compute; reflexivity.
Qed.

(* ===================================================================== *)
(** ** What an attempt returns *)
(* ===================================================================== *)

Lemma validateToken_Ok_string (v : JsValue) :
  validateToken v = Ok true ->
  exists t, v = JsString t /\ startsWith "eyJ" t = true /\ countChar "." t = 2%nat.
Proof.
  intros H.
  destruct v as [| | b | q | t | items | fields];
    try (rewrite validateToken_not_string in H by (intros t'; discriminate);
         discriminate).
  exists t. split; [reflexivity |].
  rewrite validateToken_string in H. destruct t as [| c t']; [discriminate |].
  destruct (startsWith "eyJ" (String c t')); [| discriminate]. split; [reflexivity |].
  cbn [negb] in H. rewrite split_length in H.
  destruct (Nat.eqb (S (countChar "." (String c t'))) 3) eqn:Hn; [| discriminate].
  apply Nat.eqb_eq in Hn. lia.
Qed.

(** X23.  Whatever an attempt of the cookie script returns has passed
    [validateToken]: it is a string that starts with [eyJ] and holds
    exactly two dots. *)
Theorem cookie_attempt_returns_validated_token {W : Type} (E : Engine W)
        (browser : Browser) (s : HState W) (v : JsValue) :
  outcome (CookieSession.captureTokenWithCookies E browser s) = Return v ->
  validateToken v = Ok true /\
  exists t, v = JsString t /\ startsWith "eyJ" t = true /\ countChar "." t = 2%nat.
Proof.
  intros H. pose proof (cookie_capture_validated E browser s v H) as Hv.
  split; [exact Hv | exact (validateToken_Ok_string v Hv)].
Qed.

Lemma cookie_attempt_returns_validated_token_witness :
  validateToken (JsString goodToken) = Ok true.
Proof.
  apply (cookie_attempt_returns_validated_token Sim.engine 1 liveSession
           (JsString goodToken)).
  vm_compute. reflexivity.
Defined.

(** X24.  Whatever an attempt of the credential script returns has passed
    [validateToken]: it is a string that starts with [eyJ] and holds
    exactly two dots. *)
Theorem credential_attempt_returns_validated_token {W : Type} (E : Engine W)
        (env : Env) (browser : Browser) (s : HState W) (v : JsValue) :
  outcome (CredentialLogin.captureToken E env browser s) = Return v ->
  validateToken v = Ok true /\
  exists t, v = JsString t /\ startsWith "eyJ" t = true /\ countChar "." t = 2%nat.
Proof.
  intros H. pose proof (credential_capture_validated E env browser s v H) as Hv.
  split; [exact Hv | exact (validateToken_Ok_string v Hv)].
Qed.

Lemma credential_attempt_returns_validated_token_witness :
  validateToken (JsString goodToken) = Ok true.
Proof.
  apply (credential_attempt_returns_validated_token Sim.engine Sim.credentialEnv 1
           (Sim.machine None [Sim.tokenResponse goodToken] false) (JsString goodToken)).
  vm_compute. reflexivity.
Defined.

(* ===================================================================== *)
(** ** What the credential script types *)
(* ===================================================================== *)

Lemma chatter_types_nothing t :
  forallb isChatter t = true -> filter isTyping t = [].
Proof.
  intros H. apply filter_none. apply (forallb_chatter _ t); [| exact H].
  intros ev Hev. destruct ev; try discriminate; reflexivity.
Qed.

Lemma chatter_is_no_typing ev :
  isChatter ev = true -> negb (isTyping ev) = true.
Proof. destruct ev; simpl; intros H; try reflexivity; discriminate. Qed.

Section Typing.

Context {W : Type} (E : Engine W).
Variable env : Env.

Let P : Event -> bool := fun ev => negb (isTyping ev).
Let J : JsValue -> Prop := fun _ => True.

(** After a part that types nothing, what is typed is typed by the rest. *)
Lemma typing_after {A B} (m : M W A) (k : A -> M W B) s :
  Tame J P m ->
  filter isTyping (trace (bind m k s)) =
    match outcome (m s) with
    | Return a => filter isTyping (trace (k a (final (m s))))
    | _ => []
    end.
Proof.
  intros Hm. destruct (Hm s I) as (_ & HP & HX). unfold bind.
  destruct (m s) as [[a | e | c] s' t]; cbn [outcome final trace] in *.
  - rewrite trace_after, filter_app, (filter_none _ _ HP). reflexivity.
  - exact (filter_none _ _ HP).
  - exfalso. exact (HX c eq_refl).
Qed.

(** Before a part that types nothing, what is typed was typed already. *)
Lemma typing_before {A B} (m : M W A) (k : A -> M W B) s :
  (forall a, Tame J P (k a)) ->
  filter isTyping (trace (bind m k s)) = filter isTyping (trace (m s)).
Proof.
  intros Hk. unfold bind.
  destruct (m s) as [[a | e | c] s' t]; cbn [trace]; try reflexivity.
  destruct (Hk a s' I) as (_ & HP & _).
  rewrite trace_after, filter_app, (filter_none _ _ HP), app_nil_r. reflexivity.
Qed.

Lemma credential_onResponse_types_nothing r :
  Tame J P (@CredentialLogin.onResponse W r).
Proof.
  apply credential_onResponse_tame;
    [intros; exact I | exact chatter_is_no_typing].
Qed.

Hint Resolve credential_onResponse_types_nothing : core.

Lemma credential_onResponse_chatter r :
  Tame (fun _ => True) isChatter (@CredentialLogin.onResponse W r).
Proof. apply credential_onResponse_tame; [intros; exact I | auto]. Qed.

(** An awaited call of [page.type], followed by the rest. *)
Lemma typing_call {B} page group text (k : unit -> M W B) s :
  filter isTyping
         (trace (bind (awaitOn E CredentialLogin.onResponse page
                               (ext E (PageType page group text 100))) k s)) =
    EvExt (PageType page group text 100)
      :: match outcome (ext E (PageType page group text 100) s) with
         | Return _ =>
             filter isTyping
                    (trace (k tt (final (awaitOn E CredentialLogin.onResponse page
                                           (ext E (PageType page group text 100)) s))))
         | _ => []
         end.
Proof.
  destruct (awaited_ext_run E CredentialLogin.onResponse credential_onResponse_returns
              credential_onResponse_chatter (PageType page group text 100) page s)
    as (s' & td & Hrun & Htd).
  unfold bind. rewrite Hrun. cbn [final].
  destruct (outcome (ext E (PageType page group text 100) s)) as [[] | e | c];
    cbn [trace after]; rewrite ?trace_after; cbn [filter isTyping app];
    rewrite ?filter_app, (chatter_types_nothing td Htd); reflexivity.
Qed.

Lemma stepLogin_typing page (s : HState W) :
  exists n,
    filter isTyping (trace (CredentialLogin.stepLogin E env page s)) =
      firstn n [typeEmail env page; typePassword env page].
Proof.
  unfold CredentialLogin.stepLogin.
  rewrite typing_after by tame. cbn [outcome console_log emit final].
  rewrite typing_after by tame.
  match goal with
  | |- context [match outcome ?r with _ => _ end] => destruct (outcome r) as [[] | e | c]
  end; try (exists 0%nat; reflexivity).
  rewrite typing_after by tame. cbn [outcome console_log emit final].
  rewrite typing_call.
  match goal with
  | |- context [match outcome ?r with _ => _ end] => destruct (outcome r) as [[] | e | c]
  end; try (exists 1%nat; reflexivity).
  rewrite typing_after by tame. cbn [outcome console_log emit final].
  rewrite typing_call.
  exists 2%nat. cbn [firstn]. unfold typeEmail, typePassword. do 2 f_equal.
  match goal with
  | |- context [match outcome ?r with _ => _ end] => destruct (outcome r) as [[] | e | c]
  end; try reflexivity.
  apply filter_none.
  match goal with
  | |- forallb _ (trace (?m ?s0)) = true =>
      assert (Hm : Tame J P m) by tame; exact (proj1 (proj2 (Hm s0 I)))
  end.
Qed.

Lemma stepLogin_no_exit page (s : HState W) c :
  outcome (CredentialLogin.stepLogin E env page s) <> Exit c.
Proof.
  exact (proj2 (proj2 (stepLogin_step E env (fun _ => True) (fun _ => true)
                         (fun _ _ => I) (fun _ _ => eq_refl) page s I)) c).
Qed.

Lemma captureToken_typing browser (s : HState W) :
  let typed := filter isTyping (trace (CredentialLogin.captureToken E env browser s)) in
  match perform E (BrowserNewPage browser) (world s) with
  | (Ok page, _) =>
      exists n, typed = firstn n [typeEmail env page; typePassword env page]
  | (Err _, _) => typed = []
  end.
Proof.
  cbv zeta. unfold CredentialLogin.captureToken.
  rewrite typing_after by tame.
  destruct (perform E (BrowserNewPage browser) (world s)) as [[page | e] w1] eqn:Hp;
    [rewrite (ext_Ok_outcome E _ s page w1 Hp)
    | rewrite (ext_Err_outcome E _ s e w1 Hp); reflexivity].
  cbn [outcome final].
  rewrite typing_after by tame.
  match goal with
  | |- context [match outcome ?r with _ => _ end] => destruct (outcome r) as [[] | e | c]
  end; try (exists 0%nat; reflexivity).
  rewrite typing_after by tame.
  match goal with
  | |- context [match outcome ?r with _ => _ end] => destruct (outcome r) as [[] | e | c]
  end; try (exists 0%nat; reflexivity).
  rewrite typing_after by tame. cbn [outcome setCapturedToken final].
  rewrite typing_after by tame. cbn [outcome console_log emit final].
  rewrite typing_after by tame. cbn [outcome pageOnResponse final].
  match goal with
  | |- context [tryFinally ?b ?f ?s0] =>
      assert (Hfin : filter isTyping (trace (tryFinally b f s0))
                     = filter isTyping (trace (b s0)))
  end.
  { match goal with
    | |- context [tryFinally ?b ?f ?s0] =>
        assert (Hf : Tame J P f) by tame;
        unfold tryFinally; destruct (b s0) as [[a | e | c] s' t]; cbn [trace];
        try reflexivity;
        destruct (Hf s' I) as (_ & HP & _);
        destruct (f s') as [[u | e' | c'] s'' t']; cbn [trace] in *;
        rewrite filter_app, (filter_none _ _ HP), app_nil_r; reflexivity
    end. }
  rewrite Hfin. clear Hfin.
  rewrite typing_after by (unfold CredentialLogin.stepNavigate; tame).
  match goal with
  | |- context [match outcome ?r with _ => _ end] => destruct (outcome r) as [[] | e | c]
  end; try (exists 0%nat; reflexivity).
  rewrite typing_after by (unfold CredentialLogin.stepLogout; tame).
  match goal with
  | |- context [match outcome ?r with _ => _ end] => destruct (outcome r) as [[] | e | c]
  end; try (exists 0%nat; reflexivity).
  rewrite typing_before
    by (intros; unfold CredentialLogin.stepAwaitToken, CredentialLogin.stepValidateAndReturn;
        tame).
  apply stepLogin_typing.
Qed.

End Typing.

(** X25.  An attempt of the credential script types at most twice, and
    only into the page that [browser.newPage()] gave it: first
    [PORTAL_EMAIL] into the e-mail field, then [PORTAL_PASSWORD] into the
    password field, each at most once and never the password without the
    e-mail before it.  When no page opens, nothing is typed. *)
Theorem credentials_typed_once_in_order {W : Type} (E : Engine W) (env : Env)
        (browser : Browser) (s : HState W) :
  let typed := filter isTyping (trace (CredentialLogin.captureToken E env browser s)) in
  match perform E (BrowserNewPage browser) (world s) with
  | (Ok page, _) =>
      exists n, typed = firstn n [typeEmail env page; typePassword env page]
  | (Err _, _) => typed = []
  end.
Proof. exact (captureToken_typing E env browser s). Qed.

(* ===================================================================== *)
(** ** An expired session behind a stale logout control *)
(* ===================================================================== *)

Section StaleLogout.

Context {W : Type} (E : Engine W).
Hypothesis loads : PortalLoads E.
Hypothesis staleLogout : PortalShowsStaleLogout E.
Hypothesis clicks : ClicksSucceed E.

Lemma verifyCookiesValid_rejects page (s : HState W) :
  outcome (CookieSession.verifyCookiesValid E page s) = Return false.
Proof.
  destruct (verifyCookiesValid_cases E page s) as (_ & Hnav & Hok & _).
  cbv zeta in *.
  rewrite (awaited_goto_returns E loads page s) in *.
  match type of Hok with
  | forall d w', _ -> perform E _ (world ?s0) = _ -> _ =>
      destruct (staleLogout (world s0) page) as (d & w' & Hp & Hrule & _)
  end.
  rewrite (Hok d w' eq_refl Hp), Hrule. reflexivity.
Qed.

Lemma awaited_logout_click page (s : HState W) :
  outcome (awaitOn E CookieSession.onResponse page
             (evaluate E page (clickFirst logoutSelectors)) s) = Return true.
Proof.
  destruct (staleLogout (world s) page) as (d & w' & Hp & _ & Hlog).
  destruct (proj2 (clickFirst_logoutSelectors d) Hlog) as (sel & _ & _ & Hclick).
  destruct (clicks w' page sel) as (w'' & Hc).
  assert (Ho : outcome (evaluate E page (clickFirst logoutSelectors) s) = Return true).
  { unfold evaluate, bind, ext. rewrite Hp, Hclick.
    cbn [outcome final world setWorld after]. rewrite Hc. reflexivity. }
  rewrite (outcome_awaited E) by (intros c; rewrite Ho; discriminate).
  exact Ho.
Qed.

Lemma stepVerify_session_expired page (s : HState W) :
  outcome (CookieSession.stepVerify E page s)
  = Throw (newError CookieSession.msgSessionExpired).
Proof.
  unfold CookieSession.stepVerify.
  rewrite (bind_Return _ _ s false (verifyCookiesValid_rejects page s)), outcome_after.
  cbn [negb]. rewrite bind_console_warn, outcome_after.
  rewrite (bind_Return _ _ _ true (awaited_logout_click page _)), outcome_after.
  rewrite bind_console_log, outcome_after.
  rewrite (bind_Return _ _ _ tt (awaited_sleep_returns E 5000 page _)), outcome_after.
  reflexivity.
Qed.

Hypothesis session : SessionLoads E.
Hypothesis lifecycle : PageLifecycleSucceeds E.

Lemma captureTokenWithCookies_session_expired browser (s : HState W) :
  outcome (CookieSession.captureTokenWithCookies E browser s)
  = Throw (newError CookieSession.msgSessionExpired).
Proof.
  destruct lifecycle as (Hnew & Hview & Hagent & Hclose).
  unfold CookieSession.captureTokenWithCookies.
  destruct (Hnew (world s) browser) as (p & w1 & Hp).
  rewrite (bind_ext_Ok E _ _ _ _ _ Hp).
  destruct (Hview w1 p 1920%Z 1080%Z) as (w2 & Hv).
  rewrite (bind_ext_Ok E _ _ (setWorld w1 s) _ _ Hv).
  destruct (Hagent w2 p userAgent) as (w3 & Ha).
  rewrite (bind_ext_Ok E _ _ (setWorld w2 (setWorld w1 s)) _ _ Ha).
  rewrite (bind_quiet (setCapturedToken JsNull) _ _ tt _ eq_refl).
  rewrite bind_console_log.
  rewrite (bind_quiet (pageOnResponse p) _ _ tt _ eq_refl).
  rewrite !outcome_after.
  match goal with
  | |- context [tryFinally ?b _ ?s0] => set (body := b) in *; set (s3 := s0) in *
  end.
  assert (Hbody : outcome (body s3) = Throw (newError CookieSession.msgSessionExpired)).
  { unfold body.
    rewrite (bind_Return _ _ s3 tt (stepLoadCookies_loads E session p s3)), outcome_after.
    rewrite (bind_Return _ _ _ tt (stepNavigate_returns E loads p _)), outcome_after.
    rewrite (bind_Throw _ _ _ _ (stepVerify_session_expired p _)). reflexivity. }
  destruct (Hclose (world (final (body s3))) p) as (w5 & Hc).
  destruct (closing_run E body p s3 w5) as (sEnd & td & Hrun & _).
  - intros c. rewrite Hbody. discriminate.
  - exact Hc.
  - rewrite Hrun. exact Hbody.
Qed.

End StaleLogout.


